(** * Lusty Library installer: the setup form (setup_gui.py)

    A shallow embedding of [setup_gui.py] and the properties of its
    configuration workflow.  Python code becomes functions in a state and
    exception monad over an explicit [world]: the object heap (dictionaries
    are mutable and can be shared), the file system and the log of the
    external commands that were started.

    The two libraries the program calls and that are not part of it, PyYAML
    and [subprocess], are interfaces ([Yaml], [Subprocess]); every theorem
    holds for all their instances. *)

From Stdlib Require Import NArith ZArith String Ascii Lia.
From stdpp Require Import gmap list pretty.

Set Warnings "-register-all".
Set Default Proof Using "Type".

(** * Python strings *)

(** A [str] is a sequence of Unicode code points. *)
Abbreviation str := (list N).

(** String literals.  The grave accent, which the program's own literals never
    contain, stands for the double quote (code point 34). *)
Definition lit (s : string) : str :=
  (λ a : ascii, if Ascii.eqb a "`" then 34%N else N_of_ascii a)
    <$> list_ascii_of_string s.

Definition LF : str := [10%N].

(** [str.splitlines] ends a line at each of these characters. *)
Definition is_linebreak (c : N) : bool :=
  (((10 <=? c) && (c <=? 13)) || ((28 <=? c) && (c <=? 30))
   || (c =? 133) || (c =? 8232) || (c =? 8233))%N.

(** [str.isspace] for one character: what [str.strip()] removes. *)
Definition is_space (c : N) : bool :=
  (((9 <=? c) && (c <=? 13)) || ((28 <=? c) && (c <=? 32))
   || (c =? 133) || (c =? 160) || (c =? 5760)
   || ((8192 <=? c) && (c <=? 8202)) || (c =? 8232) || (c =? 8233)
   || (c =? 8239) || (c =? 8287) || (c =? 12288))%N.

(** [s.splitlines()]: a carriage return followed by a line feed is one
    boundary; a final line without boundary is kept when it is not empty. *)
Fixpoint splitlines (s : str) : list str :=
  match s with
  | [] => []
  | c :: s' =>
      if is_linebreak c then
        match s' with
        | c2 :: s'' =>
            if (c =? 13) && (c2 =? 10) then [] :: splitlines s''
            else [] :: splitlines s'
        | [] => [[]]
        end
      else
        match splitlines s' with
        | [] => [[c]]
        | l :: ls => (c :: l) :: ls
        end
  end%N.

(** [s.startswith(p)] *)
Fixpoint startswith (s p : str) : bool :=
  match p, s with
  | [], _ => true
  | _ :: _, [] => false
  | c :: p', d :: s' => (c =? d)%N && startswith s' p'
  end.

(** [sep.join(ls)] *)
Fixpoint join (sep : str) (ls : list str) : str :=
  match ls with
  | [] => []
  | [l] => l
  | l :: ls' => l ++ sep ++ join sep ls'
  end.

Fixpoint lstrip (s : str) : str :=
  match s with
  | [] => []
  | c :: s' => if is_space c then lstrip s' else s
  end.

Definition rstrip (s : str) : str := reverse (lstrip (reverse s)).

(** [s.strip()] *)
Definition strip (s : str) : str := rstrip (lstrip s).

(** Text-mode reading translates every line ending to a line feed. *)
Fixpoint universal_newlines (s : str) : str :=
  match s with
  | [] => []
  | c :: s' =>
      if (c =? 13)%N then
        match s' with
        | c2 :: s'' =>
            if (c2 =? 10)%N then 10%N :: universal_newlines s''
            else 10%N :: universal_newlines s'
        | [] => [10%N]
        end
      else c :: universal_newlines s'
  end.

(** * Python values *)

(** What [yaml.safe_load] can return, as a pure tree: scalars, sequences and
    mappings with string keys.  (Floats, timestamps, mappings with other keys
    and aliases are not covered.) *)
Inductive tree :=
  | TNone
  | TBool (b : bool)
  | TInt (z : Z)
  | TStr (s : str)
  | TSeq (ts : list tree)
  | TMap (m : gmap str tree).

(** A value at run time.  A dictionary is an object on the heap and a value
    only refers to it, so that two names can denote the same dictionary.  The
    program never updates a list, which stays a pure value. *)
Inductive value :=
  | VNone
  | VBool (b : bool)
  | VInt (z : Z)
  | VStr (s : str)
  | VSeq (ts : list tree)
  | VRef (l : nat).

Abbreviation dict := (gmap str value).

(** * The world *)

Inductive exn :=
  | KeyError (k : str)
  | TypeError
  | OSError (path : str)
  | YAMLError
  | BuildError
  | SyntaxError
  | OutOfModel.

Inductive result (A : Type) :=
  | Ok (a : A)
  | Raise (e : exn).
Arguments Ok {A} a.
Arguments Raise {A} e.

Record world := World {
  heap : list dict;          (* the dictionaries, by address *)
  files : gmap str str;      (* regular files: path and text *)
  dirs : gset str;           (* directories *)
  modes : gmap str N;        (* permission bits set by chmod *)
  denied : gset str;         (* paths the process cannot create or write *)
  ran : list (list str)      (* commands started so far *)
}.

Definition set_heap (h : list dict) (w : world) : world :=
  World h (files w) (dirs w) (modes w) (denied w) (ran w).
Definition set_files (f : gmap str str) (w : world) : world :=
  World (heap w) f (dirs w) (modes w) (denied w) (ran w).
Definition set_dirs (d : gset str) (w : world) : world :=
  World (heap w) (files w) d (modes w) (denied w) (ran w).
Definition set_modes (m : gmap str N) (w : world) : world :=
  World (heap w) (files w) (dirs w) m (denied w) (ran w).
Definition set_ran (r : list (list str)) (w : world) : world :=
  World (heap w) (files w) (dirs w) (modes w) (denied w) r.

(** A computation changes the world and returns or raises; what it did
    before raising stays done. *)
Definition M (A : Type) : Type := world → result A * world.

Definition ret {A} (a : A) : M A := λ w, (Ok a, w).
Definition raise {A} (e : exn) : M A := λ w, (Raise e, w).
Definition bind {A B} (m : M A) (k : A → M B) : M B :=
  λ w, match m w with
       | (Ok a, w') => k a w'
       | (Raise e, w') => (Raise e, w')
       end.

Notation "x <- c1 ;; c2" := (bind c1 (λ x, c2))
  (at level 100, c1 at next level, right associativity).
Notation "c1 ;; c2" := (bind c1 (λ _, c2))
  (at level 100, right associativity).

(** [try: m  except Exception: pass] *)
Definition try_pass {A} (m : M A) : M unit :=
  λ w, (Ok tt, (m w).2).

(** [for x in xs: body x] *)
Fixpoint for_each {A} (xs : list A) (body : A → M unit) : M unit :=
  match xs with
  | [] => ret tt
  | x :: xs' => body x ;; for_each xs' body
  end.

(** ** Dictionaries on the heap *)

(** The dictionary a value refers to; subscripting anything else raises
    [TypeError].  (An address outside the heap cannot arise in Python.) *)
Definition deref (v : value) : M dict :=
  λ w, match v with
       | VRef l =>
           match heap w !! l with
           | Some d => (Ok d, w)
           | None => (Raise OutOfModel, w)
           end
       | _ => (Raise TypeError, w)
       end.

(** [v[k]] *)
Definition getitem (v : value) (k : str) : M value :=
  d <- deref v ;;
  match d !! k with
  | Some x => ret x
  | None => raise (KeyError k)
  end.

(** [v[k] = x]: the dictionary is updated in place. *)
Definition setitem (v : value) (k : str) (x : value) : M unit :=
  d <- deref v ;;
  λ w, match v with
       | VRef l => (Ok tt, set_heap (<[l := <[k := x]> d]> (heap w)) w)
       | _ => (Raise TypeError, w)
       end.

(** A new dictionary object. *)
Definition alloc (d : dict) : M value :=
  λ w, (Ok (VRef (length (heap w))), set_heap (heap w ++ [d]) w).

(** [v.copy()]: a new dictionary with the same entries; the values the
    entries refer to are shared with the original. *)
Definition dict_copy (v : value) : M value :=
  d <- deref v ;; alloc d.

(** [bool(v)] *)
Definition truthy (v : value) : M bool :=
  match v with
  | VNone => ret false
  | VBool b => ret b
  | VInt z => ret (negb (z =? 0)%Z)
  | VStr s => ret (negb (bool_decide (s = [])))
  | VSeq ts => ret (match ts with [] => false | _ => true end)
  | VRef _ => d <- deref v ;; ret (negb (bool_decide (dom d = ∅)))
  end.

(** What an f-string inserts for [{v}].  The text of a container is outside
    the model. *)
Definition format_value (v : value) : M str :=
  match v with
  | VStr s => ret s
  | VNone => ret (lit "None")
  | VBool true => ret (lit "True")
  | VBool false => ret (lit "False")
  | VInt z => ret (lit (pretty z))
  | VSeq _ | VRef _ => raise OutOfModel
  end.

(** ** PyYAML *)

Class Yaml := {
  safe_load : str → option tree;   (* [None]: the text is not YAML *)
  safe_dump : tree → str
}.

(** The objects [yaml.safe_load] builds for a tree: one new dictionary per
    mapping. *)
Fixpoint construct_in (t : tree) (h : list dict) : value * list dict :=
  match t with
  | TNone => (VNone, h)
  | TBool b => (VBool b, h)
  | TInt z => (VInt z, h)
  | TStr s => (VStr s, h)
  | TSeq ts => (VSeq ts, h)
  | TMap m =>
      let '(d, h') :=
        map_fold (λ k t (acc : dict * list dict),
                    let '(v, h1) := construct_in t acc.2 in (<[k := v]> acc.1, h1))
                 (∅, h) m in
      (VRef (length h'), h' ++ [d])
  end.

Definition construct (t : tree) : M value :=
  λ w, let '(v, h) := construct_in t (heap w) in (Ok v, set_heap h w).

(** The tree [yaml.safe_dump] sees when it walks a value, to depth [n]. *)
Fixpoint represent (n : nat) (h : list dict) (v : value) : option tree :=
  match n with
  | O => None
  | S n =>
      match v with
      | VNone => Some TNone
      | VBool b => Some (TBool b)
      | VInt z => Some (TInt z)
      | VStr s => Some (TStr s)
      | VSeq ts => Some (TSeq ts)
      | VRef l =>
          match h !! l with
          | None => None
          | Some d =>
              let m := represent n h <$> d in
              if decide (map_Forall (λ _ o, is_Some o) m)
              then Some (TMap (omap id m)) else None
          end
      end
  end.

(** A document nested deeper than the heap has dictionaries is cyclic; its
    dump (with anchors) is outside the model. *)
Definition dump_tree (v : value) : M tree :=
  λ w, match represent (S (length (heap w))) (heap w) v with
       | Some t => (Ok t, w)
       | None => (Raise OutOfModel, w)
       end.

(** ** Files *)

(** [p.exists()] *)
Definition path_exists (p : str) : M bool :=
  λ w, (Ok (bool_decide (p ∈ dom (files w) ∪ dirs w)), w).

(** [p.read_text()], and reading an open text file to its end. *)
Definition read_text (p : str) : M str :=
  λ w, match files w !! p with
       | Some s => (Ok (universal_newlines s), w)
       | None => (Raise (OSError p), w)
       end.

(** The directories above [p]: what is left of each separator. *)
Fixpoint ancestors_from (pre p : str) : list str :=
  match p with
  | [] => []
  | c :: p' =>
      (if (c =? 47)%N && negb (bool_decide (pre = [])) then [pre] else [])
      ++ ancestors_from (pre ++ [c]) p'
  end.
Definition ancestors (p : str) : list str := ancestors_from [] p.

(** [p.parent] *)
Definition path_parent (p : str) : str :=
  match reverse (ancestors p) with
  | d :: _ => d
  | [] => if startswith p (lit "/") then lit "/" else lit "."
  end.

(** The directory [d] is there: it is one of the directories of the world,
    or the root, or the working directory. *)
Definition dir_exists (w : world) (d : str) : bool :=
  bool_decide (d ∈ dirs w) || bool_decide (d = lit "/") || bool_decide (d = lit ".").

(** [p.write_text(s)], and writing a file opened with ["w"].  The file is
    made or emptied in its directory, which has to be there
    ([FileNotFoundError] is an [OSError]); a file that is there is in a
    directory. *)
Definition write_text (p s : str) : M unit :=
  λ w, if bool_decide (p ∈ denied w ∪ dirs w) then (Raise (OSError p), w)
       else if bool_decide (p ∈ dom (files w)) || dir_exists w (path_parent p)
       then (Ok tt, set_files (<[p := s]> (files w)) w)
       else (Raise (OSError p), w).

(** [s.split(sep)], for a separator of one character. *)
Fixpoint split_at (sep : N) (s : str) : list str :=
  match s with
  | [] => [[]]
  | c :: s' =>
      if (c =? sep)%N then [] :: split_at sep s'
      else match split_at sep s' with
           | l :: ls => (c :: l) :: ls
           | [] => [[c]]
           end
  end.

(** The segments [pathlib] keeps of a path: empty segments (doubled or
    final separators) and single dots go; a double dot stays. *)
Definition path_parts (s : str) : list str :=
  filter (λ x, x ≠ [] ∧ x ≠ lit ".") (split_at 47 s).

(** The root: exactly two leading separators are kept as they are. *)
Definition path_root (s : str) : str :=
  if startswith s (lit "//") && negb (startswith s (lit "///")) then lit "//"
  else if startswith s (lit "/") then lit "/"
  else [].

(** [str(Path(s))] *)
Definition path_str (s : str) : str :=
  match path_root s ++ join (lit "/") (path_parts s) with
  | [] => lit "."
  | p => p
  end.

(** [posixpath.join(a, b)] *)
Definition posix_join (a b : str) : str :=
  if startswith b (lit "/") then b
  else match reverse a with
       | [] => b
       | c :: _ => if (c =? 47)%N then a ++ b else a ++ lit "/" ++ b
       end.

(** [a / b] and [Path(a, b)]: the segments are joined and the path is
    spelled as [pathlib] spells it. *)
Definition path_join (a b : str) : str := path_str (posix_join a b).

(** [p.mkdir(parents=True, exist_ok=True)]: it fails where a regular file
    is in the way. *)
Definition mkdir_p (p : str) : M unit :=
  λ w, if bool_decide (p ∈ denied w)
          || existsb (λ q, bool_decide (q ∈ dom (files w))) (p :: ancestors p)
       then (Raise (OSError p), w)
       else (Ok tt, set_dirs (dirs w ∪ list_to_set (p :: ancestors p)) w).

(** [p.chmod(mode)] *)
Definition chmod (p : str) (mode : N) : M unit :=
  λ w, if bool_decide (p ∈ dom (files w) ∪ dirs w)
       then (Ok tt, set_modes (<[p := mode]> (modes w)) w)
       else (Raise (OSError p), w).

(** [Path(v, sub)]: the first segment has to be a string. *)
Definition Path2 (v : value) (sub : str) : M str :=
  match v with
  | VStr s => ret (path_join s sub)
  | _ => raise TypeError
  end.

(** ** External commands *)

(** What starting a command gives, knowing the commands started before:
    its exit status, or [None] when starting it raises (no such program). *)
Class Subprocess := run_outcome : list (list str) → list str → option Z.

(** [subprocess.run(cmd, check=False)]: a status other than zero is no error. *)
Definition subprocess_run {P : Subprocess} (cmd : list str) : M Z :=
  λ w, let w' := set_ran (ran w ++ [cmd]) w in
       match run_outcome (ran w) cmd with
       | Some status => (Ok status, w')
       | None => (Raise (OSError (default [] (head cmd))), w')
       end.

(** * The program *)

Section program.
Context {Y : Yaml} {P : Subprocess}.

Definition CONFIG_PATH : str := lit "/opt/lustylibrary-installer/config.yml".

(** The heap after the module is loaded: the four section dictionaries of
    [DEFAULT_CONFIG] and then the dictionary that holds them. *)
Definition module_heap : list dict :=
  [ {[ lit "ssid" := VStr (lit "LustyLibrary");
       lit "password" := VStr (lit "lustybooks123");
       lit "ip" := VStr (lit "10.10.10.10") ]};
    {[ lit "media_root" := VStr (lit "/mnt/media") ]};
    {[ lit "install_audiobookshelf" := VBool true;
       lit "install_calibre_web" := VBool true ]};
    {[ lit "enable_sync" := VBool false;
       lit "unraid_ip" := VStr (lit "192.168.0.139");
       lit "share_path_audio" := VStr (lit "/data/media/audiobook");
       lit "share_path_books" := VStr (lit "/data/media/calibre") ]};
    {[ lit "wifi" := VRef 0;
       lit "storage" := VRef 1;
       lit "apps" := VRef 2;
       lit "sync" := VRef 3 ]} ].

Definition DEFAULT_CONFIG : value := VRef 4.

(** [cfg[a][b]] *)
Definition getitem2 (cfg : value) (a b : str) : M value :=
  section <- getitem cfg a ;; getitem section b.

(** [cfg[a][b] = x] *)
Definition assign (cfg : value) (a b : str) (x : value) : M unit :=
  section <- getitem cfg a ;; setitem section b x.

Definition load_config : M value :=
  found <- path_exists CONFIG_PATH ;;
  if (found : bool) then
    text <- read_text CONFIG_PATH ;;
    match safe_load text with
    | Some t => construct t
    | None => raise YAMLError
    end
  else dict_copy DEFAULT_CONFIG.

(** Opening the file for writing empties it before anything is dumped. *)
Definition save_config (cfg : value) : M unit :=
  mkdir_p (path_parent CONFIG_PATH) ;;
  write_text CONFIG_PATH [] ;;
  t <- dump_tree cfg ;;
  write_text CONFIG_PATH (safe_dump t).

(** The entry of each service, for the text of [media_root]. *)
Definition audiobookshelf_entry (media_root : str) : list str :=
  [ lit "  audiobookshelf:";
    lit "    image: ghcr.io/advplyr/audiobookshelf:latest";
    lit "    container_name: audiobookshelf";
    lit "    ports:";
    lit "      - `13378:80`";
    lit "    environment:";
    lit "      - TZ=America/Chicago";
    lit "      - AUDIOBOOKSHELF_DISABLE_UPDATES=true";
    lit "    volumes:";
    lit "      - " ++ media_root ++ lit "/audiobooks:/audiobooks";
    lit "      - " ++ media_root ++ lit "/config/audiobookshelf:/config";
    lit "    restart: unless-stopped";
    [] ].

Definition calibre_web_entry (media_root : str) : list str :=
  [ lit "  calibre-web:";
    lit "    image: lscr.io/linuxserver/calibre-web:latest";
    lit "    container_name: calibre-web";
    lit "    ports:";
    lit "      - `8083:8083`";
    lit "    environment:";
    lit "      - PUID=1000";
    lit "      - PGID=1000";
    lit "      - TZ=America/Chicago";
    lit "    volumes:";
    lit "      - " ++ media_root ++ lit "/books:/books";
    lit "      - " ++ media_root ++ lit "/config/calibre:/config";
    lit "    restart: unless-stopped";
    [] ].

(** The lines of the manifest: [lines] as it stands when the file is
    written. *)
Definition compose_lines (media_root install_abs install_cweb : value)
    : M (list str) :=
  let lines := [ lit "version: `3.8`"; []; lit "services:" ] in
  abs <- truthy install_abs ;;
  lines <- (if (abs : bool)
            then m <- format_value media_root ;;
                 ret (lines ++ audiobookshelf_entry m)
            else ret lines) ;;
  cweb <- truthy install_cweb ;;
  if (cweb : bool)
  then m <- format_value media_root ;; ret (lines ++ calibre_web_entry m)
  else ret lines.

Definition generate_docker_compose (cfg : value) : M str :=
  media_root <- getitem2 cfg (lit "storage") (lit "media_root") ;;
  install_abs <- getitem2 cfg (lit "apps") (lit "install_audiobookshelf") ;;
  install_cweb <- getitem2 cfg (lit "apps") (lit "install_calibre_web") ;;
  lines <- compose_lines media_root install_abs install_cweb ;;
  let compose_path := lit "/home/pi/library-server" in
  mkdir_p compose_path ;;
  write_text (path_join compose_path (lit "docker-compose.yml")) (join LF lines) ;;
  for_each [lit "audiobooks"; lit "books"; lit "config"]
    (λ sub, p <- Path2 media_root sub ;; mkdir_p p) ;;
  ret (path_join compose_path (lit "docker-compose.yml")).

(** The loop over the lines of hostapd.conf. *)
Fixpoint hostapd_lines (ssid password : value) (lines : list str)
    : M (list str) :=
  match lines with
  | [] => ret []
  | line :: rest =>
      new <- (if startswith line (lit "ssid=")
              then s <- format_value ssid ;; ret (lit "ssid=" ++ s)
              else if startswith line (lit "wpa_passphrase=")
              then p <- format_value password ;; ret (lit "wpa_passphrase=" ++ p)
              else ret line) ;;
      rest' <- hostapd_lines ssid password rest ;;
      ret (new :: rest')
  end.

(** The loop over the lines of dhcpcd.conf: [new_lines], for the value of
    [skip] on entry. *)
Fixpoint without_wlan0 (skip : bool) (lines : list str) : list str :=
  match lines with
  | [] => []
  | line :: rest =>
      if startswith line (lit "interface wlan0") then without_wlan0 true rest
      else
        let skip := if skip && startswith line (lit "interface ")
                    then false else skip in
        if skip then without_wlan0 skip rest
        else line :: without_wlan0 skip rest
  end.

Definition wlan0_block (ip : str) : str :=
  LF ++ lit "interface wlan0" ++ LF
  ++ lit "  static ip_address=" ++ ip ++ lit "/24" ++ LF
  ++ lit "  nohook wpa_supplicant" ++ LF.

Definition apply_wifi_config (cfg : value) : M unit :=
  ssid <- getitem2 cfg (lit "wifi") (lit "ssid") ;;
  password <- getitem2 cfg (lit "wifi") (lit "password") ;;
  ip <- getitem2 cfg (lit "wifi") (lit "ip") ;;
  let hostapd_conf := lit "/etc/hostapd/hostapd.conf" in
  found <- path_exists hostapd_conf ;;
  (if (found : bool) then
     text <- read_text hostapd_conf ;;
     lines <- hostapd_lines ssid password (splitlines text) ;;
     write_text hostapd_conf (join LF lines) ;;
     try_pass (subprocess_run [lit "systemctl"; lit "restart"; lit "hostapd"])
   else ret tt) ;;
  let dhcpcd := lit "/etc/dhcpcd.conf" in
  ip_text <- format_value ip ;;
  let block := wlan0_block ip_text in
  found <- path_exists dhcpcd ;;
  if (found : bool) then
    text <- read_text dhcpcd ;;
    let new_lines := without_wlan0 false (splitlines text) in
    let new_text := join LF new_lines ++ block in
    write_text dhcpcd new_text ;;
    try_pass (subprocess_run [lit "systemctl"; lit "restart"; lit "dhcpcd"])
  else ret tt.

Definition sync_script (media_root unraid_ip share_audio share_books : str)
    : str :=
  concat ((λ line, line ++ LF) <$> [
    lit "#!/bin/bash";
    lit "set -euo pipefail";
    [];
    lit "UNRAID_IP=`" ++ unraid_ip ++ lit "`";
    lit "UNRAID_SHARE=`//" ++ unraid_ip ++ lit "/data`";
    lit "MOUNT_POINT=`/mnt/unraid_data`";
    [];
    lit "SRC_AUDIO=`${MOUNT_POINT}" ++ share_audio ++ lit "`";
    lit "SRC_BOOKS=`${MOUNT_POINT}" ++ share_books ++ lit "`";
    [];
    lit "DST_AUDIO=`" ++ media_root ++ lit "/audiobooks/`";
    lit "DST_BOOKS=`" ++ media_root ++ lit "/books/`";
    [];
    lit "CIFS_OPTS=`guest,vers=3.0,iocharset=utf8,noperm,uid=1000,gid=1000`";
    [];
    lit "LOG=`/var/log/sync_from_unraid.log`";
    lit "LOCK=`/run/sync_from_unraid.lock`";
    lit "FLAG=`/tmp/sync_in_progress`";
    [];
    lit "CARRIER_FILE=`/sys/class/net/eth0/carrier`";
    lit "if [[ ! -f `$CARRIER_FILE` ]] || [[ `$(cat `$CARRIER_FILE` 2>/dev/null)` != `1` ]]; then";
    lit "  exit 0";
    lit "fi";
    [];
    lit "exec 9>`$LOCK` || true";
    lit "flock -n 9 || exit 0";
    [];
    lit "{";
    lit "  touch `$FLAG`";
    lit "  echo";
    lit "  echo `==== $(date '+%F %T') " ++ [226; 8364; 8221]%N ++ lit " sync start ====`";
    [];
    lit "  for i in {1..5}; do";
    lit "    if ping -c1 -W1 `$UNRAID_IP` >/dev/null 2>&1; then";
    lit "      break";
    lit "    fi";
    lit "    sleep 3";
    lit "  done";
    [];
    lit "  if ! mountpoint -q `$MOUNT_POINT`; then";
    lit "    echo `Mounting $UNRAID_SHARE -> $MOUNT_POINT`";
    lit "    mkdir -p `$MOUNT_POINT`";
    lit "    mount -t cifs `$UNRAID_SHARE` `$MOUNT_POINT` -o `$CIFS_OPTS` || {";
    lit "      echo `ERROR: mount failed`";
    lit "      rm -f `$FLAG`";
    lit "      exit 0";
    lit "    }";
    lit "  fi";
    [];
    lit "  mkdir -p `$DST_AUDIO` `$DST_BOOKS`";
    [];
    lit "  echo `Syncing Audiobooks...`";
    lit "  rsync -av --ignore-existing `$SRC_AUDIO` `$DST_AUDIO` || true";
    [];
    lit "  echo `Syncing Calibre books...`";
    lit "  rsync -av --ignore-existing `$SRC_BOOKS` `$DST_BOOKS` || true";
    [];
    lit "  if mountpoint -q `$MOUNT_POINT`; then";
    lit "    echo `Unmounting $MOUNT_POINT`";
    lit "    umount `$MOUNT_POINT` || true";
    lit "  fi";
    [];
    lit "  rm -f `$FLAG`";
    lit "  echo `==== $(date '+%F %T') " ++ [226; 8364; 8221]%N ++ lit " sync done ====`";
    lit "} >>`$LOG` 2>&1" ]).

Definition apply_sync_config (cfg : value) : M unit :=
  enable_sync <- getitem2 cfg (lit "sync") (lit "enable_sync") ;;
  enabled <- truthy enable_sync ;;
  if negb enabled then ret tt
  else
    media_root <- getitem2 cfg (lit "storage") (lit "media_root") ;;
    unraid_ip <- getitem2 cfg (lit "sync") (lit "unraid_ip") ;;
    share_audio <- getitem2 cfg (lit "sync") (lit "share_path_audio") ;;
    share_books <- getitem2 cfg (lit "sync") (lit "share_path_books") ;;
    u <- format_value unraid_ip ;;
    a <- format_value share_audio ;;
    b <- format_value share_books ;;
    m <- format_value media_root ;;
    let script_path := lit "/usr/local/bin/sync_from_unraid.sh" in
    write_text script_path (sync_script m u a b) ;;
    chmod script_path 493.

(** ** The web form *)

(** [s] occurs in [t]. *)
Fixpoint contains (t s : str) : bool :=
  startswith t s || match t with [] => false | _ :: t' => contains t' s end.

(** A template without a Jinja delimiter and without a final line ending
    renders as itself; Jinja's treatment of any other is outside the model. *)
Definition render_template_string (template : str) (cfg : value) : M str :=
  if contains template (lit "{{") || contains template (lit "{%")
     || contains template (lit "{#")
     || match reverse template with c :: _ => is_linebreak c | [] => false end
  then raise OutOfModel
  else ret template.

(** Lines 242 to 340 bind [FORM_TEMPLATE] to the page of the form; line 342
    binds the name again, and this is the value the handler reads. *)
Definition FORM_TEMPLATE : str := lit "...".

Record request := Request {
  method : str;
  form : list (str * str)      (* the submitted fields, in order *)
}.

Inductive response :=
  | Redirect (location : str)
  | Html (body : str)
  | NotFound
  | MethodNotAllowed.

(** [request.form.get(key, "")] *)
Fixpoint form_get (f : list (str * str)) (key : str) : str :=
  match f with
  | [] => []
  | (k, x) :: f' => if bool_decide (k = key) then x else form_get f' key
  end.

(** [key in request.form] *)
Definition form_has (f : list (str * str)) (key : str) : bool :=
  bool_decide (key ∈ f.*1).

(** The routes: endpoint and rule. *)
Definition url_map : list (str * str) :=
  [ (lit "index", lit "/"); (lit "setup", lit "/setup") ].

Definition url_for (endpoint : str) : M str :=
  match list_find (λ r, r.1 = endpoint) url_map with
  | Some (_, r) => ret r.2
  | None => raise BuildError
  end.

(** Line 346, [return redirect(url_for("setup")], lacks its closing
    parenthesis: this is no Python, and the interpreter refuses the text
    with a [SyntaxError].  The route has no function that could answer; the
    other functions are read as they are written. *)
Definition index : M response := raise SyntaxError.

(** [request.form.get(key, "").strip() or stored] *)
Definition submitted_or (r : request) (key : str) (stored : M value)
    : M value :=
  match strip (form_get (form r) key) with
  | [] => stored
  | s => ret (VStr s)
  end.

(** Lines 353 to 369: the submitted fields are laid over the document. *)
Definition setup_merge (r : request) (cfg : value) : M unit :=
  x <- submitted_or r (lit "wifi_ssid") (getitem2 cfg (lit "wifi") (lit "ssid")) ;;
  assign cfg (lit "wifi") (lit "ssid") x ;;
  x <- submitted_or r (lit "wifi_password") (getitem2 cfg (lit "wifi") (lit "password")) ;;
  assign cfg (lit "wifi") (lit "password") x ;;
  x <- submitted_or r (lit "wifi_ip") (getitem2 cfg (lit "wifi") (lit "ip")) ;;
  assign cfg (lit "wifi") (lit "ip") x ;;
  x <- submitted_or r (lit "media_root") (getitem2 cfg (lit "storage") (lit "media_root")) ;;
  assign cfg (lit "storage") (lit "media_root") x ;;
  assign cfg (lit "apps") (lit "install_audiobookshelf")
    (VBool (form_has (form r) (lit "install_audiobookshelf"))) ;;
  assign cfg (lit "apps") (lit "install_calibre_web")
    (VBool (form_has (form r) (lit "install_calibre_web"))) ;;
  assign cfg (lit "sync") (lit "enable_sync")
    (VBool (form_has (form r) (lit "enable_sync"))) ;;
  x <- submitted_or r (lit "unraid_ip") (getitem2 cfg (lit "sync") (lit "unraid_ip")) ;;
  assign cfg (lit "sync") (lit "unraid_ip") x ;;
  x <- submitted_or r (lit "share_path_audio") (getitem2 cfg (lit "sync") (lit "share_path_audio")) ;;
  assign cfg (lit "sync") (lit "share_path_audio") x ;;
  x <- submitted_or r (lit "share_path_books") (getitem2 cfg (lit "sync") (lit "share_path_books")) ;;
  assign cfg (lit "sync") (lit "share_path_books") x.

Definition setup (r : request) : M response :=
  cfg <- load_config ;;
  if bool_decide (method r = lit "POST") then
    setup_merge r cfg ;;
    save_config cfg ;;
    apply_wifi_config cfg ;;
    compose_path <- generate_docker_compose cfg ;;
    apply_sync_config cfg ;;
    try_pass (subprocess_run [lit "docker"; lit "compose"; lit "-f"; compose_path;
                              lit "up"; lit "-d"; lit "--build"]) ;;
    location <- url_for (lit "setup") ;;
    ret (Redirect location)
  else
    body <- render_template_string FORM_TEMPLATE cfg ;;
    ret (Html body).

(** The application: a path and a request to the response of its route.
    (HEAD and OPTIONS, which Flask answers on its own, are not modelled.) *)
Definition app (path : str) (r : request) : M response :=
  if bool_decide (path = lit "/") then
    if bool_decide (method r = lit "GET") then index else ret MethodNotAllowed
  else if bool_decide (path = lit "/setup") then
    if bool_decide (method r = lit "GET") || bool_decide (method r = lit "POST")
    then setup r else ret MethodNotAllowed
  else ret NotFound.

End program.

(** * Concrete libraries, to run the program *)

(** Commands that all exit with one status, and commands that cannot be
    started at all. *)
Definition exits_with (status : Z) : Subprocess := λ _ _, Some status.
Definition cannot_start : Subprocess := λ _ _, None.

(** ** A YAML codec for block mappings

    The settings file is a block mapping of block mappings of plain scalars.
    [block_yaml] reads and writes this part of YAML: mappings nested at most
    twice, indented by two spaces, and scalars that are plain or double
    quoted.  Anything else it does not read. *)
Module BlockYaml.

Definition all_of (p : N → bool) (s : str) : bool := forallb p s.
Definition is_digit (c : N) : bool := ((48 <=? c) && (c <=? 57))%N.

(** The value between the double quotes of a quoted scalar. *)
Fixpoint unescape (s : str) : option str :=
  match s with
  | [] => Some []
  | c :: s' =>
      if (c =? 92)%N then
        match s' with
        | d :: s'' =>
            r ← unescape s'';
            (if (d =? 110)%N then Some (10%N :: r)
             else if (d =? 114)%N then Some (13%N :: r)
             else if (d =? 116)%N then Some (9%N :: r)
             else if (d =? 92)%N || (d =? 34)%N then Some (d :: r)
             else None)
        | [] => None
        end
      else if (c =? 34)%N then None
      else r ← unescape s'; Some (c :: r)
  end.

Fixpoint escape (s : str) : str :=
  match s with
  | [] => []
  | c :: s' =>
      (if (c =? 10)%N then lit "\n"
       else if (c =? 13)%N then lit "\r"
       else if (c =? 9)%N then lit "\t"
       else if (c =? 92)%N || (c =? 34)%N then [92%N; c]
       else [c]) ++ escape s'
  end.

Definition digits_value (s : str) : Z :=
  fold_left (λ acc c, acc * 10 + Z.of_N (c - 48))%Z s 0%Z.

Definition plain_int (s : str) : option Z :=
  let '(neg, ds) := match s with
                    | 45%N :: ds => (true, ds)
                    | _ => (false, s)
                    end in
  match ds with
  | [] => None
  | [48%N] => Some 0%Z
  | 48%N :: _ => None
  | _ => if all_of is_digit ds
         then Some (if neg then - digits_value ds else digits_value ds)%Z
         else None
  end.

(** A scalar that would resolve to a number this codec does not cover. *)
Definition number_like (s : str) : bool :=
  match s with
  | c :: _ =>
      (is_digit c || (c =? 45)%N || (c =? 43)%N || (c =? 46)%N)
      && all_of (λ c, is_digit c || bool_decide (c ∈ [43; 45; 46; 95; 101; 69]%N)) s
      && (length (filter (λ c, c = 46%N) s) <=? 1)%nat
  | [] => false
  end.

Definition parse_scalar (text : str) : option tree :=
  let s := strip text in
  if bool_decide (s ∈ [[]; lit "null"; lit "Null"; lit "NULL"; lit "~"])
  then Some TNone
  else if bool_decide (s ∈ [lit "true"; lit "True"; lit "TRUE"; lit "yes";
                             lit "Yes"; lit "YES"; lit "on"; lit "On"; lit "ON"])
  then Some (TBool true)
  else if bool_decide (s ∈ [lit "false"; lit "False"; lit "FALSE"; lit "no";
                             lit "No"; lit "NO"; lit "off"; lit "Off"; lit "OFF"])
  then Some (TBool false)
  else match s with
       | 34%N :: s' =>
           match reverse s' with
           | 34%N :: r => TStr <$> unescape (reverse r)
           | _ => None
           end
       | c :: _ =>
           match plain_int s with
           | Some z => Some (TInt z)
           | None =>
               if number_like s
                  || bool_decide (c ∈ [33; 35; 37; 38; 39; 42; 62; 64; 91; 93; 96;
                                       123; 124; 125]%N)
                  || contains s (lit ": ") || contains s (lit " #")
                  || negb (all_of (λ c, negb (is_linebreak c)) s)
               then None
               else Some (TStr s)
           end
       | [] => Some TNone
       end.

(** A line [key: rest], split at the first colon that a space or the end of
    the line follows. *)
Fixpoint split_key (s : str) : option (str * str) :=
  match s with
  | [] => None
  | c :: s' =>
      if (c =? 58)%N && match s' with [] => true | d :: _ => (d =? 32)%N end
      then Some ([], s')
      else '(k, r) ← split_key s'; Some (c :: k, r)
  end.

Fixpoint indent_of (s : str) : nat * str :=
  match s with
  | 32%N :: s' => let '(n, r) := indent_of s' in (S n, r)
  | _ => (O, s)
  end.

(** The state of the reader: the mapping read so far and the key whose
    nested mapping is being read. *)
Definition reader : Type := gmap str tree * option (str * gmap str tree).

Definition flush (st : reader) : gmap str tree :=
  match st.2 with
  | Some (k, m) =>
      <[k := if bool_decide (m = ∅) then TNone else TMap m]> st.1
  | None => st.1
  end.

Definition read_line (st : option reader) (line : str) : option reader :=
  st ← st;
  let '(n, body) := indent_of line in
  if bool_decide (strip body = []) || startswith body (lit "#") then Some st
  else
    '(k, rest) ← split_key body;
    match n with
    | 0 =>
        if bool_decide (strip rest = []) then Some (flush st, Some (k, ∅))
        else v ← parse_scalar rest; Some (<[k := v]> (flush st), None)
    | 2 =>
        '(top, m) ← st.2;
        v ← parse_scalar rest;
        Some (st.1, Some (top, <[k := v]> m))
    | _ => None
    end.

Definition load (text : str) : option tree :=
  let lines := filter (λ l, strip l ≠ [] ∧ startswith (strip l) (lit "#") = false)
                      (splitlines text) in
  match lines with
  | [] => Some TNone
  | [l] => match split_key l with
           | Some _ => (TMap ∘ flush) <$> read_line (Some (∅, None)) l
           | None => parse_scalar l
           end
  | _ => (TMap ∘ flush) <$> fold_left read_line lines (Some (∅, None))
  end.

Definition dump_scalar (t : tree) : str :=
  match t with
  | TNone => lit "null"
  | TBool true => lit "true"
  | TBool false => lit "false"
  | TInt z => lit (pretty z)
  | TStr s =>
      match parse_scalar s with
      | Some (TStr s') =>
          if bool_decide (s' = s) then s else lit "`" ++ escape s ++ lit "`"
      | _ => lit "`" ++ escape s ++ lit "`"
      end
  | TSeq _ => lit "[...]"
  | TMap _ => lit "{...}"
  end.

Definition dump_entries (indent : str) (m : gmap str tree) : list str :=
  (λ kv, indent ++ kv.1 ++ lit ": " ++ dump_scalar kv.2) <$> map_to_list m.

Definition dump (t : tree) : str :=
  match t with
  | TMap m =>
      concat ((λ line, line ++ LF) <$>
        mjoin ((λ kv : str * tree,
                 match kv.2 with
                 | TMap m' =>
                     if bool_decide (m' = ∅)
                     then [kv.1 ++ lit ": {...}"]
                     else (kv.1 ++ lit ":") :: dump_entries (lit "  ") m'
                 | v => [kv.1 ++ lit ": " ++ dump_scalar v]
                 end) <$> map_to_list m))
  | _ => dump_scalar t ++ LF
  end.

End BlockYaml.

Definition block_yaml : Yaml :=
  {| safe_load := BlockYaml.load; safe_dump := BlockYaml.dump |}.

(** * Specification vocabulary *)

(** ** Weakest preconditions

    [wp m Q w]: run in [w], the computation [m] returns, with a result and a
    world that satisfy [Q]. *)
Definition wp {A} (m : M A) (Q : A → world → Prop) (w : world) : Prop :=
  match m w with
  | (Ok a, w') => Q a w'
  | (Raise _, _) => False
  end.

(** [m] leaves the dictionaries as they are, whether it returns or raises. *)
Definition keeps_heap {A} (m : M A) : Prop := ∀ w, heap (m w).2 = heap w.

(** [m] leaves the files as they are. *)
Definition keeps_files {A} (m : M A) : Prop := ∀ w, files (m w).2 = files w.

(** ** The Settings Document *)

Record settings := Settings {
  wifi_ssid : str;
  wifi_password : str;
  wifi_ip : str;
  media_root : str;
  install_audiobookshelf : bool;
  install_calibre_web : bool;
  enable_sync : bool;
  unraid_ip : str;
  share_path_audio : str;
  share_path_books : str
}.

Definition wifi_dict (s : settings) : dict :=
  {[ lit "ssid" := VStr (wifi_ssid s);
     lit "password" := VStr (wifi_password s);
     lit "ip" := VStr (wifi_ip s) ]}.
Definition storage_dict (s : settings) : dict :=
  {[ lit "media_root" := VStr (media_root s) ]}.
Definition apps_dict (s : settings) : dict :=
  {[ lit "install_audiobookshelf" := VBool (install_audiobookshelf s);
     lit "install_calibre_web" := VBool (install_calibre_web s) ]}.
Definition sync_dict (s : settings) : dict :=
  {[ lit "enable_sync" := VBool (enable_sync s);
     lit "unraid_ip" := VStr (unraid_ip s);
     lit "share_path_audio" := VStr (share_path_audio s);
     lit "share_path_books" := VStr (share_path_books s) ]}.

(** The four sections of a document, by address. *)
Record sections := Sections { at_wifi : nat; at_storage : nat; at_apps : nat; at_sync : nat }.

Definition top_dict (a : sections) : dict :=
  {[ lit "wifi" := VRef (at_wifi a);
     lit "storage" := VRef (at_storage a);
     lit "apps" := VRef (at_apps a);
     lit "sync" := VRef (at_sync a) ]}.

(** [cfg] is a dictionary whose sections are the dictionaries at [a]. *)
Definition doc_sections (h : list dict) (cfg : value) (a : sections) : Prop :=
  ∃ l, cfg = VRef l ∧ h !! l = Some (top_dict a).

(** The dictionaries at [a] hold the settings [s]. *)
Definition sections_hold (h : list dict) (a : sections) (s : settings) : Prop :=
  h !! at_wifi a = Some (wifi_dict s) ∧ h !! at_storage a = Some (storage_dict s)
  ∧ h !! at_apps a = Some (apps_dict s) ∧ h !! at_sync a = Some (sync_dict s).

(** In the heap [h], the value [cfg] is a Settings Document with the fields
    of [s]. *)
Definition settings_at (h : list dict) (cfg : value) (s : settings) : Prop :=
  ∃ a, doc_sections h cfg a ∧ sections_hold h a s.

(** The document as YAML sees it. *)
Definition wifi_map (s : settings) : gmap str tree :=
  {[ lit "ssid" := TStr (wifi_ssid s);
     lit "password" := TStr (wifi_password s);
     lit "ip" := TStr (wifi_ip s) ]}.
Definition storage_map (s : settings) : gmap str tree :=
  {[ lit "media_root" := TStr (media_root s) ]}.
Definition apps_map (s : settings) : gmap str tree :=
  {[ lit "install_audiobookshelf" := TBool (install_audiobookshelf s);
     lit "install_calibre_web" := TBool (install_calibre_web s) ]}.
Definition sync_map (s : settings) : gmap str tree :=
  {[ lit "enable_sync" := TBool (enable_sync s);
     lit "unraid_ip" := TStr (unraid_ip s);
     lit "share_path_audio" := TStr (share_path_audio s);
     lit "share_path_books" := TStr (share_path_books s) ]}.

Definition settings_map (s : settings) : gmap str tree :=
  {[ lit "wifi" := TMap (wifi_map s);
     lit "storage" := TMap (storage_map s);
     lit "apps" := TMap (apps_map s);
     lit "sync" := TMap (sync_map s) ]}.

Definition settings_tree (s : settings) : tree := TMap (settings_map s).

(** The defaults as the source spells them. *)
Definition default_settings : settings :=
  {| wifi_ssid := lit "LustyLibrary";
     wifi_password := lit "lustybooks123";
     wifi_ip := lit "10.10.10.10";
     media_root := lit "/mnt/media";
     install_audiobookshelf := true;
     install_calibre_web := true;
     enable_sync := false;
     unraid_ip := lit "192.168.0.139";
     share_path_audio := lit "/data/media/audiobook";
     share_path_books := lit "/data/media/calibre" |}.

(** ** The merge, in the words of the specification *)

(** A text field: the submitted value replaces the stored one only if it is
    not empty after trimming. *)
Definition overlay_text (f : list (str * str)) (key stored : str) : str :=
  if bool_decide (strip (form_get f key) = []) then stored
  else strip (form_get f key).

(** A checkbox: true exactly when its key was submitted. *)
Definition overlay_checkbox (f : list (str * str)) (key : str) : bool :=
  bool_decide (key ∈ f.*1).

Definition merged (s : settings) (f : list (str * str)) : settings :=
  {| wifi_ssid := overlay_text f (lit "wifi_ssid") (wifi_ssid s);
     wifi_password := overlay_text f (lit "wifi_password") (wifi_password s);
     wifi_ip := overlay_text f (lit "wifi_ip") (wifi_ip s);
     media_root := overlay_text f (lit "media_root") (media_root s);
     install_audiobookshelf := overlay_checkbox f (lit "install_audiobookshelf");
     install_calibre_web := overlay_checkbox f (lit "install_calibre_web");
     enable_sync := overlay_checkbox f (lit "enable_sync");
     unraid_ip := overlay_text f (lit "unraid_ip") (unraid_ip s);
     share_path_audio := overlay_text f (lit "share_path_audio") (share_path_audio s);
     share_path_books := overlay_text f (lit "share_path_books") (share_path_books s) |}.

(** The heap once the sections at [a] hold [s]. *)
Definition with_sections (a : sections) (s : settings) (h : list dict) : list dict :=
  <[at_sync a := sync_dict s]>
    (<[at_apps a := apps_dict s]>
      (<[at_storage a := storage_dict s]>
        (<[at_wifi a := wifi_dict s]> h))).

(** ** Sections of a loaded document *)

(** [k in v], for a dictionary. *)
Definition has_key (h : list dict) (v : value) (k : str) : bool :=
  match v with
  | VRef l => match h !! l with
              | Some d => bool_decide (is_Some (d !! k))
              | None => false
              end
  | _ => false
  end.

Definition section_names : list str :=
  [lit "wifi"; lit "storage"; lit "apps"; lit "sync"].

(** All four sections are there. *)
Definition populated (h : list dict) (v : value) : bool :=
  forallb (has_key h v) section_names.

Definition tree_has_key (t : tree) (k : str) : bool :=
  match t with
  | TMap m => bool_decide (is_Some (m !! k))
  | _ => false
  end.

(** How deep the mappings of a tree are nested: a scalar or a list counts
    one. *)
Fixpoint tree_depth (t : tree) : nat :=
  match t with
  | TMap m => S (map_fold (λ _ t' n, tree_depth t' `max` n) 0 m)
  | _ => 1
  end.

(** The lines a text has when it is made of [ls] joined by line feeds: a
    last line that is empty is none. *)
Fixpoint drop_final_empty (ls : list str) : list str :=
  match ls with
  | [] => []
  | [l] => if bool_decide (l = []) then [] else [l]
  | l :: ls' => l :: drop_final_empty ls'
  end.

(** ** Interface blocks of dhcpcd.conf *)

Definition single_line (s : str) : Prop :=
  forallb (λ c, negb (is_linebreak c)) s = true.

(** The lines of a block after its declaration: up to the next interface
    declaration or the end of the file. *)
Fixpoint block_body (lines : list str) : list str :=
  match lines with
  | [] => []
  | l :: rest =>
      if startswith l (lit "interface ") then [] else l :: block_body rest
  end.

(** The blocks that declare wlan0, in order. *)
Fixpoint wlan0_blocks (lines : list str) : list (list str) :=
  match lines with
  | [] => []
  | l :: rest =>
      if startswith l (lit "interface wlan0")
      then (l :: block_body rest) :: wlan0_blocks rest
      else wlan0_blocks rest
  end.

(** ** Service entries of the manifest *)

(** The name a line declares when it is a key of the service list: two
    spaces, the name, a colon. *)
Definition service_header (line : str) : option str :=
  match line with
  | 32%N :: 32%N :: c :: rest =>
      if (c =? 32)%N then None
      else match reverse (c :: rest) with
           | 58%N :: name => Some (reverse name)
           | _ => None
           end
  | _ => None
  end.

Definition manifest_services (lines : list str) : list str :=
  omap service_header lines.

Definition compose_file : str := lit "/home/pi/library-server/docker-compose.yml".
Definition dhcpcd_conf : str := lit "/etc/dhcpcd.conf".
Definition hostapd_conf : str := lit "/etc/hostapd/hostapd.conf".
Definition sync_script_path : str := lit "/usr/local/bin/sync_from_unraid.sh".

(** The text [apply_wifi_config] writes to dhcpcd.conf when it read [text]. *)
Definition dhcpcd_rewrite (text ip : str) : str :=
  join LF (without_wlan0 false (splitlines text)) ++ wlan0_block ip.

(** The block that declares the static address [ip]. *)
Definition static_block (ip : str) : list str :=
  [ lit "interface wlan0";
    lit "  static ip_address=" ++ ip ++ lit "/24";
    lit "  nohook wpa_supplicant" ].

(** The dictionary of a section, by name. *)
Definition section_dict (s : settings) (name : str) : option dict :=
  ({[ lit "wifi" := wifi_dict s; lit "storage" := storage_dict s;
      lit "apps" := apps_dict s; lit "sync" := sync_dict s ]} : gmap str dict) !! name.

(** The path can be written: it is not denied and is no directory. *)
Definition writable (w : world) (p : str) : Prop := p ∉ denied w ∪ dirs w.

(** The file has its place: it is there already, or its directory is. *)
Definition in_place (w : world) (p : str) : Prop :=
  p ∈ dom (files w) ∨ path_parent p ∈ dirs w.

(** * Sample worlds *)

(** The world right after the module is loaded, on a machine without any of
    the files. *)
Definition fresh_world : world := World module_heap ∅ ∅ ∅ ∅ [].

(** A second document, with another address for the hotspot. *)
Definition other_settings : settings :=
  {| wifi_ssid := lit "Library";
     wifi_password := lit "books4all";
     wifi_ip := lit "192.168.4.1";
     media_root := lit "/srv/media";
     install_audiobookshelf := true;
     install_calibre_web := false;
     enable_sync := false;
     unraid_ip := lit "192.168.0.2";
     share_path_audio := lit "/audio";
     share_path_books := lit "/books" |}.

Definition two_documents : list dict :=
  module_heap ++ [ wifi_dict other_settings; storage_dict other_settings;
                   apps_dict other_settings; sync_dict other_settings;
                   top_dict (Sections 5 6 7 8) ].

(** A dhcpcd.conf whose block for wlan0 runs to the end of the file. *)
Definition sample_dhcpcd : str :=
  lit "hostname" ++ LF ++ lit "interface eth0" ++ LF ++ lit "  metric 100" ++ LF
  ++ lit "interface wlan0" ++ LF ++ lit "  static ip_address=10.0.0.1/24".

Definition router_world : world :=
  World two_documents {[ dhcpcd_conf := sample_dhcpcd ]} ∅ ∅ ∅ [].

(** A submission: a new network name with blanks around it, a password of
    blanks only, and one checkbox ticked. *)
Definition sample_form : list (str * str) :=
  [ (lit "wifi_ssid", lit "  Reading Room ");
    (lit "wifi_password", lit "   ");
    (lit "install_audiobookshelf", lit "on") ].

Definition sample_post : request := Request (lit "POST") sample_form.
Definition sample_get : request := Request (lit "GET") [].

(** The fresh machine with a configuration directory that cannot be made. *)
Definition locked_world : world :=
  World module_heap ∅ ∅ ∅ {[ lit "/opt/lustylibrary-installer" ]} [].

(** The directory can be made: the path is not denied and no regular file
    is at it or above it. *)
Definition creatable (w : world) (p : str) : Prop :=
  bool_decide (p ∈ denied w)
  || existsb (λ q, bool_decide (q ∈ dom (files w))) (p :: ancestors p) = false.

Definition compose_dir : str := lit "/home/pi/library-server".

(** The lines every manifest starts with. *)
Definition manifest_head : list str := [ lit "version: `3.8`"; []; lit "services:" ].

(** The services the two flags ask for, in the order of the manifest. *)
Definition enabled_services (s : settings) : list str :=
  (if install_audiobookshelf s then [lit "audiobookshelf"] else [])
  ++ (if install_calibre_web s then [lit "calibre-web"] else []).

(** ** Trees and the values built for them *)

(** A tree that is no mapping: a scalar or a list. *)
Definition flat (t : tree) : Prop :=
  match t with TMap _ => False | _ => True end.

(** The value [yaml.safe_load] returns for a flat tree. *)
Definition value_of (t : tree) : value :=
  match t with
  | TNone => VNone
  | TBool b => VBool b
  | TInt z => VInt z
  | TStr s => VStr s
  | TSeq ts => VSeq ts
  | TMap _ => VNone
  end.

(** A mapping of flat trees: a section of the settings file. *)
Definition flat_map (t : tree) : Prop :=
  match t with TMap m => map_Forall (λ _, flat) m | _ => False end.

(** A settings file that has one section only. *)
Definition partial_file : str :=
  lit "wifi:" ++ LF ++ lit "  ssid: Home" ++ LF.

Definition partial_world : world :=
  World module_heap {[ CONFIG_PATH := partial_file ]} ∅ ∅ ∅ [].

(** * Further vocabulary *)

(** What the loop over hostapd.conf puts for a line. *)
Definition hostapd_replace (ssid password line : str) : str :=
  if startswith line (lit "ssid=") then lit "ssid=" ++ ssid
  else if startswith line (lit "wpa_passphrase=") then lit "wpa_passphrase=" ++ password
  else line.

(** A line that declares wlan0, or an interface whose name starts so. *)
Definition declares_wlan0 (line : str) : bool :=
  startswith line (lit "interface wlan0").

(** A line that declares an interface. *)
Definition declares_interface (line : str) : bool :=
  startswith line (lit "interface ").

(** A dhcpcd.conf with a block for wlan0 between two other blocks. *)
Definition three_blocks : list str :=
  [ lit "hostname pi"; lit "interface eth0"; lit "  metric 100";
    lit "interface wlan0"; lit "  static ip_address=10.0.0.1/24"; lit "  nohook wpa_supplicant";
    lit "interface usb0"; lit "  metric 300" ].

(** The command that restarts a service. *)
Definition restart (service : str) : list str :=
  [lit "systemctl"; lit "restart"; service].

(** The text [apply_wifi_config] writes to hostapd.conf when it read [text]. *)
Definition hostapd_rewrite (ssid password text : str) : str :=
  join LF (hostapd_replace ssid password <$> splitlines text).

(** One part of [apply_wifi_config]: when the file at [p] is there it gets
    the text [f] makes of it and the restart of [service] is requested. *)
Definition rewritten (p : str) (f : str → str) (service : str) (w : world)
    : world :=
  match files w !! p with
  | Some text =>
      set_ran (ran w ++ [restart service])
              (set_files (<[p := f (universal_newlines text)]> (files w)) w)
  | None => w
  end.

(** The world after [apply_wifi_config] for the settings [s]. *)
Definition wifi_applied (s : settings) (w : world) : world :=
  rewritten dhcpcd_conf (λ text, dhcpcd_rewrite text (wifi_ip s)) (lit "dhcpcd")
    (rewritten hostapd_conf (hostapd_rewrite (wifi_ssid s) (wifi_password s))
               (lit "hostapd") w).

(** A hostapd.conf, and a machine that has it. *)
Definition sample_hostapd : str :=
  lit "interface=wlan0" ++ LF ++ lit "ssid=Old" ++ LF ++ lit "ssid2=kept" ++ LF
  ++ lit "wpa_passphrase=secret" ++ LF ++ lit "channel=6" ++ LF.

Definition hostapd_world : world :=
  World two_documents {[ hostapd_conf := sample_hostapd ]} ∅ ∅ ∅ [].

(** The directories of the media, for the text of [media_root]. *)
Definition media_dirs (media_root : str) : list str :=
  path_join media_root <$> [lit "audiobooks"; lit "books"; lit "config"].

(** A path as the file system names it: absolute, spelled as [pathlib]
    spells it, and without a double dot, which only the operating system
    can resolve, against the directories and links that are on disk. *)
Definition normalised (p : str) : Prop :=
  startswith p (lit "/") = true ∧ path_str p = p ∧ lit ".." ∉ path_parts p.


(** [m] changes nothing but the dictionaries, whether it returns or raises:
    no file, no directory, no file mode, and it starts no command. *)
Definition only_heap {A} (m : M A) : Prop :=
  ∀ w, (m w).2 = set_heap (heap (m w).2) w.

(** A document that asks for the sync, and a machine that holds it. *)
Definition syncing_settings : settings :=
  {| wifi_ssid := lit "Library";
     wifi_password := lit "books4all";
     wifi_ip := lit "192.168.4.1";
     media_root := lit "/srv/media";
     install_audiobookshelf := true;
     install_calibre_web := true;
     enable_sync := true;
     unraid_ip := lit "192.168.0.2";
     share_path_audio := lit "/audio";
     share_path_books := lit "/books" |}.

Definition syncing_world : world :=
  World [ wifi_dict syncing_settings; storage_dict syncing_settings;
          apps_dict syncing_settings; sync_dict syncing_settings;
          top_dict (Sections 0 1 2 3) ]
        ∅ (list_to_set [lit "/usr"; lit "/usr/local"; lit "/usr/local/bin"])
        ∅ ∅ [].

(** A machine whose configuration file is not YAML. *)
Definition broken_file : str := lit "wifi: [unclosed" ++ LF.

Definition broken_world : world :=
  World module_heap {[ CONFIG_PATH := broken_file ]} ∅ ∅ ∅ [].

(** The world after [load_config] read [partial_file]: a dictionary for the
    one section and the dictionary of the document. *)
Definition partial_loaded : world :=
  set_heap (module_heap ++ [ {[ lit "ssid" := VStr (lit "Home") ]};
                             {[ lit "wifi" := VRef 5 ]} ]) partial_world.

(** The text fields of a document, in the order of the form. *)
Definition text_fields (s : settings) : list str :=
  [ wifi_ssid s; wifi_password s; wifi_ip s; media_root s;
    unraid_ip s; share_path_audio s; share_path_books s ].

(** No white space at the start. *)
Definition starts_bare (s : str) : Prop :=
  match s with c :: _ => is_space c = false | [] => True end.

(** A value that refers to no dictionary below the address [n]. *)
Definition refs_from (n : nat) (v : value) : Prop :=
  match v with VRef l => n ≤ l | _ => True end.

(** Dictionaries whose entries refer to no dictionary below [n]. *)
Definition dicts_from (n : nat) (ds : list dict) : Prop :=
  Forall (map_Forall (λ _, refs_from n)) ds.

(** A machine whose configuration file holds the document [other_settings]. *)
Definition configured_world : world :=
  World module_heap
        {[ CONFIG_PATH := safe_dump (Yaml:=block_yaml) (settings_tree other_settings) ]}
        ∅ ∅ ∅ [].

(** The tree of [partial_file]. *)
Definition partial_tree : tree :=
  TMap {[ lit "wifi" := TMap {[ lit "ssid" := TStr (lit "Home") ]} ]}.

(** [m] leaves the file at [p] as it is, whether it returns or raises. *)
Definition keeps_file (p : str) {A} (m : M A) : Prop :=
  ∀ w, files (m w).2 !! p = files w !! p.

(** A [media_root] that holds line feeds, so made that a line of the
    manifest reads as the key of a service. *)
Definition root_with_line_feeds : str :=
  lit "/m" ++ LF ++ lit "  evil:" ++ LF ++ lit "  #".

(** * Proofs *)

(** ** Computations *)

Lemma wp_ret {A} (a : A) Q w : Q a w → wp (ret a) Q w.
Proof. done. Qed.

Lemma wp_bind {A B} (m : M A) (k : A → M B) Q w :
  wp m (λ a w', wp (k a) Q w') w → wp (bind m k) Q w.
Proof. unfold wp, bind. by destruct (m w) as [[a|e] w']. Qed.

Lemma wp_mono {A} (m : M A) (Q Q' : A → world → Prop) w :
  wp m Q w → (∀ a w', Q a w' → Q' a w') → wp m Q' w.
Proof. unfold wp. destruct (m w) as [[a|e] w']; auto. Qed.

Lemma wp_run {A} (m : M A) Q w :
  wp m Q w → ∃ a w', m w = (Ok a, w') ∧ Q a w'.
Proof. unfold wp. destruct (m w) as [[a|e] w']; [eauto | done]. Qed.

Lemma wp_of_run {A} (m : M A) (Q : A → world → Prop) w a w' :
  m w = (Ok a, w') → Q a w' → wp m Q w.
Proof. unfold wp. by intros ->. Qed.

Lemma bind_run {A B} (m : M A) (k : A → M B) w a w' :
  m w = (Ok a, w') → bind m k w = k a w'.
Proof. unfold bind. by intros ->. Qed.

Lemma keeps_heap_ret {A} (a : A) : keeps_heap (ret a).
Proof. done. Qed.

Lemma keeps_heap_raise {A} e : keeps_heap (@raise A e).
Proof. done. Qed.

Lemma keeps_heap_bind {A B} (m : M A) (k : A → M B) :
  keeps_heap m → (∀ a, keeps_heap (k a)) → keeps_heap (bind m k).
Proof.
  intros Hm Hk w. unfold bind. specialize (Hm w).
  destruct (m w) as [[a|e] w']; simpl in *; [|done].
  by rewrite Hk.
Qed.

Lemma keeps_heap_try_pass {A} (m : M A) : keeps_heap m → keeps_heap (try_pass m).
Proof. intros Hm w. apply Hm. Qed.

Lemma keeps_heap_for_each {A} (xs : list A) body :
  (∀ x, keeps_heap (body x)) → keeps_heap (for_each xs body).
Proof.
  intros Hb. induction xs as [|x xs IH]; simpl.
  - apply keeps_heap_ret.
  - apply keeps_heap_bind; auto.
Qed.

(** ** Strings *)

Lemma single_line_Forall s :
  single_line s ↔ Forall (λ c, is_linebreak c = false) s.
Proof.
  unfold single_line. rewrite forallb_forall, Forall_forall.
  split; intros Hs c Hc.
  - apply list_elem_of_In, Hs in Hc. by destruct (is_linebreak c).
  - apply list_elem_of_In, Hs in Hc. by rewrite Hc.
Qed.

Lemma single_line_cons c s :
  single_line (c :: s) ↔ is_linebreak c = false ∧ single_line s.
Proof. rewrite !single_line_Forall, Forall_cons. done. Qed.

Lemma single_line_app s t :
  single_line (s ++ t) ↔ single_line s ∧ single_line t.
Proof. rewrite !single_line_Forall, Forall_app. done. Qed.

(** A line and its line feed in front of a text. *)
Lemma splitlines_line l rest :
  single_line l → splitlines (l ++ 10%N :: rest) = l :: splitlines rest.
Proof.
  induction l as [|c l IH]; intros Hl.
  - simpl. by destruct rest.
  - apply single_line_cons in Hl as [Hc Hl].
    simpl. rewrite Hc, IH by done. done.
Qed.

Lemma splitlines_last l : single_line l → l ≠ [] → splitlines l = [l].
Proof.
  induction l as [|c l IH]; intros Hl Hne; [done|].
  apply single_line_cons in Hl as [Hc Hl].
  simpl. rewrite Hc. destruct l as [|d l]; [done|].
  rewrite IH by done. done.
Qed.

(** Every line [splitlines] gives is free of line breaks. *)
Lemma splitlines_single_line s : Forall single_line (splitlines s).
Proof.
  assert (∀ n s, length s ≤ n → Forall single_line (splitlines s)) as Hn.
  { clear s. induction n as [|n IH]; intros [|c s] Hlen; simpl in *; try done; try lia.
    destruct (is_linebreak c) eqn:Hc.
    - destruct s as [|c2 s]; [by repeat constructor|].
      simpl in Hlen.
      destruct ((c =? 13)%N && (c2 =? 10)%N); constructor; try done; apply IH;
        simpl; lia.
    - assert (Forall single_line (splitlines s)) as Hs by (apply IH; lia).
      destruct (splitlines s) as [|l ls]; repeat constructor.
      + apply single_line_cons. done.
      + apply Forall_cons in Hs as [Hl Hls].
        apply single_line_cons. done.
      + by apply Forall_cons in Hs as [_ ?]. }
  by apply (Hn (length s)).
Qed.

Lemma splitlines_break c t :
  is_linebreak c = true → (c =? 13)%N = false →
  splitlines (c :: t) = [] :: splitlines t.
Proof. intros Hc Hcr. simpl. rewrite Hc, Hcr. by destruct t. Qed.

Lemma splitlines_cr_lf t : splitlines (13%N :: 10%N :: t) = [] :: splitlines t.
Proof. done. Qed.

Lemma splitlines_cr c t :
  (c =? 10)%N = false → splitlines (13%N :: c :: t) = [] :: splitlines (c :: t).
Proof. intros Hc. cbn [splitlines]. rewrite Hc. done. Qed.

Lemma splitlines_char c t :
  is_linebreak c = false →
  splitlines (c :: t) = match splitlines t with
                        | [] => [[c]]
                        | l :: ls => (c :: l) :: ls
                        end.
Proof. intros Hc. simpl. by rewrite Hc. Qed.

(** Reading in text mode does not change the lines. *)
Lemma splitlines_universal_newlines s :
  splitlines (universal_newlines s) = splitlines s.
Proof.
  assert (∀ n s, length s ≤ n →
            splitlines (universal_newlines s) = splitlines s) as Hn.
  { clear s. induction n as [|n IH]; intros [|c s] Hlen; simpl in Hlen;
      try done; try lia.
    cbn [universal_newlines].
    destruct (c =? 13)%N eqn:Hc.
    - apply N.eqb_eq in Hc as ->.
      destruct s as [|c2 s]; [done|]. simpl in Hlen.
      destruct (c2 =? 10)%N eqn:Hc2.
      + apply N.eqb_eq in Hc2 as ->.
        rewrite splitlines_cr_lf, splitlines_break by done.
        rewrite IH by lia. done.
      + rewrite splitlines_cr, splitlines_break by done.
        rewrite IH by (simpl; lia). done.
    - destruct (is_linebreak c) eqn:Hb.
      + rewrite !splitlines_break by done. rewrite IH by lia. done.
      + rewrite !splitlines_char by done. rewrite IH by lia. done. }
  by apply (Hn (length s)).
Qed.

Lemma splitlines_join ls rest :
  Forall single_line ls →
  splitlines (join LF ls ++ 10%N :: rest)
  = match ls with [] => [[]] | _ => ls end ++ splitlines rest.
Proof.
  induction ls as [|l ls IH]; intros Hls.
  - simpl. by destruct rest.
  - apply Forall_cons in Hls as [Hl Hls].
    destruct ls as [|l' ls].
    + simpl. by rewrite splitlines_line.
    + change (join LF (l :: l' :: ls)) with (l ++ LF ++ join LF (l' :: ls)).
      rewrite <- !app_assoc. change (LF ++ ?x) with (10%N :: x).
      rewrite splitlines_line by done.
      rewrite IH by done. done.
Qed.

(** The lines of lines joined by line feeds. *)
Lemma splitlines_join_lines ls :
  Forall single_line ls → splitlines (join LF ls) = drop_final_empty ls.
Proof.
  induction ls as [|l ls IH]; intros Hls; [done|].
  apply Forall_cons in Hls as [Hl Hls].
  destruct ls as [|l' ls].
  - simpl. case_bool_decide as Hempty; [by subst|]. by apply splitlines_last.
  - change (join LF (l :: l' :: ls)) with (l ++ LF ++ join LF (l' :: ls)).
    change (LF ++ ?x) with (10%N :: x).
    rewrite splitlines_line by done. rewrite IH by done. done.
Qed.

Lemma startswith_app s p q : startswith s (p ++ q) = true → startswith s p = true.
Proof.
  revert s. induction p as [|c p IH]; intros [|d s]; simpl; try done.
  intros [? ?]%andb_true_iff. apply andb_true_iff. eauto.
Qed.

Lemma startswith_wlan0_interface l :
  startswith l (lit "interface wlan0") = true →
  startswith l (lit "interface ") = true.
Proof. apply (startswith_app l (lit "interface ") (lit "wlan0")). Qed.

(** ** The loop over dhcpcd.conf *)

(** No line that declares wlan0 is kept. *)
Lemma without_wlan0_none skip lines :
  Forall (λ l, startswith l (lit "interface wlan0") = false)
         (without_wlan0 skip lines).
Proof.
  revert skip. induction lines as [|l lines IH]; intros skip; simpl; [done|].
  destruct (startswith l (lit "interface wlan0")) eqn:Hl; [done|].
  destruct (if skip && startswith l (lit "interface ") then false else skip);
    [done|]. by constructor.
Qed.

(** Only lines of the file are kept. *)
Lemma without_wlan0_Forall (P : str → Prop) skip lines :
  Forall P lines → Forall P (without_wlan0 skip lines).
Proof.
  revert skip. induction lines as [|l lines IH]; intros skip Hl; simpl; [done|].
  apply Forall_cons in Hl as [Hl Hls].
  destruct (startswith l (lit "interface wlan0")); [by apply IH|].
  destruct (if skip && startswith l (lit "interface ") then false else skip);
    [by apply IH|]. constructor; [done | by apply IH].
Qed.

(** Once a block is open, lines that declare no interface are dropped. *)
Lemma without_wlan0_skipping lines :
  Forall (λ l, startswith l (lit "interface ") = false) lines →
  without_wlan0 true lines = [].
Proof.
  induction lines as [|l lines IH]; intros Hl; simpl; [done|].
  apply Forall_cons in Hl as [Hl Hls].
  destruct (startswith l (lit "interface wlan0")) eqn:Hw.
  - apply startswith_wlan0_interface in Hw. congruence.
  - rewrite Hl. simpl. by apply IH.
Qed.

(** A block left open at the end of the file goes, to the end of the file. *)
Lemma without_wlan0_open_block skip before decl after :
  startswith decl (lit "interface wlan0") = true →
  Forall (λ l, startswith l (lit "interface ") = false) after →
  without_wlan0 skip (before ++ decl :: after) = without_wlan0 skip before.
Proof.
  intros Hdecl Hafter. revert skip.
  induction before as [|l before IH]; intros skip; simpl.
  - rewrite Hdecl. by apply without_wlan0_skipping.
  - destruct (startswith l (lit "interface wlan0")); [by apply IH|].
    destruct (if skip && startswith l (lit "interface ") then false else skip);
      by rewrite IH.
Qed.

Lemma wlan0_blocks_app_none before after :
  Forall (λ l, startswith l (lit "interface wlan0") = false) before →
  wlan0_blocks (before ++ after) = wlan0_blocks after.
Proof.
  induction before as [|l before IH]; intros Hb; simpl; [done|].
  apply Forall_cons in Hb as [-> Hb]. by apply IH.
Qed.

Lemma wlan0_block_lines ip :
  wlan0_block ip
  = 10%N :: lit "interface wlan0"
    ++ 10%N :: (lit "  static ip_address=" ++ ip ++ lit "/24")
    ++ 10%N :: lit "  nohook wpa_supplicant" ++ 10%N :: [].
Proof. unfold wlan0_block, LF. rewrite <- !app_assoc. done. Qed.

(** After a rewrite there is one block for wlan0, the new one. *)
Lemma dhcpcd_rewrite_blocks text ip :
  single_line ip →
  wlan0_blocks (splitlines (dhcpcd_rewrite text ip)) = [static_block ip].
Proof.
  intros Hip. unfold dhcpcd_rewrite. rewrite wlan0_block_lines.
  rewrite splitlines_join
    by apply without_wlan0_Forall, splitlines_single_line.
  rewrite wlan0_blocks_app_none.
  2:{ destruct (without_wlan0 false (splitlines text)) eqn:Hk.
      - by repeat constructor.
      - rewrite <- Hk. apply without_wlan0_none. }
  rewrite !splitlines_line; try done.
  apply single_line_app. split; [done|]. apply single_line_app. done.
Qed.

(** ** Dictionaries *)

Lemma getitem_run w l d k x :
  heap w !! l = Some d → d !! k = Some x → getitem (VRef l) k w = (Ok x, w).
Proof. intros Hl Hk. unfold getitem, bind, deref. by rewrite Hl, Hk. Qed.

Lemma setitem_run w l d k x :
  heap w !! l = Some d →
  setitem (VRef l) k x w = (Ok tt, set_heap (<[l := <[k := x]> d]> (heap w)) w).
Proof. intros Hl. unfold setitem, bind, deref. by rewrite Hl. Qed.

Lemma section_dict_top h a s name d :
  sections_hold h a s → section_dict s name = Some d →
  ∃ l, top_dict a !! name = Some (VRef l) ∧ h !! l = Some d.
Proof.
  intros (Hw & Hs & Ha & Hy) Hd. unfold section_dict in Hd.
  apply lookup_insert_Some in Hd as [[<- <-]|[_ Hd]]; [by eexists|].
  apply lookup_insert_Some in Hd as [[<- <-]|[_ Hd]]; [by eexists|].
  apply lookup_insert_Some in Hd as [[<- <-]|[_ Hd]]; [by eexists|].
  apply lookup_singleton_Some in Hd as [<- <-]. by eexists.
Qed.

Lemma settings_getitem w cfg s name d :
  settings_at (heap w) cfg s → section_dict s name = Some d →
  ∃ l, getitem cfg name w = (Ok (VRef l), w) ∧ heap w !! l = Some d.
Proof.
  intros (a & (l & -> & Hl) & Hs) Hd.
  destruct (section_dict_top _ _ _ _ _ Hs Hd) as (l' & Htop & Hl').
  exists l'. split; [|done]. by apply getitem_run with (top_dict a).
Qed.

Lemma settings_getitem2 w cfg s name d k x :
  settings_at (heap w) cfg s → section_dict s name = Some d → d !! k = Some x →
  getitem2 cfg name k w = (Ok x, w).
Proof.
  intros Hs Hd Hk.
  destruct (settings_getitem _ _ _ _ _ Hs Hd) as (l & Hget & Hl).
  unfold getitem2. rewrite (bind_run _ _ _ _ _ Hget).
  by apply getitem_run with d.
Qed.

Example settings_getitem2_ip w cfg s :
  settings_at (heap w) cfg s →
  getitem2 cfg (lit "wifi") (lit "ip") w = (Ok (VStr (wifi_ip s)), w).
Proof. intros Hs. by eapply settings_getitem2. Qed.

Lemma wp_getitem2 w cfg s name d k x (Q : value → world → Prop) :
  settings_at (heap w) cfg s → section_dict s name = Some d → d !! k = Some x →
  Q x w → wp (getitem2 cfg name k) Q w.
Proof.
  intros Hs Hd Hk HQ. eapply wp_of_run; [|done]. by eapply settings_getitem2.
Qed.

(** ** Files and commands *)

Lemma wp_path_exists p (Q : bool → world → Prop) w :
  Q (bool_decide (p ∈ dom (files w) ∪ dirs w)) w → wp (path_exists p) Q w.
Proof. done. Qed.

Lemma wp_read_text p s (Q : str → world → Prop) w :
  files w !! p = Some s → Q (universal_newlines s) w → wp (read_text p) Q w.
Proof. intros Hp HQ. unfold wp, read_text. by rewrite Hp. Qed.

Lemma in_place_spec w p :
  in_place w p →
  bool_decide (p ∈ dom (files w)) || dir_exists w (path_parent p) = true.
Proof.
  intros [Hp|Hp]; apply orb_true_iff; [left|right].
  - by apply bool_decide_eq_true.
  - unfold dir_exists. by rewrite (bool_decide_eq_true_2 _ Hp).
Qed.

Lemma wp_write_text p s (Q : unit → world → Prop) w :
  writable w p → in_place w p → Q tt (set_files (<[p := s]> (files w)) w) →
  wp (write_text p s) Q w.
Proof.
  intros Hp Hin HQ. unfold wp, write_text.
  by rewrite bool_decide_eq_false_2, in_place_spec.
Qed.

Lemma wp_try_pass {A} (m : M A) (Q : unit → world → Prop) w :
  Q tt (m w).2 → wp (try_pass m) Q w.
Proof. done. Qed.

Lemma wp_hostapd_lines a b lines (Q : list str → world → Prop) w :
  (∀ ls, Q ls w) → wp (hostapd_lines (VStr a) (VStr b) lines) Q w.
Proof.
  revert Q. induction lines as [|l lines IH]; intros Q HQ; simpl.
  - apply wp_ret, HQ.
  - apply wp_bind.
    assert (∀ Q' : str → world → Prop, (∀ x, Q' x w) →
      wp (if startswith l (lit "ssid=")
          then bind (format_value (VStr a)) (λ s, ret (lit "ssid=" ++ s))
          else if startswith l (lit "wpa_passphrase=")
               then bind (format_value (VStr b))
                         (λ p, ret (lit "wpa_passphrase=" ++ p))
               else ret l) Q' w) as Hline.
    { intros Q' HQ'. destruct (startswith l (lit "ssid=")); [apply HQ'|].
      destruct (startswith l (lit "wpa_passphrase=")); apply HQ'. }
    apply Hline. intros x. apply wp_bind, IH. intros ls. apply wp_ret, HQ.
Qed.

Section writers.
Context {P : Subprocess}.

(** A command started for the best: whatever comes of it, the program goes
    on, and the world only remembers that the command was started. *)
Lemma subprocess_run_world cmd w :
  (subprocess_run cmd w).2 = set_ran (ran w ++ [cmd]) w.
Proof. unfold subprocess_run. by destruct (run_outcome (ran w) cmd). Qed.

Lemma wp_best_effort cmd (Q : unit → world → Prop) w :
  Q tt (set_ran (ran w ++ [cmd]) w) → wp (try_pass (subprocess_run cmd)) Q w.
Proof. intros HQ. apply wp_try_pass. by rewrite subprocess_run_world. Qed.

(** What [apply_wifi_config] does when dhcpcd.conf is there. *)
Lemma apply_wifi_config_run w cfg s content :
  settings_at (heap w) cfg s →
  files w !! dhcpcd_conf = Some content →
  writable w dhcpcd_conf → writable w hostapd_conf →
  wp (apply_wifi_config cfg)
     (λ _ w', heap w' = heap w ∧ dirs w' = dirs w ∧ denied w' = denied w
              ∧ files w' !! dhcpcd_conf
                = Some (dhcpcd_rewrite (universal_newlines content) (wifi_ip s))) w.
Proof.
  intros Hs Hfile Hd Hh. unfold apply_wifi_config.
  apply wp_bind. eapply wp_getitem2; [done..|].
  apply wp_bind. eapply wp_getitem2; [done..|].
  apply wp_bind. eapply wp_getitem2; [done..|].
  apply wp_bind, wp_path_exists.
  apply wp_bind.
  apply wp_mono with
    (λ _ w', heap w' = heap w ∧ dirs w' = dirs w ∧ denied w' = denied w
             ∧ files w' !! dhcpcd_conf = Some content).
  - case_bool_decide as Hex; [|by apply wp_ret].
    apply elem_of_union in Hex as [Hex|Hex].
    2:{ destruct Hh. apply elem_of_union. by right. }
    apply elem_of_dom in Hex as [text Htext].
    apply wp_bind. eapply wp_read_text; [done|].
    apply wp_bind, wp_hostapd_lines. intros ls.
    apply wp_bind, wp_write_text; [done|left; by eapply elem_of_dom_2|].
    apply wp_best_effort. simpl. repeat split; try done.
    by rewrite lookup_insert_ne.
  - intros _ w' (Hheap & Hdirs & Hden & Hfile').
    apply wp_bind, wp_ret.
    apply wp_bind, wp_path_exists.
    rewrite bool_decide_eq_true_2.
    2:{ apply elem_of_union. left. by apply elem_of_dom. }
    apply wp_bind. eapply wp_read_text; [done|].
    apply wp_bind, wp_write_text.
    { unfold writable. by rewrite Hden, Hdirs. }
    { left. by eapply elem_of_dom_2. }
    apply wp_best_effort. simpl. repeat split; try done.
    by rewrite lookup_insert_eq.
Qed.

End writers.

(** ** The Settings Document on the heap *)

(** Two dictionaries that differ at a key are not at the same address. *)
Lemma differ_at_key (h : list dict) l1 l2 d1 d2 k :
  h !! l1 = Some d1 → h !! l2 = Some d2 → d1 !! k ≠ d2 !! k → l1 ≠ l2.
Proof. intros H1 H2 Hk ->. rewrite H1 in H2. by injection H2 as ->. Qed.

(** The dictionary of a document and those of its sections are five
    different objects. *)
Lemma settings_distinct h l a s :
  h !! l = Some (top_dict a) → sections_hold h a s →
  (l ≠ at_wifi a ∧ l ≠ at_storage a ∧ l ≠ at_apps a ∧ l ≠ at_sync a)
  ∧ (at_wifi a ≠ at_storage a ∧ at_wifi a ≠ at_apps a ∧ at_wifi a ≠ at_sync a)
  ∧ (at_storage a ≠ at_apps a ∧ at_storage a ≠ at_sync a)
  ∧ at_apps a ≠ at_sync a.
Proof.
  intros Hl (Hw & Hs & Ha & Hy).
  repeat split.
  - by eapply (differ_at_key h _ _ _ _ (lit "wifi")).
  - by eapply (differ_at_key h _ _ _ _ (lit "wifi")).
  - by eapply (differ_at_key h _ _ _ _ (lit "wifi")).
  - by eapply (differ_at_key h _ _ _ _ (lit "wifi")).
  - by eapply (differ_at_key h _ _ _ _ (lit "ssid")).
  - by eapply (differ_at_key h _ _ _ _ (lit "ssid")).
  - by eapply (differ_at_key h _ _ _ _ (lit "ssid")).
  - by eapply (differ_at_key h _ _ _ _ (lit "media_root")).
  - by eapply (differ_at_key h _ _ _ _ (lit "media_root")).
  - by eapply (differ_at_key h _ _ _ _ (lit "enable_sync")).
Qed.

Lemma assign_run w l top name l' d k x :
  heap w !! l = Some top → top !! name = Some (VRef l') → heap w !! l' = Some d →
  assign (VRef l) name k x w
  = (Ok tt, set_heap (<[l' := <[k := x]> d]> (heap w)) w).
Proof.
  intros Hl Htop Hd. unfold assign.
  rewrite (bind_run _ _ _ _ _ (getitem_run _ _ _ _ _ Hl Htop)).
  by apply setitem_run.
Qed.

Lemma submitted_or_run r key stored v w :
  stored w = (Ok (VStr v), w) →
  submitted_or r key stored w = (Ok (VStr (overlay_text (form r) key v)), w).
Proof.
  intros Hstored. unfold submitted_or, overlay_text.
  destruct (strip (form_get (form r) key)) as [|c s] eqn:Hs.
  - by rewrite bool_decide_eq_true_2.
  - by rewrite bool_decide_eq_false_2.
Qed.

Lemma heap_set_heap h w : heap (set_heap h w) = h.
Proof. done. Qed.

Lemma set_heap_set_heap h h' w : set_heap h (set_heap h' w) = set_heap h w.
Proof. done. Qed.

Lemma set_heap_heap w : set_heap (heap w) w = w.
Proof. by destruct w. Qed.

(** One text field of the form: [cfg[name][k] = submitted or cfg[name][k]]. *)
Lemma wp_text_field {B} r l name k key (rest : M B) top l' d v Q h w :
  h !! l = Some top → top !! name = Some (VRef l') →
  h !! l' = Some d → d !! k = Some (VStr v) →
  wp rest Q (set_heap (<[l' := <[k := VStr (overlay_text (form r) key v)]> d]> h) w) →
  wp (x <- submitted_or r key (getitem2 (VRef l) name k) ;;
      assign (VRef l) name k x ;; rest) Q (set_heap h w).
Proof.
  intros Hl Htop Hd Hk Hrest. unfold wp.
  erewrite bind_run.
  2:{ apply submitted_or_run. unfold getitem2.
      erewrite bind_run; [|by eapply getitem_run].
      by apply getitem_run with d. }
  erewrite bind_run; [|by eapply assign_run]. done.
Qed.

Lemma wp_text_field_last r l name k key top l' d v (Q : unit → world → Prop) h w :
  h !! l = Some top → top !! name = Some (VRef l') →
  h !! l' = Some d → d !! k = Some (VStr v) →
  Q tt (set_heap (<[l' := <[k := VStr (overlay_text (form r) key v)]> d]> h) w) →
  wp (x <- submitted_or r key (getitem2 (VRef l) name k) ;;
      assign (VRef l) name k x) Q (set_heap h w).
Proof.
  intros Hl Htop Hd Hk Hrest. unfold wp.
  erewrite bind_run.
  2:{ apply submitted_or_run. unfold getitem2.
      erewrite bind_run; [|by eapply getitem_run].
      by apply getitem_run with d. }
  erewrite assign_run; done.
Qed.

(** One checkbox of the form. *)
Lemma wp_checkbox {B} l name k x (rest : M B) top l' d Q h w :
  h !! l = Some top → top !! name = Some (VRef l') →
  h !! l' = Some d →
  wp rest Q (set_heap (<[l' := <[k := x]> d]> h) w) →
  wp (assign (VRef l) name k x ;; rest) Q (set_heap h w).
Proof.
  intros Hl Htop Hd Hrest. unfold wp.
  erewrite bind_run; [|by eapply assign_run]. done.
Qed.

Ltac heap_lookup :=
  repeat first
    [ rewrite list_lookup_insert_ne
        by first [assumption | apply not_eq_sym; assumption]
    | rewrite list_lookup_insert_eq
        by (rewrite ?length_insert; eapply lookup_lt_Some; eassumption) ];
  first [ eassumption | reflexivity ].

(** The merge updates the four section dictionaries in place. *)
Lemma setup_merge_run r cfg a s w :
  doc_sections (heap w) cfg a → sections_hold (heap w) a s →
  setup_merge r cfg w
  = (Ok tt, set_heap (with_sections a (merged s (form r)) (heap w)) w).
Proof.
  intros (l & -> & Hl) Hs.
  destruct (settings_distinct _ _ _ _ Hl Hs)
    as ((? & ? & ? & ?) & (? & ? & ?) & (? & ?) & ?).
  destruct Hs as (Hw & Hs & Ha & Hy).
  assert (wp (setup_merge r (VRef l))
    (λ _ w', w' = set_heap (with_sections a (merged s (form r)) (heap w)) w) w)
    as Hwp.
  { unfold setup_merge. rewrite <- (set_heap_heap w) at 1.
    eapply wp_text_field; [heap_lookup..|].
    eapply wp_text_field; [heap_lookup..|]. rewrite list_insert_insert_eq.
    eapply wp_text_field; [heap_lookup..|]. rewrite list_insert_insert_eq.
    eapply wp_text_field; [heap_lookup..|].
    eapply wp_checkbox; [heap_lookup..|].
    eapply wp_checkbox; [heap_lookup..|]. rewrite list_insert_insert_eq.
    eapply wp_checkbox; [heap_lookup..|].
    eapply wp_text_field; [heap_lookup..|]. rewrite list_insert_insert_eq.
    eapply wp_text_field; [heap_lookup..|]. rewrite list_insert_insert_eq.
    eapply wp_text_field_last; [heap_lookup..|]. rewrite list_insert_insert_eq.
    reflexivity. }
  apply wp_run in Hwp as ([] & w' & -> & ->). done.
Qed.

(** Once the sections hold [s'], the document holds [s']. *)
Lemma with_sections_settings h l a s s' :
  h !! l = Some (top_dict a) → sections_hold h a s →
  settings_at (with_sections a s' h) (VRef l) s'.
Proof.
  intros Hl Hs.
  destruct (settings_distinct _ _ _ _ Hl Hs)
    as ((? & ? & ? & ?) & (? & ? & ?) & (? & ?) & ?).
  destruct Hs as (Hw & Hs & Ha & Hy).
  exists a. unfold with_sections. split; [exists l; split; [done|] | repeat split];
    heap_lookup.
Qed.

(** ** What leaves the dictionaries alone *)

Lemma keeps_heap_deref v : keeps_heap (deref v).
Proof. intros w. unfold deref. by repeat case_match. Qed.

Lemma keeps_heap_getitem v k : keeps_heap (getitem v k).
Proof.
  apply keeps_heap_bind; [apply keeps_heap_deref|].
  intros d. by destruct (d !! k).
Qed.

Lemma keeps_heap_getitem2 v a b : keeps_heap (getitem2 v a b).
Proof. apply keeps_heap_bind; [|intros ?]; apply keeps_heap_getitem. Qed.

Lemma keeps_heap_truthy v : keeps_heap (truthy v).
Proof.
  destruct v; try done.
  apply keeps_heap_bind; [apply keeps_heap_deref | done].
Qed.

Lemma keeps_heap_format_value v : keeps_heap (format_value v).
Proof. by destruct v as [| [] | | | |]. Qed.

Lemma keeps_heap_dump_tree v : keeps_heap (dump_tree v).
Proof. intros w. unfold dump_tree. by case_match. Qed.

Lemma keeps_heap_path_exists p : keeps_heap (path_exists p).
Proof. done. Qed.

Lemma keeps_heap_read_text p : keeps_heap (read_text p).
Proof. intros w. unfold read_text. by case_match. Qed.

Lemma keeps_heap_write_text p s : keeps_heap (write_text p s).
Proof. intros w. unfold write_text. by repeat case_match. Qed.

Lemma keeps_heap_mkdir_p p : keeps_heap (mkdir_p p).
Proof. intros w. unfold mkdir_p. by case_match. Qed.

Lemma keeps_heap_chmod p m : keeps_heap (chmod p m).
Proof. intros w. unfold chmod. by case_match. Qed.

Lemma keeps_heap_Path2 v sub : keeps_heap (Path2 v sub).
Proof. by destruct v. Qed.

Lemma keeps_heap_url_for e : keeps_heap (url_for e).
Proof. unfold url_for. by repeat case_match. Qed.

Lemma keeps_heap_subprocess_run {P : Subprocess} cmd : keeps_heap (subprocess_run cmd).
Proof. intros w. by rewrite subprocess_run_world. Qed.

Lemma keeps_heap_hostapd_lines a b lines : keeps_heap (hostapd_lines a b lines).
Proof.
  induction lines as [|l lines IH]; simpl; [done|].
  apply keeps_heap_bind.
  - repeat case_match; try done;
      (apply keeps_heap_bind; [apply keeps_heap_format_value | done]).
  - intros ?. apply keeps_heap_bind; [done | done].
Qed.

Ltac keeps_heap :=
  repeat first
    [ apply keeps_heap_ret | apply keeps_heap_raise
    | apply keeps_heap_getitem2 | apply keeps_heap_getitem
    | apply keeps_heap_truthy | apply keeps_heap_format_value
    | apply keeps_heap_dump_tree | apply keeps_heap_path_exists
    | apply keeps_heap_read_text | apply keeps_heap_write_text
    | apply keeps_heap_mkdir_p | apply keeps_heap_chmod
    | apply keeps_heap_Path2 | apply keeps_heap_url_for
    | apply keeps_heap_hostapd_lines
    | apply keeps_heap_try_pass; apply keeps_heap_subprocess_run
    | apply keeps_heap_for_each; intros ?
    | apply keeps_heap_bind; [|intros ?]
    | match goal with
      | |- keeps_heap (if ?b then _ else _) => destruct b
      end ].

Section handler.
Context {Y : Yaml} {P : Subprocess}.

Lemma keeps_heap_save_config cfg : keeps_heap (save_config cfg).
Proof. unfold save_config. keeps_heap. Qed.

Lemma keeps_heap_apply_wifi_config cfg : keeps_heap (apply_wifi_config cfg).
Proof. unfold apply_wifi_config. keeps_heap. Qed.

Lemma keeps_heap_generate_docker_compose cfg :
  keeps_heap (generate_docker_compose cfg).
Proof. unfold generate_docker_compose, compose_lines. keeps_heap. Qed.

Lemma keeps_heap_apply_sync_config cfg : keeps_heap (apply_sync_config cfg).
Proof. unfold apply_sync_config. keeps_heap. Qed.

(** Loading without a configuration file: a new dictionary with the entries
    of the defaults. *)
Lemma load_config_default w top :
  CONFIG_PATH ∉ dom (files w) ∪ dirs w → heap w !! 4 = Some top →
  load_config w = (Ok (VRef (length (heap w))), set_heap (heap w ++ [top]) w).
Proof.
  intros Hno Htop. unfold load_config, bind, path_exists.
  rewrite bool_decide_eq_false_2 by done.
  unfold dict_copy, bind, deref, DEFAULT_CONFIG. by rewrite Htop.
Qed.

(** A copy of a Settings Document is a Settings Document with the same
    fields, and with the same sections. *)
Lemma copy_settings h l a s top :
  h !! l = Some (top_dict a) → sections_hold h a s → top = top_dict a →
  doc_sections (h ++ [top]) (VRef (length h)) a
  ∧ doc_sections (h ++ [top]) (VRef l) a
  ∧ sections_hold (h ++ [top]) a s.
Proof.
  intros Hl (Hw & Hs & Ha & Hy) ->. repeat split.
  - exists (length h). split; [done|]. by rewrite lookup_app_r, Nat.sub_diag.
  - exists l. split; [done|]. by apply lookup_app_l_Some.
  - by apply lookup_app_l_Some.
  - by apply lookup_app_l_Some.
  - by apply lookup_app_l_Some.
  - by apply lookup_app_l_Some.
Qed.

(** The heap after a POST: the sections of the document that was loaded
    hold the merged fields, whether the writers went through or not. *)
Lemma setup_post_heap r w cfg w0 a s :
  method r = lit "POST" →
  load_config w = (Ok cfg, w0) →
  doc_sections (heap w0) cfg a → sections_hold (heap w0) a s →
  heap (setup r w).2 = with_sections a (merged s (form r)) (heap w0).
Proof.
  intros Hpost Hload Hdoc Hs. unfold setup.
  rewrite (bind_run _ _ _ _ _ Hload).
  rewrite bool_decide_eq_true_2 by done.
  rewrite (bind_run _ _ _ _ _ (setup_merge_run r cfg a s w0 Hdoc Hs)).
  match goal with |- heap (?m ?w).2 = _ => assert (keeps_heap m) as Hk end.
  { keeps_heap. }
  by rewrite Hk.
Qed.

End handler.

(** ** What leaves the files alone *)

Lemma keeps_files_bind {A B} (m : M A) (k : A → M B) :
  keeps_files m → (∀ a, keeps_files (k a)) → keeps_files (bind m k).
Proof.
  intros Hm Hk w. unfold bind. specialize (Hm w).
  destruct (m w) as [[a|e] w']; simpl in *; [|done].
  by rewrite Hk.
Qed.

Lemma keeps_files_mkdir_p p : keeps_files (mkdir_p p).
Proof. intros w. unfold mkdir_p. by case_match. Qed.

Lemma keeps_files_Path2 v sub : keeps_files (Path2 v sub).
Proof. by destruct v. Qed.

Lemma keeps_files_for_each {A} (xs : list A) body :
  (∀ x, keeps_files (body x)) → keeps_files (for_each xs body).
Proof.
  intros Hb. induction xs as [|x xs IH]; simpl; [done|].
  apply keeps_files_bind; auto.
Qed.

(** ** The manifest *)

Lemma mkdir_p_run p w :
  creatable w p →
  mkdir_p p w = (Ok tt, set_dirs (dirs w ∪ list_to_set (p :: ancestors p)) w).
Proof. intros Hp. unfold mkdir_p. unfold creatable in Hp. by rewrite Hp. Qed.

Lemma write_text_run p s w :
  writable w p → in_place w p →
  write_text p s w = (Ok tt, set_files (<[p := s]> (files w)) w).
Proof.
  intros Hp Hin. unfold write_text.
  by rewrite bool_decide_eq_false_2, in_place_spec.
Qed.

Lemma compose_lines_run m a c w :
  compose_lines (VStr m) (VBool a) (VBool c) w
  = (Ok (manifest_head
         ++ (if a then audiobookshelf_entry m else [])
         ++ (if c then calibre_web_entry m else [])), w).
Proof. by destruct a, c. Qed.

Lemma manifest_services_lines m (a c : bool) :
  manifest_services (manifest_head
                     ++ (if a then audiobookshelf_entry m else [])
                     ++ (if c then calibre_web_entry m else []))
  = (if a then [lit "audiobookshelf"] else [])
    ++ (if c then [lit "calibre-web"] else []).
Proof. by destruct a, c. Qed.

(** A path that is none of the listed directories. *)
Ltac not_listed :=
  let H := fresh in
  intros H; apply (bool_decide_pack _) in H; vm_compute in H; exact H.

(** Paths are spelled as [pathlib] spells them. *)
Example path_join_samples :
  path_join (lit "/srv//media") (lit "audiobooks") = lit "/srv/media/audiobooks"
  ∧ path_join (lit "/srv/media/") (lit "audiobooks") = lit "/srv/media/audiobooks"
  ∧ path_join (lit "/srv/./media") (lit "books") = lit "/srv/media/books"
  ∧ path_join [] (lit "config") = lit "config"
  ∧ path_join (lit "//srv") (lit "x") = lit "//srv/x"
  ∧ path_join (lit "///srv") (lit "x") = lit "/srv/x"
  ∧ path_join (lit "/a/../b") (lit "x") = lit "/a/../b/x"
  ∧ path_join (lit "/srv") (lit "/x") = lit "/x"
  ∧ path_join (lit "/home/pi/library-server") (lit "docker-compose.yml") = compose_file
  ∧ path_parent compose_file = compose_dir.
Proof. repeat split; vm_compute; reflexivity. Qed.

(** After [mkdir_p] the directory is there, for a file to be written in
    it. *)
Lemma in_place_made p d ds w :
  path_parent p = d → in_place (set_dirs (ds ∪ list_to_set (d :: ancestors d)) w) p.
Proof.
  intros <-. right. change (dirs (set_dirs ?d ?w)) with d.
  apply elem_of_union. right. apply elem_of_list_to_set, list_elem_of_here.
Qed.

Lemma generate_docker_compose_files cfg s w :
  settings_at (heap w) cfg s → creatable w compose_dir → writable w compose_file →
  files (generate_docker_compose cfg w).2
  = <[compose_file :=
        join LF (manifest_head
                 ++ (if install_audiobookshelf s
                     then audiobookshelf_entry (media_root s) else [])
                 ++ (if install_calibre_web s
                     then calibre_web_entry (media_root s) else []))]> (files w).
Proof.
  intros Hs Hdir Hfile. unfold generate_docker_compose.
  erewrite bind_run; [|by eapply settings_getitem2].
  erewrite bind_run; [|by eapply settings_getitem2].
  erewrite bind_run; [|by eapply settings_getitem2].
  rewrite (bind_run _ _ _ _ _ (compose_lines_run _ _ _ _)).
  rewrite (bind_run _ _ _ _ _ (mkdir_p_run _ _ Hdir)).
  erewrite bind_run.
  2:{ apply write_text_run; [|apply in_place_made; vm_compute; reflexivity].
      unfold writable in *.
      change (denied (set_dirs ?d ?w)) with (denied w).
      change (dirs (set_dirs ?d ?w)) with d.
      rewrite !not_elem_of_union in *. destruct Hfile as [Hden Hdirs].
      split; [exact Hden|]. split; [exact Hdirs|]. not_listed. }
  match goal with |- files (?m ?w).2 = _ => assert (keeps_files m) as Hk end.
  { apply keeps_files_bind; [|done].
    apply keeps_files_for_each. intros sub.
    apply keeps_files_bind; [apply keeps_files_Path2|].
    intros ?. apply keeps_files_mkdir_p. }
  by rewrite Hk.
Qed.

(** ** Values and trees *)

(** What it takes for a dictionary to be dumped as a mapping. *)
Lemma represent_VRef n h l t :
  represent (S n) h (VRef l) = Some t ↔
  ∃ d m, h !! l = Some d ∧ t = TMap m
         ∧ ∀ k, represent n h <$> (d !! k) = Some <$> (m !! k).
Proof.
  cbn [represent]. split.
  - destruct (h !! l) as [d|]; [|done]. cbv zeta.
    case_decide as Hall; [|done]. intros [= <-].
    exists d, (omap id (represent n h <$> d)). repeat split.
    intros k. rewrite lookup_omap, lookup_fmap.
    destruct (d !! k) as [v|] eqn:Hk; [|done]. simpl.
    destruct (Hall k (represent n h v)) as [t Ht].
    { by rewrite lookup_fmap, Hk. }
    by rewrite Ht.
  - intros (d & m & -> & -> & Hm). cbv zeta.
    assert (represent n h <$> d = Some <$> m) as ->.
    { apply map_eq. intros k. by rewrite !lookup_fmap. }
    rewrite decide_True.
    + do 2 f_equal. apply map_eq. intros k.
      rewrite lookup_omap, lookup_fmap. by destruct (m !! k).
    + intros k o. rewrite lookup_fmap. destruct (m !! k); naive_solver.
Qed.

Lemma represent_flat n h t : flat t → represent (S n) h (value_of t) = Some t.
Proof. by destruct t. Qed.

Lemma represent_flat_inv n h v t :
  flat t → represent (S n) h v = Some t → v = value_of t.
Proof.
  intros Ht Hv. destruct v as [| | | | |l]; try (injection Hv as <-; done).
  apply represent_VRef in Hv as (? & ? & _ & -> & _). done.
Qed.

Lemma represent_TMap_inv n h v m :
  represent (S n) h v = Some (TMap m) →
  ∃ l d, v = VRef l ∧ h !! l = Some d
         ∧ ∀ k, represent n h <$> (d !! k) = Some <$> (m !! k).
Proof.
  intros Hv. destruct v as [| | | | |l]; try done.
  apply represent_VRef in Hv as (d & m' & Hl & [= <-] & Hm). eauto.
Qed.

(** More dictionaries on the heap do not change what is dumped. *)
Lemma represent_app n h ext v t :
  represent n h v = Some t → represent n (h ++ ext) v = Some t.
Proof.
  revert v t. induction n as [|n IH]; intros v t Hv; [done|].
  destruct v as [| | | | |l]; try done.
  apply represent_VRef in Hv as (d & m & Hl & -> & Hm).
  apply represent_VRef. exists d, m. split; [by apply lookup_app_l_Some|].
  split; [done|]. intros k. specialize (Hm k).
  destruct (d !! k) as [v|], (m !! k) as [t|]; simpl in *; try done.
  injection Hm as Hm. by rewrite (IH _ _ Hm).
Qed.

(** A dictionary of flat values and the mapping it is dumped as. *)
Lemma flat_dict (n : nat) (h : list dict) (m : gmap str tree) (k : str) :
  map_Forall (λ _, flat) m →
  represent (S n) h <$> ((value_of <$> m) !! k) = Some <$> (m !! k).
Proof.
  intros Hm. rewrite lookup_fmap. destruct (m !! k) as [t|] eqn:Hk; [|done].
  simpl. f_equal. apply represent_flat. by eapply Hm.
Qed.

Lemma flat_dict_inv (n : nat) (h : list dict) (d : dict) (m : gmap str tree) :
  map_Forall (λ _, flat) m →
  (∀ k, represent (S n) h <$> (d !! k) = Some <$> (m !! k)) →
  d = value_of <$> m.
Proof.
  intros Hflat Hm. apply map_eq. intros k. specialize (Hm k).
  rewrite lookup_fmap.
  destruct (d !! k) as [v|], (m !! k) as [t|] eqn:Hk; simpl in *; try done.
  injection Hm as Hm. f_equal. eapply represent_flat_inv; [|done].
  by eapply Hflat.
Qed.

(** ** The objects built for a mapping *)

(** The loop of [construct_in] over the entries of a mapping, when each
    entry is built as the tree it comes from. *)
Lemma construct_entries (n : nat) (m : gmap str tree) (h : list dict) :
  (∀ k t, m !! k = Some t →
     ∀ h0, ∃ v ext, construct_in t h0 = (v, h0 ++ ext)
                    ∧ represent n (h0 ++ ext) v = Some t) →
  ∃ d ext,
    map_fold (λ k t (acc : dict * list dict),
                let '(v, h1) := construct_in t acc.2 in (<[k := v]> acc.1, h1))
             (∅, h) m = (d, h ++ ext)
    ∧ ∀ k, represent n (h ++ ext) <$> (d !! k) = Some <$> (m !! k).
Proof.
  induction m as [|i x m Hi Hfirst IH] using map_first_key_ind; intros Hm.
  - exists ∅, []. rewrite map_fold_empty, app_nil_r. split; [done|].
    intros k. by rewrite !lookup_empty.
  - rewrite map_fold_insert_first_key by done.
    destruct IH as (d & ext & Hfold & Hd).
    { intros k t Hk. apply (Hm k). rewrite lookup_insert_ne; [done|].
      intros <-. by rewrite Hi in Hk. }
    rewrite Hfold.
    cbn [snd fst].
    destruct (Hm i x (lookup_insert_eq _ _ _) (h ++ ext)) as (v & ext' & -> & Hv).
    exists (<[i := v]> d), (ext ++ ext'). rewrite app_assoc. split; [done|].
    intros k. destruct (decide (k = i)) as [->|Hne].
    + rewrite !lookup_insert_eq. simpl. by rewrite Hv.
    + rewrite !lookup_insert_ne by done. specialize (Hd k).
      destruct (d !! k) as [v'|], (m !! k) as [t'|]; simpl in *; try done.
      injection Hd as Hd. by rewrite (represent_app _ _ _ _ _ Hd).
Qed.

(** The dictionary built for a mapping is dumped as this mapping. *)
Lemma construct_in_TMap (n : nat) (m : gmap str tree) (h : list dict) :
  (∀ k t, m !! k = Some t →
     ∀ h0, ∃ v ext, construct_in t h0 = (v, h0 ++ ext)
                    ∧ represent n (h0 ++ ext) v = Some t) →
  ∃ v ext, construct_in (TMap m) h = (v, h ++ ext)
           ∧ represent (S n) (h ++ ext) v = Some (TMap m).
Proof.
  intros Hm. destruct (construct_entries n m h Hm) as (d & ext & Hfold & Hd).
  exists (VRef (length (h ++ ext))), (ext ++ [d]).
  cbn [construct_in]. rewrite Hfold, app_assoc. split; [done|].
  apply represent_VRef. exists d, m. split.
  { by rewrite lookup_app_r, Nat.sub_diag. }
  split; [done|]. intros k. specialize (Hd k).
  destruct (d !! k) as [v'|], (m !! k) as [t'|]; simpl in *; try done.
  injection Hd as Hd. by rewrite (represent_app _ _ _ _ _ Hd).
Qed.

Lemma construct_in_flat (n : nat) (t : tree) (h : list dict) :
  flat t → ∃ v ext, construct_in t h = (v, h ++ ext)
                    ∧ represent (S n) (h ++ ext) v = Some t.
Proof.
  intros Ht. exists (value_of t), []. rewrite app_nil_r.
  split; by destruct t.
Qed.

Lemma construct_in_flat_map (n : nat) (t : tree) (h : list dict) :
  flat_map t → ∃ v ext, construct_in t h = (v, h ++ ext)
                        ∧ represent (S (S n)) (h ++ ext) v = Some t.
Proof.
  destruct t as [| | | | |m]; try done. intros Hm.
  apply construct_in_TMap. intros k t Hk h0.
  apply construct_in_flat. by eapply Hm.
Qed.

(** The keys of the dictionary built for a mapping are those of the
    mapping. *)
Lemma construct_keys (m : gmap str tree) (h : list dict) (k : str) :
  is_Some ((map_fold (λ k t (acc : dict * list dict),
                        let '(v, h1) := construct_in t acc.2 in (<[k := v]> acc.1, h1))
                     (∅, h) m).1 !! k)
  ↔ is_Some (m !! k).
Proof.
  apply (map_fold_weak_ind (λ (acc : dict * list dict) (m : gmap str tree),
            is_Some (acc.1 !! k) ↔ is_Some (m !! k))); clear m.
  - cbn [fst]. by rewrite !lookup_empty.
  - intros i x m [d h0] Hi IH. cbn [fst snd] in *.
    destruct (construct_in x h0) as [v h1]. simpl.
    destruct (decide (k = i)) as [->|Hne].
    + by rewrite !lookup_insert_eq.
    + by rewrite !lookup_insert_ne.
Qed.

Lemma construct_in_has_key (t : tree) (h : list dict) (k : str) :
  has_key (construct_in t h).2 (construct_in t h).1 k = tree_has_key t k.
Proof.
  destruct t as [| | | | |m]; try done. cbn [construct_in tree_has_key].
  pose proof (construct_keys m h k) as Hkeys.
  destruct (map_fold _ _ m) as [d h']. simpl in *.
  rewrite lookup_app_r, Nat.sub_diag by done. simpl.
  by apply bool_decide_ext.
Qed.

(** More depth does not change what is dumped. *)
Lemma represent_deeper n h v t :
  represent n h v = Some t → represent (S n) h v = Some t.
Proof.
  revert v t. induction n as [|n IH]; intros v t Hv; [done|].
  destruct v as [| | | | |l]; try done.
  apply represent_VRef in Hv as (d & m & Hl & -> & Hm).
  apply represent_VRef. exists d, m. repeat split; [done|].
  intros k. specialize (Hm k).
  destruct (d !! k) as [v|], (m !! k) as [t|]; simpl in *; try done.
  injection Hm as Hm. by rewrite (IH _ _ Hm).
Qed.

Lemma represent_deep n n' h v t :
  represent n h v = Some t → n ≤ n' → represent n' h v = Some t.
Proof. intros Hv Hn. induction Hn; [done|]. by apply represent_deeper. Qed.

(** ** Trees of any shape *)

Lemma tree_depth_entries (m : gmap str tree) k t :
  m !! k = Some t →
  tree_depth t ≤ map_fold (λ _ t' n, tree_depth t' `max` n) 0 m.
Proof.
  induction m as [|i x m Hi Hfirst IH] using map_first_key_ind; [done|].
  rewrite map_fold_insert_first_key by done.
  intros [[-> ->]|[_ Hk]]%lookup_insert_Some; [lia|].
  specialize (IH Hk). lia.
Qed.

(** Induction on trees: a mapping has the property when its entries have
    it. *)
Lemma tree_map_ind (P : tree → Prop) :
  (∀ t, flat t → P t) →
  (∀ m, map_Forall (λ _, P) m → P (TMap m)) →
  ∀ t, P t.
Proof.
  intros Hflat Hmap t.
  assert (∀ n t, tree_depth t ≤ n → P t) as Hn; [|by apply (Hn (tree_depth t))].
  clear t. induction n as [|n IH]; intros t Ht.
  { destruct t; simpl in Ht; lia. }
  destruct t as [| | | | |m]; try (by apply Hflat).
  apply Hmap. intros k t Hk. apply IH.
  apply tree_depth_entries in Hk. simpl in Ht. lia.
Qed.

(** The loop of [construct_in] over the entries of a mapping, with the
    depth that the dump of the entries needs. *)
Lemma construct_entries_depth (m : gmap str tree) (h : list dict) :
  map_Forall (λ _ t,
     ∀ h0, ∃ v ext, construct_in t h0 = (v, h0 ++ ext)
                    ∧ represent (tree_depth t) (h0 ++ ext) v = Some t
                    ∧ tree_depth t ≤ S (length ext)) m →
  ∃ d ext,
    map_fold (λ k t (acc : dict * list dict),
                let '(v, h1) := construct_in t acc.2 in (<[k := v]> acc.1, h1))
             (∅, h) m = (d, h ++ ext)
    ∧ (∀ k, represent (map_fold (λ _ t' n, tree_depth t' `max` n) 0 m) (h ++ ext)
              <$> (d !! k) = Some <$> (m !! k))
    ∧ map_fold (λ _ t' n, tree_depth t' `max` n) 0 m ≤ S (length ext).
Proof.
  induction m as [|i x m Hi Hfirst IH] using map_first_key_ind; intros Hm.
  - exists ∅, []. rewrite !map_fold_empty, app_nil_r. split; [done|].
    split; [|lia]. intros k. by rewrite !lookup_empty.
  - rewrite !map_fold_insert_first_key by done.
    destruct IH as (d & ext & Hfold & Hd & Hlen).
    { intros k t Hk. apply (Hm k). rewrite lookup_insert_ne; [done|].
      intros <-. by rewrite Hi in Hk. }
    rewrite Hfold. cbn [snd fst].
    destruct (Hm i x (lookup_insert_eq _ _ _) (h ++ ext))
      as (v & ext' & -> & Hv & Hlen').
    exists (<[i := v]> d), (ext ++ ext'). rewrite app_assoc. split; [done|].
    split; [|rewrite length_app; lia].
    intros k. destruct (decide (k = i)) as [->|Hne].
    + rewrite !lookup_insert_eq. simpl. f_equal.
      eapply represent_deep; [exact Hv|lia].
    + rewrite !lookup_insert_ne by done. specialize (Hd k).
      destruct (d !! k) as [v'|], (m !! k) as [t'|]; simpl in *; try done.
      injection Hd as Hd. f_equal.
      eapply represent_deep; [by apply represent_app|lia].
Qed.

(** The value built for a tree is dumped as this tree, and the dictionaries
    that were there stay; the new dictionaries are at least as many as the
    mappings are deep. *)
Lemma construct_in_dumps (t : tree) :
  ∀ h, ∃ v ext, construct_in t h = (v, h ++ ext)
                ∧ represent (tree_depth t) (h ++ ext) v = Some t
                ∧ tree_depth t ≤ S (length ext).
Proof.
  induction t as [t Ht|m IH] using tree_map_ind; intros h.
  - exists (value_of t), []. rewrite app_nil_r.
    destruct t; try done; repeat split; simpl; lia.
  - destruct (construct_entries_depth m h IH) as (d & ext & Hfold & Hd & Hlen).
    exists (VRef (length (h ++ ext))), (ext ++ [d]).
    cbn [construct_in tree_depth]. rewrite Hfold, app_assoc. split; [done|].
    split; [|rewrite length_app; simpl; lia].
    apply represent_VRef. exists d, m. split.
    { by rewrite lookup_app_r, Nat.sub_diag. }
    split; [done|]. intros k. specialize (Hd k).
    destruct (d !! k) as [v'|], (m !! k) as [t'|]; simpl in *; try done.
    injection Hd as Hd. by rewrite (represent_app _ _ _ _ _ Hd).
Qed.

Lemma refs_from_le n n' v : refs_from n' v → n ≤ n' → refs_from n v.
Proof. destruct v; simpl; try done. lia. Qed.

Lemma dicts_from_le n n' ds : dicts_from n' ds → n ≤ n' → dicts_from n ds.
Proof.
  intros Hds Hn. eapply Forall_impl; [exact Hds|]. intros d Hd k v Hk.
  eapply refs_from_le; [|done]. by eapply Hd.
Qed.

(** The loop of [construct_in] over the entries of a mapping refers to new
    dictionaries only. *)
Lemma construct_entries_new (m : gmap str tree) (h : list dict) :
  (∀ k t, m !! k = Some t →
     ∀ h0, ∃ v ext, construct_in t h0 = (v, h0 ++ ext)
                    ∧ refs_from (length h0) v ∧ dicts_from (length h0) ext) →
  ∃ d ext,
    map_fold (λ k t (acc : dict * list dict),
                let '(v, h1) := construct_in t acc.2 in (<[k := v]> acc.1, h1))
             (∅, h) m = (d, h ++ ext)
    ∧ map_Forall (λ _, refs_from (length h)) d ∧ dicts_from (length h) ext.
Proof.
  induction m as [|i x m Hi Hfirst IH] using map_first_key_ind; intros Hm.
  - exists ∅, []. rewrite map_fold_empty, app_nil_r. split; [done|].
    split; [apply map_Forall_empty | apply Forall_nil_2].
  - rewrite map_fold_insert_first_key by done.
    destruct IH as (d & ext & Hfold & Hd & Hext).
    { intros k t Hk. apply (Hm k). rewrite lookup_insert_ne; [done|].
      intros <-. by rewrite Hi in Hk. }
    rewrite Hfold. cbn [snd fst].
    destruct (Hm i x (lookup_insert_eq _ _ _) (h ++ ext))
      as (v & ext' & -> & Hv & Hext').
    assert (length h ≤ length (h ++ ext)) as Hle by (rewrite length_app; lia).
    exists (<[i := v]> d), (ext ++ ext'). rewrite app_assoc. split; [done|].
    split.
    + apply map_Forall_insert_2; [by eapply refs_from_le|done].
    + apply Forall_app. split; [done|]. by eapply dicts_from_le.
Qed.

(** The value built for a tree refers to new dictionaries only, and so do
    these. *)
Lemma construct_in_new (t : tree) :
  ∀ h, ∃ v ext, construct_in t h = (v, h ++ ext)
                ∧ refs_from (length h) v ∧ dicts_from (length h) ext.
Proof.
  induction t as [t Ht|m IH] using tree_map_ind; intros h.
  - exists (value_of t), []. rewrite app_nil_r.
    destruct t; try done; repeat split; apply Forall_nil_2.
  - destruct (construct_entries_new m h) as (d & ext & Hfold & Hd & Hext).
    { intros k t Hk. by apply (IH k). }
    exists (VRef (length (h ++ ext))), (ext ++ [d]).
    cbn [construct_in]. rewrite Hfold, app_assoc. split; [done|].
    split; [simpl; rewrite length_app; lia|].
    apply Forall_app. split; [done|]. by apply Forall_singleton.
Qed.

(** The lines of the manifest. *)
Lemma single_line_lit_app (a m b : str) :
  single_line a → single_line m → single_line b → single_line (a ++ m ++ b).
Proof. intros. rewrite !single_line_app. done. Qed.

Lemma manifest_single_lines m (a c : bool) :
  single_line m →
  Forall single_line (manifest_head
                      ++ (if a then audiobookshelf_entry m else [])
                      ++ (if c then calibre_web_entry m else [])).
Proof.
  intros Hm.
  assert (Forall single_line (audiobookshelf_entry m)) as Ha.
  { repeat (apply Forall_cons; split;
            [first [reflexivity | by apply single_line_lit_app]|]).
    apply Forall_nil_2. }
  assert (Forall single_line (calibre_web_entry m)) as Hc.
  { repeat (apply Forall_cons; split;
            [first [reflexivity | by apply single_line_lit_app]|]).
    apply Forall_nil_2. }
  rewrite !Forall_app. split; [by repeat constructor|].
  destruct a, c; by repeat split.
Qed.

(** The text of [media_root] is put into the lines as it is: with line feeds
    in it, the manifest has lines that are no part of the two entries. *)
Example manifest_with_line_feeds :
  manifest_services
    (splitlines (join LF (manifest_head ++ audiobookshelf_entry root_with_line_feeds)))
  = [lit "audiobookshelf"; lit "evil"; lit "evil"].
Proof. vm_compute. reflexivity. Qed.

(** An empty last line declares no service. *)
Lemma manifest_services_drop_final_empty ls :
  manifest_services (drop_final_empty ls) = manifest_services ls.
Proof.
  unfold manifest_services.
  induction ls as [|l [|l' ls] IH]; [done| |].
  - simpl. case_bool_decide as Hl; [by subst|done].
  - change (drop_final_empty (l :: l' :: ls)) with (l :: drop_final_empty (l' :: ls)).
    cbn [omap list_omap]. by rewrite IH.
Qed.

(** ** The Settings Document and its tree *)

Lemma section_maps_flat s :
  map_Forall (λ _, flat) (wifi_map s) ∧ map_Forall (λ _, flat) (storage_map s)
  ∧ map_Forall (λ _, flat) (apps_map s) ∧ map_Forall (λ _, flat) (sync_map s).
Proof.
  repeat split;
    repeat (apply map_Forall_insert_2; [done|]);
    first [apply map_Forall_empty | by apply map_Forall_singleton].
Qed.

Lemma section_dicts_of_maps s :
  wifi_dict s = value_of <$> wifi_map s
  ∧ storage_dict s = value_of <$> storage_map s
  ∧ apps_dict s = value_of <$> apps_map s
  ∧ sync_dict s = value_of <$> sync_map s.
Proof. done. Qed.

(** A key that is none of the four section names. *)
Lemma settings_map_other s k :
  k ≠ lit "wifi" → k ≠ lit "storage" → k ≠ lit "apps" → k ≠ lit "sync" →
  settings_map s !! k = None.
Proof.
  intros. unfold settings_map.
  rewrite !lookup_insert_ne by done. by apply lookup_singleton_ne.
Qed.

Lemma top_dict_other a k :
  k ≠ lit "wifi" → k ≠ lit "storage" → k ≠ lit "apps" → k ≠ lit "sync" →
  top_dict a !! k = None.
Proof.
  intros. unfold top_dict.
  rewrite !lookup_insert_ne by done. by apply lookup_singleton_ne.
Qed.

Lemma related_at {A B} (f : A → option B) (d : gmap str A) (m : gmap str B) k v t :
  d !! k = Some v → m !! k = Some t → f v = Some t →
  f <$> (d !! k) = Some <$> (m !! k).
Proof. intros -> -> Hf. simpl. by rewrite Hf. Qed.

(** A Settings Document is dumped as its tree. *)
Lemma settings_represent h cfg s n :
  settings_at h cfg s → represent (S (S (S n))) h cfg = Some (settings_tree s).
Proof.
  intros (a & (l & -> & Hl) & Hw & Hs & Ha & Hy).
  destruct (section_maps_flat s) as (Fw & Fs & Fa & Fy).
  destruct (section_dicts_of_maps s) as (Dw & Ds & Da & Dy).
  assert (∀ l d (m : gmap str tree), h !! l = Some d → d = value_of <$> m →
            map_Forall (λ _, flat) m →
            represent (S (S n)) h (VRef l) = Some (TMap m)) as Hsec.
  { intros l' d m Hl' -> Hm. apply represent_VRef.
    exists (value_of <$> m), m. repeat split; [done|].
    intros k. by apply flat_dict. }
  apply represent_VRef. exists (top_dict a), (settings_map s).
  repeat split; [done|]. intros k.
  destruct (decide (k = lit "wifi")) as [->|];
    [by eapply related_at; [reflexivity | reflexivity | eapply Hsec]|].
  destruct (decide (k = lit "storage")) as [->|];
    [by eapply related_at; [reflexivity | reflexivity | eapply Hsec]|].
  destruct (decide (k = lit "apps")) as [->|];
    [by eapply related_at; [reflexivity | reflexivity | eapply Hsec]|].
  destruct (decide (k = lit "sync")) as [->|];
    [by eapply related_at; [reflexivity | reflexivity | eapply Hsec]|].
  by rewrite settings_map_other, top_dict_other.
Qed.

Lemma related_Some {A B} (f : A → option B) (v : A) (t : B) :
  f <$> Some v = Some <$> Some t → f v = Some t.
Proof. by intros [= ?]. Qed.

(** What is dumped as the tree of [s] is a Settings Document with the fields
    of [s]. *)
Lemma settings_of_represent h cfg s n :
  represent (S (S (S n))) h cfg = Some (settings_tree s) → settings_at h cfg s.
Proof.
  intros Hr. apply represent_TMap_inv in Hr as (l & d & -> & Hl & Hd).
  destruct (section_maps_flat s) as (Fw & Fs & Fa & Fy).
  assert (∀ k (m : gmap str tree),
            settings_map s !! k = Some (TMap m) → map_Forall (λ _, flat) m →
            ∃ l', d !! k = Some (VRef l') ∧ h !! l' = Some (value_of <$> m))
    as Hsec.
  { intros k m Hk Hm. specialize (Hd k). rewrite Hk in Hd.
    destruct (d !! k) as [v|]; [|done]. apply related_Some in Hd as Hv.
    apply represent_TMap_inv in Hv as (l' & d' & -> & Hl' & Hd').
    exists l'. split; [done|]. rewrite Hl'. f_equal. by eapply flat_dict_inv. }
  destruct (Hsec (lit "wifi") (wifi_map s) eq_refl Fw) as (lw & Hdw & Hw).
  destruct (Hsec (lit "storage") (storage_map s) eq_refl Fs) as (ls & Hds & Hs).
  destruct (Hsec (lit "apps") (apps_map s) eq_refl Fa) as (la & Hda & Ha).
  destruct (Hsec (lit "sync") (sync_map s) eq_refl Fy) as (ly & Hdy & Hy).
  exists (Sections lw ls la ly). split; [|done].
  exists l. split; [done|]. rewrite Hl. f_equal. apply map_eq. intros k.
  destruct (decide (k = lit "wifi")) as [->|]; [by rewrite Hdw|].
  destruct (decide (k = lit "storage")) as [->|]; [by rewrite Hds|].
  destruct (decide (k = lit "apps")) as [->|]; [by rewrite Hda|].
  destruct (decide (k = lit "sync")) as [->|]; [by rewrite Hdy|].
  rewrite top_dict_other by done. specialize (Hd k).
  rewrite settings_map_other in Hd by done. by destruct (d !! k).
Qed.

(** The objects built for the tree of [s] are a Settings Document with the
    fields of [s]; the dictionaries that were there stay. *)
Lemma construct_settings (s : settings) (h : list dict) :
  ∃ v ext, construct_in (settings_tree s) h = (v, h ++ ext)
           ∧ settings_at (h ++ ext) v s.
Proof.
  destruct (section_maps_flat s) as (Fw & Fs & Fa & Fy).
  destruct (construct_in_TMap 2 (settings_map s) h) as (v & ext & Hc & Hr).
  { intros k t Hk h0. apply construct_in_flat_map.
    unfold settings_map in Hk.
    apply lookup_insert_Some in Hk as [[_ <-]|[_ Hk]]; [done|].
    apply lookup_insert_Some in Hk as [[_ <-]|[_ Hk]]; [done|].
    apply lookup_insert_Some in Hk as [[_ <-]|[_ Hk]]; [done|].
    by apply lookup_singleton_Some in Hk as [_ <-]. }
  exists v, ext. split; [done|]. by eapply settings_of_represent.
Qed.

Lemma settings_populated h cfg s : settings_at h cfg s → populated h cfg = true.
Proof. intros (a & (l & -> & Hl) & _). unfold populated. simpl. by rewrite Hl. Qed.

(** ** The configuration file *)

Section store.
Context {Y : Yaml}.

Lemma dump_tree_settings cfg s w :
  settings_at (heap w) cfg s → dump_tree cfg w = (Ok (settings_tree s), w).
Proof.
  intros Hs. unfold dump_tree.
  assert (∃ n, length (heap w) = S (S n)) as [n ->].
  { destruct Hs as (a & (l & -> & Hl) & Hsec).
    destruct (settings_distinct _ _ _ _ Hl Hsec) as ((Hne & _) & _).
    destruct Hsec as (Hw & _).
    apply lookup_lt_Some in Hl, Hw.
    destruct (length (heap w)) as [|[|n]]; [lia | lia | eauto]. }
  by rewrite (settings_represent _ _ s).
Qed.

Lemma save_config_run cfg s w :
  settings_at (heap w) cfg s →
  creatable w (path_parent CONFIG_PATH) → writable w CONFIG_PATH →
  save_config cfg w
  = (Ok tt, set_files (<[CONFIG_PATH := safe_dump (settings_tree s)]> (files w))
              (set_dirs (dirs w ∪ list_to_set (path_parent CONFIG_PATH
                                               :: ancestors (path_parent CONFIG_PATH))) w)).
Proof.
  intros Hs Hdir Hfile. unfold save_config.
  rewrite (bind_run _ _ _ _ _ (mkdir_p_run _ _ Hdir)).
  assert (∀ f, writable (set_files f (set_dirs
            (dirs w ∪ list_to_set (path_parent CONFIG_PATH
                                   :: ancestors (path_parent CONFIG_PATH))) w))
            CONFIG_PATH) as Hopen.
  { intros f. unfold writable in *.
    change (denied (set_files ?f (set_dirs ?d ?w))) with (denied w).
    change (dirs (set_files ?f (set_dirs ?d ?w))) with d.
    rewrite !not_elem_of_union in *. destruct Hfile as [Hden Hdirs].
    split; [exact Hden|]. split; [exact Hdirs|]. not_listed. }
  assert (∀ f, in_place (set_files f (set_dirs
            (dirs w ∪ list_to_set (path_parent CONFIG_PATH
                                   :: ancestors (path_parent CONFIG_PATH))) w))
            CONFIG_PATH) as Hplace.
  { intros f. right. change (dirs (set_files ?f (set_dirs ?d ?w))) with d.
    apply elem_of_union. right. apply elem_of_list_to_set, list_elem_of_here. }
  rewrite (bind_run _ _ _ _ _ (write_text_run _ _ _ (Hopen (files w)) (Hplace (files w)))).
  erewrite bind_run; [|by apply dump_tree_settings].
  rewrite write_text_run; [|apply Hopen|apply Hplace].
  unfold set_files. cbn [files heap dirs modes denied ran].
  by rewrite insert_insert_eq.
Qed.

Lemma load_config_file w text t :
  files w !! CONFIG_PATH = Some text →
  safe_load (universal_newlines text) = Some t →
  load_config w = (Ok (construct_in t (heap w)).1,
                   set_heap (construct_in t (heap w)).2 w).
Proof.
  intros Hfile Ht. unfold load_config, bind, path_exists.
  rewrite bool_decide_eq_true_2.
  2:{ apply elem_of_union. left. by apply elem_of_dom. }
  unfold read_text. rewrite Hfile, Ht. unfold construct.
  by destruct (construct_in t (heap w)).
Qed.

End store.

(** ** The handler and the outcome of the commands *)

Lemma bind_inv {A B} (m : M A) (k : A → M B) w b w' :
  bind m k w = (Ok b, w') → ∃ a w1, m w = (Ok a, w1) ∧ k a w1 = (Ok b, w').
Proof. unfold bind. destruct (m w) as [[a|e] w1]; [eauto | done]. Qed.

Lemma bind_ext {A B} (m m' : M A) (k k' : A → M B) w :
  (∀ w0, m w0 = m' w0) → (∀ a w0, k a w0 = k' a w0) → bind m k w = bind m' k' w.
Proof.
  intros Hm Hk. unfold bind. rewrite Hm.
  destruct (m' w) as [[a|e] w1]; [apply Hk | done].
Qed.

Lemma best_effort_run {P : Subprocess} cmd w :
  try_pass (subprocess_run cmd) w = (Ok tt, set_ran (ran w ++ [cmd]) w).
Proof. unfold try_pass. by rewrite subprocess_run_world. Qed.

(** What the commands give changes nothing to a command started for the
    best. *)
Lemma best_effort_same (P P' : Subprocess) cmd w :
  try_pass (subprocess_run (P:=P) cmd) w = try_pass (subprocess_run (P:=P') cmd) w.
Proof. by rewrite !best_effort_run. Qed.

Ltac same_outcome :=
  repeat first
    [ apply best_effort_same
    | apply bind_ext; [intros ? | intros ? ?]
    | match goal with
      | |- (if ?b then _ else _) _ = _ => destruct b
      end
    | reflexivity ].

Lemma apply_wifi_config_same (P P' : Subprocess) cfg w :
  apply_wifi_config (P:=P) cfg w = apply_wifi_config (P:=P') cfg w.
Proof. unfold apply_wifi_config. same_outcome. Qed.

(** The handler returns the same response and leaves the same world,
    whatever comes of the commands it starts. *)
Lemma setup_same {Y : Yaml} (P P' : Subprocess) r w :
  setup (P:=P) r w = setup (P:=P') r w.
Proof.
  unfold setup. apply bind_ext; [done|]. intros cfg w0.
  destruct (bool_decide (method r = lit "POST")); [|done].
  apply bind_ext; [done|]. intros _ w1.
  apply bind_ext; [done|]. intros _ w2.
  apply bind_ext; [apply apply_wifi_config_same|]. intros _ w3.
  apply bind_ext; [done|]. intros p w4.
  apply bind_ext; [done|]. intros _ w5.
  apply bind_ext; [apply best_effort_same|]. done.
Qed.

(** ** Runs of the model *)

Example splitlines_sample :
  splitlines (lit "a" ++ [13; 10]%N ++ lit "b" ++ LF ++ LF ++ lit "c" ++ [8232]%N)
  = [lit "a"; lit "b"; []; lit "c"].
Proof. reflexivity. Qed.

Example strip_sample : strip (lit "  Reading Room " ++ [160; 10]%N) = lit "Reading Room".
Proof. reflexivity. Qed.

Example without_wlan0_sample :
  without_wlan0 false (splitlines sample_dhcpcd)
  = [lit "hostname"; lit "interface eth0"; lit "  metric 100"].
Proof. reflexivity. Qed.

Example dhcpcd_rewrite_sample :
  splitlines (dhcpcd_rewrite sample_dhcpcd (lit "192.168.4.1"))
  = [lit "hostname"; lit "interface eth0"; lit "  metric 100";
     lit "interface wlan0"; lit "  static ip_address=192.168.4.1/24";
     lit "  nohook wpa_supplicant"].
Proof. reflexivity. Qed.

(** A value with a line break in it, which is no address, can bring a second
    declaration. *)
Example dhcpcd_rewrite_two_lines :
  length (wlan0_blocks (splitlines
            (dhcpcd_rewrite sample_dhcpcd (lit "10.0.0.2" ++ LF ++ lit "interface wlan0"))))
  = 2.
Proof. reflexivity. Qed.

Example merged_sample :
  merged default_settings sample_form
  = {| wifi_ssid := lit "Reading Room";
       wifi_password := lit "lustybooks123";
       wifi_ip := lit "10.10.10.10";
       media_root := lit "/mnt/media";
       install_audiobookshelf := true;
       install_calibre_web := false;
       enable_sync := false;
       unraid_ip := lit "192.168.0.139";
       share_path_audio := lit "/data/media/audiobook";
       share_path_books := lit "/data/media/calibre" |}.
Proof. reflexivity. Qed.

Example block_yaml_sample :
  safe_load (Yaml:=block_yaml) partial_file
  = Some (TMap {[ lit "wifi" := TMap {[ lit "ssid" := TStr (lit "Home") ]} ]}).
Proof. vm_compute. reflexivity. Qed.

Example path_parent_sample : path_parent CONFIG_PATH = lit "/opt/lustylibrary-installer".
Proof. reflexivity. Qed.

(** A POST on the fresh machine, with commands that cannot be started: the
    two files are written and the stack is asked to come up. *)
Example post_on_fresh_machine :
  (setup (Y:=block_yaml) (P:=cannot_start) sample_post fresh_world).1
  = Ok (Redirect (lit "/setup"))
  ∧ elements (dom (files (setup (Y:=block_yaml) (P:=cannot_start)
                            sample_post fresh_world).2))
    = [CONFIG_PATH; compose_file]
  ∧ ran (setup (Y:=block_yaml) (P:=cannot_start) sample_post fresh_world).2
    = [[lit "docker"; lit "compose"; lit "-f"; compose_file;
        lit "up"; lit "-d"; lit "--build"]].
Proof. repeat split; vm_compute; reflexivity. Qed.

(** The page of the form does not show the network name. *)
Example page_without_values :
  contains FORM_TEMPLATE (lit "LustyLibrary") = false
  ∧ contains FORM_TEMPLATE (lit "<input") = false.
Proof. split; reflexivity. Qed.

(** * The claims *)

(** C7. Rewriting dhcpcd.conf with a first address and then with a second
    leaves one block for wlan0, the block of the second address, whatever
    the file held before and whatever the first address was; and a block
    for wlan0 that no interface declaration closes is removed up to the end
    of the file.  An address is a single line. *)
Theorem dhcpcd_rewritten_twice {P : Subprocess} w cfg1 cfg2 s1 s2 content :
  settings_at (heap w) cfg1 s1 →
  settings_at (heap w) cfg2 s2 →
  files w !! dhcpcd_conf = Some content →
  writable w dhcpcd_conf →
  writable w hostapd_conf →
  single_line (wifi_ip s2) →
  (∃ w' text,
     (apply_wifi_config cfg1 ;; apply_wifi_config cfg2) w = (Ok tt, w')
     ∧ files w' !! dhcpcd_conf = Some text
     ∧ wlan0_blocks (splitlines text) = [static_block (wifi_ip s2)])
  ∧ (∀ skip before decl after,
       startswith decl (lit "interface wlan0") = true →
       Forall (λ l, startswith l (lit "interface ") = false) after →
       without_wlan0 skip (before ++ decl :: after) = without_wlan0 skip before).
Proof.
  intros Hs1 Hs2 Hfile Hd Hh Hip. split.
  - assert (wp (apply_wifi_config cfg1 ;; apply_wifi_config cfg2)
              (λ _ w', ∃ text, files w' !! dhcpcd_conf = Some text
                 ∧ wlan0_blocks (splitlines text) = [static_block (wifi_ip s2)]) w)
      as Hwp.
    { apply wp_bind.
      eapply wp_mono; [by eapply apply_wifi_config_run|].
      intros _ w1 (Hheap & Hdirs & Hden & Hfile1).
      eapply wp_mono.
      - eapply apply_wifi_config_run; [by rewrite Hheap | done | ..];
          unfold writable; by rewrite Hden, Hdirs.
      - intros _ w2 (_ & _ & _ & Hfile2). eexists. split; [done|].
        by apply dhcpcd_rewrite_blocks. }
    apply wp_run in Hwp as ([] & w' & Hrun & text & Htext & Hblocks). eauto.
  - intros. by apply without_wlan0_open_block.
Qed.

Lemma dhcpcd_rewritten_twice_witness :
  (∃ w' text,
     (apply_wifi_config (P:=cannot_start) DEFAULT_CONFIG ;;
      apply_wifi_config (P:=cannot_start) (VRef 9)) router_world = (Ok tt, w')
     ∧ files w' !! dhcpcd_conf = Some text
     ∧ wlan0_blocks (splitlines text) = [static_block (lit "192.168.4.1")])
  ∧ (∀ skip before decl after,
       startswith decl (lit "interface wlan0") = true →
       Forall (λ l, startswith l (lit "interface ") = false) after →
       without_wlan0 skip (before ++ decl :: after) = without_wlan0 skip before).
Proof.
  apply (dhcpcd_rewritten_twice (P:=cannot_start) router_world DEFAULT_CONFIG (VRef 9)
           default_settings other_settings sample_dhcpcd).
  - exists (Sections 0 1 2 3). split; [by exists 4 | by repeat split].
  - exists (Sections 5 6 7 8). split; [by exists 9 | by repeat split].
  - reflexivity.
  - vm_compute. intros Hin. discriminate Hin.
  - vm_compute. intros Hin. discriminate Hin.
  - reflexivity.
Defined.

(** C5. For every stored Settings Document and every submission, the merge
    returns and leaves the document with the fields of [merged]: a text
    field is replaced, by the trimmed submitted value, only if that value is
    not empty, and keeps the stored value otherwise; a checkbox is true
    exactly when its key was submitted.  Nothing but the dictionaries of the
    document changes. *)
Theorem setup_merge_overlays r cfg s w :
  settings_at (heap w) cfg s →
  ∃ h', setup_merge r cfg w = (Ok tt, set_heap h' w)
        ∧ settings_at h' cfg (merged s (form r)).
Proof.
  intros (a & Hdoc & Hs).
  exists (with_sections a (merged s (form r)) (heap w)).
  split; [by apply setup_merge_run|].
  destruct Hdoc as (l & -> & Hl). by eapply with_sections_settings.
Qed.

Lemma setup_merge_overlays_witness :
  ∃ h', setup_merge sample_post DEFAULT_CONFIG fresh_world
        = (Ok tt, set_heap h' fresh_world)
        ∧ settings_at h' DEFAULT_CONFIG (merged default_settings sample_form).
Proof.
  apply (setup_merge_overlays sample_post DEFAULT_CONFIG default_settings fresh_world).
  exists (Sections 0 1 2 3). split; [by exists 4 | by repeat split].
Defined.

(** C10. Without a configuration file, [load_config] returns a new
    dictionary with the very entries of [DEFAULT_CONFIG], so that the four
    section dictionaries are those of the defaults; a POST therefore writes
    the submitted fields into the defaults, and the next [load_config] that
    still finds no configuration file returns the merged fields. *)
Theorem defaults_shared_with_loaded_copy {Y : Yaml} {P : Subprocess} r s w :
  method r = lit "POST" →
  settings_at (heap w) DEFAULT_CONFIG s →
  CONFIG_PATH ∉ dom (files w) ∪ dirs w →
  (∃ top, heap w !! 4 = Some top
          ∧ load_config w
            = (Ok (VRef (length (heap w))), set_heap (heap w ++ [top]) w))
  ∧ settings_at (heap (setup r w).2) DEFAULT_CONFIG (merged s (form r))
  ∧ (CONFIG_PATH ∉ dom (files (setup r w).2) ∪ dirs (setup r w).2 →
     ∃ cfg w', load_config (setup r w).2 = (Ok cfg, w')
               ∧ settings_at (heap w') cfg (merged s (form r))).
Proof.
  intros Hpost (a & (l & Hl4 & Hl) & Hs) Hno.
  injection Hl4 as <-.
  pose proof (load_config_default w _ Hno Hl) as Hload.
  destruct (copy_settings _ _ _ s _ Hl Hs eq_refl) as (Hcopy & Hdef & Hs0).
  pose proof (setup_post_heap r w _ _ a s Hpost Hload Hcopy Hs0) as Hheap.
  simpl in Hheap.
  assert (settings_at (heap (setup r w).2) DEFAULT_CONFIG (merged s (form r)))
    as Hafter.
  { rewrite Hheap. destruct Hdef as (l' & Hl' & Htop). injection Hl' as <-.
    by eapply with_sections_settings. }
  split; [eauto|]. split; [done|].
  intros Hno'. destruct Hafter as (a' & (l' & Hl' & Htop') & Hs').
  injection Hl' as <-.
  eexists _, _. split; [by apply load_config_default|].
  destruct (copy_settings _ _ _ _ _ Htop' Hs' eq_refl) as (Hcopy' & _ & Hs'').
  by exists a'.
Qed.

Lemma defaults_shared_with_loaded_copy_witness :
  let after := (setup (Y:=block_yaml) (P:=cannot_start) sample_post locked_world).2 in
  settings_at (heap after) DEFAULT_CONFIG (merged default_settings sample_form)
  ∧ ∃ cfg w', load_config (Y:=block_yaml) after = (Ok cfg, w')
              ∧ settings_at (heap w') cfg (merged default_settings sample_form).
Proof.
  destruct (defaults_shared_with_loaded_copy (Y:=block_yaml) (P:=cannot_start)
              sample_post default_settings locked_world) as (_ & Hdefaults & Hload).
  - reflexivity.
  - exists (Sections 0 1 2 3). split; [by exists 4 | by repeat split].
  - vm_compute. intros Hin. discriminate Hin.
  - split; [exact Hdefaults|]. apply Hload.
    vm_compute. intros Hin. discriminate Hin.
Defined.

(** C3 (the code departs from the claim). No GET request to [/] is
    answered by a redirect to [/setup]: line 346 lacks its closing
    parenthesis, so that the text of [index] is no Python and a
    [SyntaxError] is all that comes of it, whatever the request carries and
    whatever the state of the machine; the world is left as it was. *)
Theorem index_raises_syntax_error {Y : Yaml} {P : Subprocess} r w :
  method r = lit "GET" →
  app (lit "/") r w = (Raise SyntaxError, w)
  ∧ ∀ location w', app (lit "/") r w ≠ (Ok (Redirect location), w').
Proof.
  intros Hget.
  assert (app (lit "/") r w = (Raise SyntaxError, w)) as Happ.
  { unfold app. simpl. by rewrite bool_decide_eq_true_2. }
  split; [done|]. intros location w'. by rewrite Happ.
Qed.

Lemma index_raises_syntax_error_witness :
  app (Y:=block_yaml) (P:=cannot_start) (lit "/") sample_get fresh_world
  = (Raise SyntaxError, fresh_world)
  ∧ ∀ location w',
      app (Y:=block_yaml) (P:=cannot_start) (lit "/") sample_get fresh_world
      ≠ (Ok (Redirect location), w').
Proof.
  apply (index_raises_syntax_error (Y:=block_yaml) (P:=cannot_start)
           sample_get fresh_world).
  reflexivity.
Defined.

(** C9. For a document whose [enable_sync] is false, [apply_sync_config]
    returns at once: the world after it is the world before it, so that no
    script is written and a script already at the path stays as it is. *)
Theorem apply_sync_config_disabled cfg s w :
  settings_at (heap w) cfg s →
  enable_sync s = false →
  apply_sync_config cfg w = (Ok tt, w).
Proof.
  intros Hs Hoff. unfold apply_sync_config.
  erewrite bind_run; [|by eapply settings_getitem2].
  rewrite Hoff. reflexivity.
Qed.

Lemma apply_sync_config_disabled_witness :
  apply_sync_config DEFAULT_CONFIG router_world = (Ok tt, router_world).
Proof.
  apply (apply_sync_config_disabled DEFAULT_CONFIG default_settings router_world).
  - exists (Sections 0 1 2 3). split; [by exists 4 | by repeat split].
  - reflexivity.
Defined.

(** C2 (the code departs from the claim). For every GET request to
    [/setup] whose document loads, the page is the three dots that line 342
    binds to [FORM_TEMPLATE]: it has no field and shows no value of the
    document. *)
Theorem setup_get_renders_placeholder {Y : Yaml} {P : Subprocess} r w cfg w' :
  method r = lit "GET" →
  load_config w = (Ok cfg, w') →
  setup r w = (Ok (Html (lit "...")), w').
Proof.
  intros Hget Hload. unfold setup. rewrite (bind_run _ _ _ _ _ Hload).
  rewrite Hget. reflexivity.
Qed.

Lemma setup_get_renders_placeholder_witness :
  setup (Y:=block_yaml) (P:=cannot_start) sample_get fresh_world
  = (Ok (Html (lit "...")), set_heap (module_heap ++ [top_dict (Sections 0 1 2 3)]) fresh_world).
Proof.
  apply (setup_get_renders_placeholder (Y:=block_yaml) (P:=cannot_start)
           sample_get fresh_world (VRef 5)).
  - reflexivity.
  - reflexivity.
Defined.

(** C6. For every Settings Document whose [media_root] is a single line,
    the manifest that [generate_docker_compose] writes, read line by line
    as it is on disk, has one service entry for each flag that is set and
    none for a flag that is not, the entry of the audiobook service before
    that of the e-book service: with only [install_audiobookshelf] set it
    has exactly one entry, the audiobook one. *)
Theorem manifest_lists_enabled_services cfg s w :
  settings_at (heap w) cfg s →
  single_line (media_root s) →
  creatable w compose_dir →
  writable w compose_file →
  ∃ text,
    files (generate_docker_compose cfg w).2 !! compose_file = Some text
    ∧ manifest_services (splitlines text) = enabled_services s
    ∧ (install_audiobookshelf s = true → install_calibre_web s = false →
       manifest_services (splitlines text) = [lit "audiobookshelf"])
    ∧ (install_audiobookshelf s = true → install_calibre_web s = true →
       manifest_services (splitlines text)
       = [lit "audiobookshelf"; lit "calibre-web"]).
Proof.
  intros Hs Hm Hdir Hfile. eexists. split.
  - rewrite (generate_docker_compose_files cfg s w) by done.
    apply lookup_insert_eq.
  - rewrite splitlines_join_lines by (by apply manifest_single_lines).
    rewrite manifest_services_drop_final_empty, manifest_services_lines.
    unfold enabled_services.
    split; [done|]. split; by intros -> ->.
Qed.

Lemma manifest_lists_enabled_services_witness :
  ∃ text,
    files (generate_docker_compose (VRef 9) router_world).2 !! compose_file
    = Some text
    ∧ manifest_services (splitlines text) = enabled_services other_settings
    ∧ (install_audiobookshelf other_settings = true →
       install_calibre_web other_settings = false →
       manifest_services (splitlines text) = [lit "audiobookshelf"])
    ∧ (install_audiobookshelf other_settings = true →
       install_calibre_web other_settings = true →
       manifest_services (splitlines text)
       = [lit "audiobookshelf"; lit "calibre-web"]).
Proof.
  apply (manifest_lists_enabled_services (VRef 9) other_settings router_world).
  - exists (Sections 5 6 7 8). split; [by exists 9 | by repeat split].
  - reflexivity.
  - reflexivity.
  - vm_compute. intros Hin. discriminate Hin.
Defined.

(** C8. For every Settings Document, on a file system that lets the file be
    written and with a YAML library that reads back what it wrote for this
    document, saving and then loading returns a Settings Document with the
    same value in every field. *)
Theorem save_then_load {Y : Yaml} cfg s w :
  settings_at (heap w) cfg s →
  safe_load (universal_newlines (safe_dump (settings_tree s)))
  = Some (settings_tree s) →
  creatable w (path_parent CONFIG_PATH) →
  writable w CONFIG_PATH →
  ∃ cfg' w', (save_config cfg ;; load_config) w = (Ok cfg', w')
             ∧ settings_at (heap w') cfg' s.
Proof.
  intros Hs Hyaml Hdir Hfile.
  rewrite (bind_run _ _ _ _ _ (save_config_run cfg s w Hs Hdir Hfile)).
  erewrite load_config_file; [|apply lookup_insert_eq|exact Hyaml].
  destruct (construct_settings s (heap w)) as (v & ext & Hc & Hs').
  eexists _, _. split; [done|]. cbn [heap set_files set_dirs set_heap].
  by rewrite Hc.
Qed.

Lemma save_then_load_witness :
  ∃ cfg' w', (save_config (Y:=block_yaml) DEFAULT_CONFIG ;;
              load_config (Y:=block_yaml)) fresh_world = (Ok cfg', w')
             ∧ settings_at (heap w') cfg' default_settings.
Proof.
  apply (save_then_load (Y:=block_yaml) DEFAULT_CONFIG default_settings fresh_world).
  - exists (Sections 0 1 2 3). split; [by exists 4 | by repeat split].
  - vm_compute. reflexivity.
  - reflexivity.
  - vm_compute. intros Hin. discriminate Hin.
Defined.

(** C4, as it is stated, fails: a settings file with the [wifi] section only
    loads as a document without the three other sections. *)
Lemma load_config_does_not_backfill :
  let cfg := VRef 6 in
  let h' := module_heap ++ [ {[ lit "ssid" := VStr (lit "Home") ]};
                             {[ lit "wifi" := VRef 5 ]} ] in
  load_config (Y:=block_yaml) partial_world = (Ok cfg, set_heap h' partial_world)
  ∧ has_key h' cfg (lit "wifi") = true
  ∧ has_key h' cfg (lit "storage") = false
  ∧ populated h' cfg = false.
Proof. repeat split; vm_compute; reflexivity. Qed.

(** C4, amended. When the backing file exists, [load_config] returns the
    document of the file exactly as it was parsed: the document it returns
    is dumped as the very tree that the parser gave, so that it has the
    sections, the keys and the values of the file and no other; and it is
    made of new dictionaries, it and they refer to none that was there, so
    that nothing is taken from the defaults, which stay as they are.  When
    there is no file it returns a copy of the default document, which has
    the four sections. *)
Theorem load_config_as_stored {Y : Yaml} w :
  (∀ text t,
     files w !! CONFIG_PATH = Some text →
     safe_load (universal_newlines text) = Some t →
     ∃ cfg w' ext,
       load_config w = (Ok cfg, w')
       ∧ dump_tree cfg w' = (Ok t, w')
       ∧ (∀ k, has_key (heap w') cfg k = tree_has_key t k)
       ∧ heap w' = heap w ++ ext
       ∧ refs_from (length (heap w)) cfg
       ∧ dicts_from (length (heap w)) ext)
  ∧ (∀ s,
       CONFIG_PATH ∉ dom (files w) ∪ dirs w →
       settings_at (heap w) DEFAULT_CONFIG s →
       ∃ cfg w', load_config w = (Ok cfg, w')
                 ∧ settings_at (heap w') cfg s
                 ∧ populated (heap w') cfg = true).
Proof.
  split.
  - intros text t Hfile Ht.
    destruct (construct_in_dumps t (heap w)) as (v & ext & Hc & Hr & Hlen).
    destruct (construct_in_new t (heap w)) as (v' & ext' & Hc' & Hv & Hext).
    assert (v' = v ∧ ext' = ext) as [-> ->].
    { rewrite Hc in Hc'. injection Hc' as Hv' Heq.
      apply app_inv_head in Heq. split; [symmetry; exact Hv' | symmetry; exact Heq]. }
    pose proof (load_config_file w text t Hfile Ht) as Hload.
    pose proof (construct_in_has_key t (heap w)) as Hkeys.
    rewrite Hc in Hload, Hkeys. cbn [fst snd] in Hload, Hkeys.
    exists v, (set_heap (heap w ++ ext) w), ext.
    split; [exact Hload|]. split; [|split; [exact Hkeys|by repeat split]].
    unfold dump_tree. rewrite heap_set_heap.
    rewrite (represent_deep _ (S (length (heap w ++ ext))) _ _ _ Hr); [done|].
    rewrite length_app. lia.
  - intros s Hno (a & (l & Hl4 & Hl) & Hs). injection Hl4 as <-.
    eexists _, _. split; [by apply load_config_default|].
    destruct (copy_settings _ _ _ s _ Hl Hs eq_refl) as (Hcopy & _ & Hs').
    assert (settings_at (heap w ++ [top_dict a]) (VRef (length (heap w))) s)
      as Hat by by exists a.
    split; [done|]. by eapply settings_populated.
Qed.

Lemma load_config_as_stored_witness :
  (∃ cfg w' ext,
     load_config (Y:=block_yaml) partial_world = (Ok cfg, w')
     ∧ dump_tree cfg w' = (Ok partial_tree, w')
     ∧ (∀ k, has_key (heap w') cfg k = tree_has_key partial_tree k)
     ∧ heap w' = heap partial_world ++ ext
     ∧ refs_from (length (heap partial_world)) cfg
     ∧ dicts_from (length (heap partial_world)) ext)
  ∧ (∃ cfg w', load_config (Y:=block_yaml) fresh_world = (Ok cfg, w')
               ∧ settings_at (heap w') cfg default_settings
               ∧ populated (heap w') cfg = true).
Proof.
  split.
  - apply (proj1 (load_config_as_stored (Y:=block_yaml) partial_world) partial_file).
    + reflexivity.
    + vm_compute. reflexivity.
  - apply (proj2 (load_config_as_stored (Y:=block_yaml) fresh_world) default_settings).
    + vm_compute. intros Hin. discriminate Hin.
    + exists (Sections 0 1 2 3). split; [by exists 4 | by repeat split].
Defined.

(** C1. For every POST to [/setup]: once the merged document is persisted
    and the three writers have returned, the handler answers with a
    redirect to [/setup], and it does so whatever comes of the commands it
    starts (the two restarts and the bring-up of the stack), be it a
    failure status or a program that cannot be started. *)
Theorem setup_post_redirects {Y : Yaml} {P : Subprocess} r w cfg w0 compose_path w1 :
  method r = lit "POST" →
  load_config w = (Ok cfg, w0) →
  (setup_merge r cfg ;; save_config cfg ;; apply_wifi_config cfg ;;
   p <- generate_docker_compose cfg ;; apply_sync_config cfg ;; ret p) w0
  = (Ok compose_path, w1) →
  ∀ P' : Subprocess,
    setup (P:=P') r w
    = (Ok (Redirect (lit "/setup")),
       set_ran (ran w1 ++ [[lit "docker"; lit "compose"; lit "-f"; compose_path;
                            lit "up"; lit "-d"; lit "--build"]]) w1).
Proof.
  intros Hpost Hload Hsteps P'. rewrite (setup_same P' P).
  apply bind_inv in Hsteps as ([] & wa & Hmerge & Hsteps).
  apply bind_inv in Hsteps as ([] & wb & Hsave & Hsteps).
  apply bind_inv in Hsteps as ([] & wc & Hwifi & Hsteps).
  apply bind_inv in Hsteps as (p & wd & Hgen & Hsteps).
  apply bind_inv in Hsteps as ([] & we & Hsync & Hret).
  injection Hret as -> ->.
  unfold setup. rewrite (bind_run _ _ _ _ _ Hload).
  rewrite bool_decide_eq_true_2 by done.
  rewrite (bind_run _ _ _ _ _ Hmerge), (bind_run _ _ _ _ _ Hsave).
  rewrite (bind_run _ _ _ _ _ Hwifi), (bind_run _ _ _ _ _ Hgen).
  rewrite (bind_run _ _ _ _ _ Hsync).
  rewrite (bind_run _ _ _ _ _ (best_effort_run _ _)).
  reflexivity.
Qed.

Lemma setup_post_redirects_witness :
  ∃ w', setup (Y:=block_yaml) (P:=cannot_start) sample_post fresh_world
        = (Ok (Redirect (lit "/setup")), w').
Proof.
  eexists.
  eapply (setup_post_redirects (Y:=block_yaml) (P:=exits_with 1)
            sample_post fresh_world).
  - reflexivity.
  - vm_compute. reflexivity.
  - vm_compute. reflexivity.
Defined.

(** * Further properties of the code *)

(** ** dhcpcd.conf *)

(** Without a block open, lines that declare no wlan0 are all kept. *)
Lemma without_wlan0_keeps before rest :
  Forall (λ l, declares_wlan0 l = false) before →
  without_wlan0 false (before ++ rest) = before ++ without_wlan0 false rest.
Proof.
  induction before as [|l before IH]; intros Hb; [done|].
  apply Forall_cons in Hb as [Hl Hb]. unfold declares_wlan0 in Hl.
  simpl. rewrite Hl. simpl. by rewrite IH.
Qed.

(** X1. The loop over dhcpcd.conf removes a block for wlan0 and nothing
    else: the lines before the declaration and the lines from the next
    interface declaration on are kept, in their order. *)
Theorem without_wlan0_removes_block before decl body next after :
  Forall (λ l, declares_wlan0 l = false) before →
  declares_wlan0 decl = true →
  Forall (λ l, declares_interface l = false) body →
  declares_interface next = true →
  declares_wlan0 next = false →
  without_wlan0 false (before ++ decl :: body ++ next :: after)
  = before ++ next :: without_wlan0 false after.
Proof.
  intros Hbefore Hdecl Hbody Hnext Hnext'. unfold declares_wlan0, declares_interface in *.
  rewrite without_wlan0_keeps by done. f_equal.
  cbn [without_wlan0]. rewrite Hdecl.
  induction body as [|l body IH]; simpl.
  - by rewrite Hnext', Hnext.
  - apply Forall_cons in Hbody as [Hl Hbody].
    destruct (startswith l (lit "interface wlan0")) eqn:Hw.
    { apply startswith_wlan0_interface in Hw. congruence. }
    rewrite Hl. simpl. by apply IH.
Qed.

Lemma without_wlan0_removes_block_witness :
  without_wlan0 false three_blocks
  = [ lit "hostname pi"; lit "interface eth0"; lit "  metric 100";
      lit "interface usb0"; lit "  metric 300" ].
Proof.
  apply (without_wlan0_removes_block
           [lit "hostname pi"; lit "interface eth0"; lit "  metric 100"]
           (lit "interface wlan0")
           [lit "  static ip_address=10.0.0.1/24"; lit "  nohook wpa_supplicant"]
           (lit "interface usb0") [lit "  metric 300"]).
  - repeat constructor.
  - reflexivity.
  - repeat constructor.
  - reflexivity.
  - reflexivity.
Defined.

Lemma without_wlan0_id lines :
  Forall (λ l, declares_wlan0 l = false) lines → without_wlan0 false lines = lines.
Proof.
  intros Hl. rewrite <- (app_nil_r lines) at 1.
  rewrite without_wlan0_keeps by done. by rewrite app_nil_r.
Qed.

(** A second rewrite starts from the lines the first one kept. *)
Lemma dhcpcd_rewrite_absorbs text ip1 ip2 :
  single_line ip1 →
  dhcpcd_rewrite (universal_newlines (dhcpcd_rewrite text ip1)) ip2
  = dhcpcd_rewrite text ip2.
Proof.
  intros Hip. unfold dhcpcd_rewrite at 1 3. f_equal.
  rewrite splitlines_universal_newlines.
  unfold dhcpcd_rewrite. rewrite wlan0_block_lines.
  rewrite splitlines_join
    by apply without_wlan0_Forall, splitlines_single_line.
  rewrite !splitlines_line; try done.
  2:{ apply single_line_app. split; [done|]. apply single_line_app. done. }
  pose proof (without_wlan0_none false (splitlines text)) as Hnone.
  set (kept := without_wlan0 false (splitlines text)) in *.
  change (splitlines []) with (@nil str).
  rewrite (without_wlan0_open_block false
             (match kept with [] => [[]] | _ => kept end)
             (lit "interface wlan0")
             [lit "  static ip_address=" ++ ip1 ++ lit "/24";
              lit "  nohook wpa_supplicant"]); [|done|by repeat constructor].
  destruct kept as [|l kept]; [done|].
  by rewrite without_wlan0_id.
Qed.

(** ** The network files *)

Lemma drop_final_empty_length (ls : list str) :
  length (drop_final_empty ls) = length ls
  ∨ S (length (drop_final_empty ls)) = length ls.
Proof.
  induction ls as [|l [|l' ls] IH].
  - by left.
  - simpl. case_bool_decide; [by right | by left].
  - change (drop_final_empty (l :: l' :: ls)) with (l :: drop_final_empty (l' :: ls)).
    cbn [length]. destruct IH as [IH|IH]; [left | right]; by rewrite IH.
Qed.

Lemma hostapd_lines_run a b lines w :
  hostapd_lines (VStr a) (VStr b) lines w = (Ok (hostapd_replace a b <$> lines), w).
Proof.
  induction lines as [|l lines IH]; [done|].
  cbn [hostapd_lines fmap list_fmap]. unfold hostapd_replace at 1.
  destruct (startswith l (lit "ssid=")).
  { unfold bind at 1. cbn. unfold bind at 1. by rewrite IH. }
  destruct (startswith l (lit "wpa_passphrase=")).
  { unfold bind at 1. cbn. unfold bind at 1. by rewrite IH. }
  unfold bind at 1. cbn. unfold bind at 1. by rewrite IH.
Qed.

Lemma read_text_run p text w :
  files w !! p = Some text → read_text p w = (Ok (universal_newlines text), w).
Proof. intros Hp. unfold read_text. by rewrite Hp. Qed.

Lemma rewritten_frame p f service w :
  heap (rewritten p f service w) = heap w
  ∧ dirs (rewritten p f service w) = dirs w
  ∧ modes (rewritten p f service w) = modes w
  ∧ denied (rewritten p f service w) = denied w.
Proof. unfold rewritten. by destruct (files w !! p). Qed.

Lemma rewritten_files_eq p f service w :
  files (rewritten p f service w) !! p
  = (λ text, f (universal_newlines text)) <$> files w !! p.
Proof.
  unfold rewritten. destruct (files w !! p) as [text|] eqn:Hp; [|by rewrite Hp].
  cbn. by rewrite lookup_insert_eq.
Qed.

Lemma rewritten_files_ne p q f service w :
  p ≠ q → files (rewritten p f service w) !! q = files w !! q.
Proof.
  intros Hpq. unfold rewritten. destruct (files w !! p) as [text|]; [|done].
  cbn. by rewrite lookup_insert_ne.
Qed.

Lemma rewritten_dom p f service w :
  dom (files (rewritten p f service w)) = dom (files w).
Proof.
  unfold rewritten. destruct (files w !! p) as [text|] eqn:Hp; [|done].
  cbn. rewrite dom_insert_L. apply elem_of_dom_2 in Hp.
  apply subseteq_union_1_L. by apply singleton_subseteq_l.
Qed.

Lemma rewritten_ran p f service w :
  ran (rewritten p f service w)
  = ran w ++ (if files w !! p is Some _ then [restart service] else []).
Proof.
  unfold rewritten. destruct (files w !! p) as [text|]; [done|].
  by rewrite app_nil_r.
Qed.

Lemma hostapd_not_dhcpcd : hostapd_conf ≠ dhcpcd_conf.
Proof. intros Heq. apply (f_equal length) in Heq. vm_compute in Heq. discriminate Heq. Qed.

Section network.
Context {P : Subprocess}.

Lemma rewrite_part_run p f service w :
  writable w p →
  (found <- path_exists p ;;
   if (found : bool) then
     text <- read_text p ;;
     write_text p (f text) ;;
     try_pass (subprocess_run (restart service))
   else ret tt) w
  = (Ok tt, rewritten p f service w).
Proof.
  intros Hp. unfold rewritten.
  rewrite (bind_run _ _ w (bool_decide (p ∈ dom (files w))) w).
  2:{ unfold path_exists. f_equal. f_equal. apply bool_decide_ext.
      rewrite elem_of_union. split; [|by left].
      intros [?|Hd]; [done|]. destruct Hp. apply elem_of_union. by right. }
  destruct (files w !! p) as [text|] eqn:Hfile.
  - rewrite bool_decide_eq_true_2 by (apply elem_of_dom; eauto).
    rewrite (bind_run _ _ w (universal_newlines text) w)
      by (by apply read_text_run).
    erewrite bind_run
      by (apply write_text_run; [done | left; by eapply elem_of_dom_2]).
    by rewrite best_effort_run.
  - rewrite bool_decide_eq_false_2; [done|].
    by rewrite not_elem_of_dom.
Qed.

Lemma rewrite_part_then {B} p (body : M unit) f service (rest : M B) w :
  writable w p →
  (∀ text, files w !! p = Some text → body w = (Ok tt, rewritten p f service w)) →
  (found <- path_exists p ;;
   (if (found : bool) then body else ret tt) ;;
   rest) w
  = rest (rewritten p f service w).
Proof.
  intros Hp Hbody.
  rewrite (bind_run _ _ w (bool_decide (p ∈ dom (files w))) w).
  2:{ unfold path_exists. f_equal. f_equal. apply bool_decide_ext.
      rewrite elem_of_union. split; [|by left].
      intros [?|Hd]; [done|]. destruct Hp. apply elem_of_union. by right. }
  destruct (files w !! p) as [text|] eqn:Hfile.
  - rewrite bool_decide_eq_true_2 by (apply elem_of_dom; eauto).
    by erewrite (bind_run _ _ w tt) by (by eapply Hbody).
  - rewrite bool_decide_eq_false_2 by (by rewrite not_elem_of_dom).
    unfold rewritten. by rewrite Hfile.
Qed.

(** What [apply_wifi_config] does for a Settings Document. *)
Lemma apply_wifi_config_full w cfg s :
  settings_at (heap w) cfg s →
  writable w hostapd_conf → writable w dhcpcd_conf →
  apply_wifi_config cfg w = (Ok tt, wifi_applied s w).
Proof.
  intros Hs Hh Hd. unfold apply_wifi_config.
  erewrite bind_run by (by eapply settings_getitem2).
  erewrite bind_run by (by eapply settings_getitem2).
  erewrite bind_run by (by eapply settings_getitem2).
  pose proof (rewritten_frame hostapd_conf
                (hostapd_rewrite (wifi_ssid s) (wifi_password s))
                (lit "hostapd") w) as (_ & Hdirs & _ & Hden).
  cbv zeta.
  rewrite (rewrite_part_then hostapd_conf _
             (hostapd_rewrite (wifi_ssid s) (wifi_password s)) (lit "hostapd")).
  - rewrite (bind_run _ _ _ (wifi_ip s) _) by done.
    unfold wifi_applied.
    rewrite <- (rewrite_part_run dhcpcd_conf (λ text, dhcpcd_rewrite text (wifi_ip s))).
    2:{ unfold writable. by rewrite Hden, Hdirs. }
    done.
  - done.
  - intros text Hfile. unfold rewritten. rewrite Hfile.
    rewrite (bind_run _ _ w (universal_newlines text) w)
      by (by apply read_text_run).
    rewrite (bind_run _ _ w _ w) by apply hostapd_lines_run.
    erewrite bind_run
      by (apply write_text_run; [done | left; by eapply elem_of_dom_2]).
    by rewrite best_effort_run.
Qed.

(** X2. When hostapd.conf is there, [apply_wifi_config] rewrites it line
    by line, for a name and a password that are single lines: the lines of
    the new file are the lines of the old one, in their order, where every
    line that starts with [ssid=] has become [ssid=] with the name of the
    document, every other line that starts with [wpa_passphrase=] has
    become that key with the password, and every other line is as it was (a
    line such as [ssid2=...] included).  Only a last line that is empty is
    not kept, since the lines are joined by line feeds and none follows the
    last: the file has the lines of the old one, or one less. *)
Theorem hostapd_conf_rewritten w cfg s old :
  settings_at (heap w) cfg s →
  single_line (wifi_ssid s) → single_line (wifi_password s) →
  files w !! hostapd_conf = Some old →
  writable w hostapd_conf → writable w dhcpcd_conf →
  ∃ w' new,
    apply_wifi_config cfg w = (Ok tt, w')
    ∧ files w' !! hostapd_conf = Some new
    ∧ splitlines new
      = drop_final_empty
          ((λ line, if startswith line (lit "ssid=")
                    then lit "ssid=" ++ wifi_ssid s
                    else if startswith line (lit "wpa_passphrase=")
                         then lit "wpa_passphrase=" ++ wifi_password s
                         else line) <$> splitlines old)
    ∧ (length (splitlines new) = length (splitlines old)
       ∨ S (length (splitlines new)) = length (splitlines old)).
Proof.
  intros Hs Hssid Hpw Hold Hh Hd.
  exists (wifi_applied s w),
    (hostapd_rewrite (wifi_ssid s) (wifi_password s) (universal_newlines old)).
  split; [by apply apply_wifi_config_full|].
  split.
  { unfold wifi_applied.
    rewrite rewritten_files_ne by (apply not_eq_sym, hostapd_not_dhcpcd).
    by rewrite rewritten_files_eq, Hold. }
  assert (splitlines (hostapd_rewrite (wifi_ssid s) (wifi_password s)
                                      (universal_newlines old))
          = drop_final_empty (hostapd_replace (wifi_ssid s) (wifi_password s)
                              <$> splitlines old)) as Hlines;
    [|split; [exact Hlines|];
      rewrite Hlines;
      rewrite <- (length_fmap (hostapd_replace (wifi_ssid s) (wifi_password s))
                              (splitlines old));
      apply drop_final_empty_length].
  - unfold hostapd_rewrite. rewrite splitlines_universal_newlines.
    apply splitlines_join_lines. apply Forall_fmap.
    eapply Forall_impl; [apply splitlines_single_line|].
    intros line Hline. cbv beta delta [compose hostapd_replace].
    destruct (startswith line (lit "ssid="));
      [apply single_line_app; split; [reflexivity | exact Hssid]|].
    destruct (startswith line (lit "wpa_passphrase="));
      [apply single_line_app; split; [reflexivity | exact Hpw]|].
    exact Hline.
Qed.

(** X3. [apply_wifi_config] asks for the restart of a daemon exactly when
    the configuration file of that daemon is there, hostapd before dhcpcd,
    and starts no other command. *)
Theorem apply_wifi_config_restarts w cfg s :
  settings_at (heap w) cfg s →
  writable w hostapd_conf → writable w dhcpcd_conf →
  ∃ w', apply_wifi_config cfg w = (Ok tt, w')
        ∧ ran w' = ran w
                   ++ (if files w !! hostapd_conf is Some _ then [restart (lit "hostapd")] else [])
                   ++ (if files w !! dhcpcd_conf is Some _ then [restart (lit "dhcpcd")] else []).
Proof.
  intros Hs Hh Hd. exists (wifi_applied s w).
  split; [by apply apply_wifi_config_full|].
  unfold wifi_applied. rewrite !rewritten_ran, <- app_assoc.
  by rewrite rewritten_files_ne by apply hostapd_not_dhcpcd.
Qed.

(** X4. [apply_wifi_config] makes no file and removes none, and it leaves
    every file but hostapd.conf and dhcpcd.conf, the directories, the file
    modes and the dictionaries as they are: on a machine that has neither of
    the two files it changes nothing on disk. *)
Theorem apply_wifi_config_frame w cfg s :
  settings_at (heap w) cfg s →
  writable w hostapd_conf → writable w dhcpcd_conf →
  ∃ w', apply_wifi_config cfg w = (Ok tt, w')
        ∧ dom (files w') = dom (files w)
        ∧ (∀ p, p ≠ hostapd_conf → p ≠ dhcpcd_conf → files w' !! p = files w !! p)
        ∧ heap w' = heap w ∧ dirs w' = dirs w ∧ modes w' = modes w.
Proof.
  intros Hs Hh Hd. exists (wifi_applied s w).
  split; [by apply apply_wifi_config_full|].
  unfold wifi_applied.
  pose proof (rewritten_frame hostapd_conf
                (hostapd_rewrite (wifi_ssid s) (wifi_password s))
                (lit "hostapd") w) as (Hheap & Hdirs & Hmodes & _).
  pose proof (rewritten_frame dhcpcd_conf
                (λ text, dhcpcd_rewrite text (wifi_ip s)) (lit "dhcpcd")
                (rewritten hostapd_conf
                   (hostapd_rewrite (wifi_ssid s) (wifi_password s))
                   (lit "hostapd") w)) as (Hheap' & Hdirs' & Hmodes' & _).
  split; [by rewrite !rewritten_dom|].
  split; [|by rewrite Hheap', Hdirs', Hmodes'].
  intros p Hp1 Hp2. by rewrite !rewritten_files_ne by done.
Qed.

(** X5. A rewrite of dhcpcd.conf leaves no trace in the next one: after
    [apply_wifi_config] for a first document and then for a second one, the
    file is the very text that [apply_wifi_config] for the second document
    alone writes.  With the same document twice, the second call writes the
    file as it is. *)
Theorem dhcpcd_rewrite_forgets_first w cfg1 cfg2 s1 s2 content :
  settings_at (heap w) cfg1 s1 →
  settings_at (heap w) cfg2 s2 →
  files w !! dhcpcd_conf = Some content →
  writable w dhcpcd_conf → writable w hostapd_conf →
  single_line (wifi_ip s1) →
  ∃ w12 w2 text,
    (apply_wifi_config cfg1 ;; apply_wifi_config cfg2) w = (Ok tt, w12)
    ∧ apply_wifi_config cfg2 w = (Ok tt, w2)
    ∧ files w12 !! dhcpcd_conf = Some text
    ∧ files w2 !! dhcpcd_conf = Some text.
Proof.
  intros Hs1 Hs2 Hfile Hd Hh Hip.
  pose proof (rewritten_frame hostapd_conf
                (hostapd_rewrite (wifi_ssid s1) (wifi_password s1))
                (lit "hostapd") w) as (Hheap & Hdirs & _ & Hden).
  pose proof (rewritten_frame dhcpcd_conf
                (λ text, dhcpcd_rewrite text (wifi_ip s1)) (lit "dhcpcd")
                (rewritten hostapd_conf
                   (hostapd_rewrite (wifi_ssid s1) (wifi_password s1))
                   (lit "hostapd") w)) as (Hheap' & Hdirs' & _ & Hden').
  exists (wifi_applied s2 (wifi_applied s1 w)), (wifi_applied s2 w),
    (dhcpcd_rewrite (universal_newlines content) (wifi_ip s2)).
  split; [|split; [by apply apply_wifi_config_full|split]].
  - erewrite bind_run by (by apply apply_wifi_config_full).
    apply apply_wifi_config_full; unfold wifi_applied, writable;
      by rewrite ?Hheap', ?Hheap, ?Hden', ?Hdirs', ?Hden, ?Hdirs.
  - unfold wifi_applied.
    rewrite rewritten_files_eq.
    rewrite rewritten_files_ne by apply hostapd_not_dhcpcd.
    rewrite rewritten_files_eq.
    rewrite rewritten_files_ne by apply hostapd_not_dhcpcd.
    rewrite Hfile. cbv beta iota delta [fmap option_fmap option_map].
    by rewrite dhcpcd_rewrite_absorbs.
  - unfold wifi_applied.
    rewrite rewritten_files_eq.
    rewrite rewritten_files_ne by apply hostapd_not_dhcpcd.
    by rewrite Hfile.
Qed.

End network.

Lemma hostapd_conf_rewritten_witness :
  ∃ w' new,
    apply_wifi_config (P:=cannot_start) (VRef 9) hostapd_world = (Ok tt, w')
    ∧ files w' !! hostapd_conf = Some new
    ∧ splitlines new
      = drop_final_empty
          ((λ line, if startswith line (lit "ssid=")
                    then lit "ssid=" ++ wifi_ssid other_settings
                    else if startswith line (lit "wpa_passphrase=")
                         then lit "wpa_passphrase=" ++ wifi_password other_settings
                         else line) <$> splitlines sample_hostapd)
    ∧ (length (splitlines new) = length (splitlines sample_hostapd)
       ∨ S (length (splitlines new)) = length (splitlines sample_hostapd)).
Proof.
  apply (hostapd_conf_rewritten (P:=cannot_start) hostapd_world (VRef 9)
           other_settings sample_hostapd).
  - exists (Sections 5 6 7 8). split; [by exists 9 | by repeat split].
  - reflexivity.
  - reflexivity.
  - reflexivity.
  - vm_compute. intros Hin. discriminate Hin.
  - vm_compute. intros Hin. discriminate Hin.
Defined.

Lemma apply_wifi_config_restarts_witness :
  ∃ w', apply_wifi_config (P:=cannot_start) (VRef 9) hostapd_world = (Ok tt, w')
        ∧ ran w' = ran hostapd_world
                   ++ (if files hostapd_world !! hostapd_conf is Some _
                       then [restart (lit "hostapd")] else [])
                   ++ (if files hostapd_world !! dhcpcd_conf is Some _
                       then [restart (lit "dhcpcd")] else []).
Proof.
  apply (apply_wifi_config_restarts (P:=cannot_start) hostapd_world (VRef 9)
           other_settings).
  - exists (Sections 5 6 7 8). split; [by exists 9 | by repeat split].
  - vm_compute. intros Hin. discriminate Hin.
  - vm_compute. intros Hin. discriminate Hin.
Defined.

Lemma apply_wifi_config_frame_witness :
  ∃ w', apply_wifi_config (P:=cannot_start) DEFAULT_CONFIG fresh_world = (Ok tt, w')
        ∧ dom (files w') = dom (files fresh_world)
        ∧ (∀ p, p ≠ hostapd_conf → p ≠ dhcpcd_conf →
                files w' !! p = files fresh_world !! p)
        ∧ heap w' = heap fresh_world ∧ dirs w' = dirs fresh_world
        ∧ modes w' = modes fresh_world.
Proof.
  apply (apply_wifi_config_frame (P:=cannot_start) fresh_world DEFAULT_CONFIG
           default_settings).
  - exists (Sections 0 1 2 3). split; [by exists 4 | by repeat split].
  - vm_compute. intros Hin. discriminate Hin.
  - vm_compute. intros Hin. discriminate Hin.
Defined.

Lemma dhcpcd_rewrite_forgets_first_witness :
  ∃ w12 w2 text,
    (apply_wifi_config (P:=cannot_start) DEFAULT_CONFIG ;;
     apply_wifi_config (P:=cannot_start) (VRef 9)) router_world = (Ok tt, w12)
    ∧ apply_wifi_config (P:=cannot_start) (VRef 9) router_world = (Ok tt, w2)
    ∧ files w12 !! dhcpcd_conf = Some text
    ∧ files w2 !! dhcpcd_conf = Some text.
Proof.
  apply (dhcpcd_rewrite_forgets_first (P:=cannot_start) router_world
           DEFAULT_CONFIG (VRef 9) default_settings other_settings sample_dhcpcd).
  - exists (Sections 0 1 2 3). split; [by exists 4 | by repeat split].
  - exists (Sections 5 6 7 8). split; [by exists 9 | by repeat split].
  - reflexivity.
  - vm_compute. intros Hin. discriminate Hin.
  - vm_compute. intros Hin. discriminate Hin.
  - reflexivity.
Defined.

(** ** The manifest and the directories of the media *)

Lemma creatable_spec w p :
  creatable w p
  ↔ (p ∉ denied w) ∧ (∀ q, q ∈ (p :: ancestors p) → q ∉ dom (files w)).
Proof.
  unfold creatable. rewrite orb_false_iff, bool_decide_eq_false.
  apply and_iff_compat_l. split.
  - intros Hex q Hq Hin.
    assert (existsb (λ q, bool_decide (q ∈ dom (files w))) (p :: ancestors p) = true)
      as Ht; [|by rewrite Hex in Ht].
    apply existsb_exists. exists q. split; [by apply list_elem_of_In|].
    by apply bool_decide_eq_true.
  - intros Hall. apply not_true_is_false. intros Hex.
    apply existsb_exists in Hex as (q & Hq & Hin).
    apply bool_decide_eq_true in Hin. apply list_elem_of_In in Hq.
    by apply (Hall q).
Qed.

(** A new file that is not in the way of a directory. *)
Lemma creatable_insert w w' p f :
  creatable w p → f ∉ p :: ancestors p →
  denied w' = denied w → dom (files w') = {[f]} ∪ dom (files w) →
  creatable w' p.
Proof.
  rewrite !creatable_spec. intros [Hden Hall] Hf -> ->. split; [done|].
  intros q Hq. rewrite not_elem_of_union, not_elem_of_singleton.
  split; [by intros ->|by apply Hall].
Qed.

(** The loop over the three directories. *)
Lemma make_dirs_run m subs w :
  Forall (λ sub, creatable w (path_join m sub)) subs →
  ∃ w', for_each subs (λ sub, p <- Path2 (VStr m) sub ;; mkdir_p p) w = (Ok tt, w')
        ∧ files w' = files w ∧ dirs w ⊆ dirs w'
        ∧ Forall (λ sub, path_join m sub ∈ dirs w') subs.
Proof.
  revert w. induction subs as [|sub subs IH]; intros w Hsubs.
  { exists w. by repeat split. }
  apply Forall_cons in Hsubs as [Hsub Hsubs].
  set (w1 := set_dirs (dirs w ∪ list_to_set (path_join m sub
                                             :: ancestors (path_join m sub))) w).
  destruct (IH w1) as (w' & Hrun & Hfiles & Hdirs & Hin).
  { eapply Forall_impl; [exact Hsubs|]. intros sub' Hc. exact Hc. }
  exists w'. cbn [for_each].
  erewrite bind_run.
  2:{ cbn [Path2]. erewrite bind_run; [|reflexivity]. by apply mkdir_p_run. }
  fold w1. split; [done|]. split; [done|].
  assert (dirs w1 = dirs w ∪ list_to_set (path_join m sub
                                          :: ancestors (path_join m sub))) as Hw1
    by done.
  split.
  - intros q Hq. apply Hdirs. rewrite Hw1. apply elem_of_union. by left.
  - apply Forall_cons. split; [|done].
    apply Hdirs. rewrite Hw1. apply elem_of_union. right.
    apply elem_of_list_to_set. apply list_elem_of_here.
Qed.

(** X6. For a Settings Document whose [media_root] is a path as the file
    system names it (absolute, spelled as [pathlib] spells it, without a
    double dot), [generate_docker_compose] returns the path of the
    manifest, which is a file then, and the deployment directory and the
    directories [audiobooks], [books] and [config] under [media_root] are
    there afterwards; no directory is removed.  The file system has to let
    these directories be made. *)
Theorem generate_docker_compose_directories cfg s w :
  settings_at (heap w) cfg s →
  normalised (media_root s) →
  creatable w compose_dir → writable w compose_file →
  Forall (λ p, creatable w p ∧ compose_file ∉ p :: ancestors p)
         (media_dirs (media_root s)) →
  ∃ w', generate_docker_compose cfg w = (Ok compose_file, w')
        ∧ is_Some (files w' !! compose_file)
        ∧ compose_dir ∈ dirs w'
        ∧ Forall (λ p, p ∈ dirs w') (media_dirs (media_root s))
        ∧ dirs w ⊆ dirs w'.
Proof.
  intros Hs _ Hdir Hfile Hmedia. unfold generate_docker_compose.
  erewrite bind_run; [|by eapply settings_getitem2].
  erewrite bind_run; [|by eapply settings_getitem2].
  erewrite bind_run; [|by eapply settings_getitem2].
  rewrite (bind_run _ _ _ _ _ (compose_lines_run _ _ _ _)).
  rewrite (bind_run _ _ _ _ _ (mkdir_p_run _ _ Hdir)).
  erewrite bind_run.
  2:{ apply write_text_run; [|apply in_place_made; vm_compute; reflexivity].
      unfold writable in *.
      change (denied (set_dirs ?d ?w)) with (denied w).
      change (dirs (set_dirs ?d ?w)) with d.
      rewrite !not_elem_of_union in *. destruct Hfile as [Hden Hdirs].
      split; [exact Hden|]. split; [exact Hdirs|]. not_listed. }
  match goal with |- ∃ w', (_ ;; _) ?w0 = _ ∧ _ => set (w2 := w0) end.
  destruct (make_dirs_run (media_root s) [lit "audiobooks"; lit "books"; lit "config"] w2)
    as (w' & Hrun & Hfiles & Hdirs & Hin).
  { unfold media_dirs in Hmedia. rewrite Forall_fmap in Hmedia.
    eapply Forall_impl; [exact Hmedia|]. intros sub [Hc Hnot].
    apply (creatable_insert w w2 _ compose_file); [done..|].
    subst w2. change (files (set_files ?x ?y)) with x. by rewrite dom_insert_L. }
  exists w'. erewrite bind_run by exact Hrun.
  split; [done|]. split; [|split; [|split]].
  - rewrite Hfiles. subst w2. change (files (set_files ?x ?y)) with x.
    by rewrite lookup_insert_eq.
  - apply Hdirs. subst w2. change (dirs (set_files ?x (set_dirs ?d ?y))) with d.
    apply elem_of_union. right. apply elem_of_list_to_set, list_elem_of_here.
  - unfold media_dirs. by rewrite Forall_fmap.
  - intros q Hq. apply Hdirs. subst w2.
    change (dirs (set_files ?x (set_dirs ?d ?y))) with d.
    apply elem_of_union. by left.
Qed.

Lemma generate_docker_compose_directories_witness :
  ∃ w', generate_docker_compose DEFAULT_CONFIG fresh_world = (Ok compose_file, w')
        ∧ is_Some (files w' !! compose_file)
        ∧ compose_dir ∈ dirs w'
        ∧ Forall (λ p, p ∈ dirs w') (media_dirs (lit "/mnt/media"))
        ∧ dirs fresh_world ⊆ dirs w'.
Proof.
  apply (generate_docker_compose_directories DEFAULT_CONFIG default_settings
           fresh_world).
  - exists (Sections 0 1 2 3). split; [by exists 4 | by repeat split].
  - split; [reflexivity|]. split; [reflexivity|]. not_listed.
  - reflexivity.
  - vm_compute. intros Hin. discriminate Hin.
  - repeat constructor; not_listed.
Defined.




(** ** The sync script *)

(** X8. With [enable_sync] set, on a machine where the script has its
    place (it is there already, or its directory [/usr/local/bin] is),
    [apply_sync_config] writes the script, made of the four values of the
    document, to its path and gives the file the mode 0o755; it does not
    run the script or any other command, and it touches no other file. *)
Theorem apply_sync_config_enabled cfg s w :
  settings_at (heap w) cfg s →
  enable_sync s = true →
  writable w sync_script_path →
  in_place w sync_script_path →
  ∃ w', apply_sync_config cfg w = (Ok tt, w')
        ∧ files w'
          = <[sync_script_path :=
                sync_script (media_root s) (unraid_ip s)
                            (share_path_audio s) (share_path_books s)]> (files w)
        ∧ modes w' = <[sync_script_path := 493%N]> (modes w)
        ∧ ran w' = ran w ∧ dirs w' = dirs w ∧ heap w' = heap w.
Proof.
  intros Hs Hon Hp Hplace. unfold apply_sync_config.
  erewrite bind_run; [|by eapply settings_getitem2].
  rewrite Hon. cbn [truthy]. erewrite bind_run; [|reflexivity]. cbn [negb].
  erewrite bind_run; [|by eapply settings_getitem2].
  erewrite bind_run; [|by eapply settings_getitem2].
  erewrite bind_run; [|by eapply settings_getitem2].
  erewrite bind_run; [|by eapply settings_getitem2].
  cbn [format_value].
  erewrite bind_run; [|reflexivity]. erewrite bind_run; [|reflexivity].
  erewrite bind_run; [|reflexivity]. erewrite bind_run; [|reflexivity].
  cbv zeta. erewrite bind_run; [|by apply write_text_run].
  unfold chmod. change (files (set_files ?x ?y)) with x.
  rewrite bool_decide_eq_true_2.
  2:{ apply elem_of_union. left. apply elem_of_dom. by rewrite lookup_insert_eq. }
  eexists. split; [reflexivity|]. by repeat split.
Qed.

Lemma apply_sync_config_enabled_witness :
  ∃ w', apply_sync_config (VRef 4) syncing_world = (Ok tt, w')
        ∧ files w'
          = <[sync_script_path :=
                sync_script (lit "/srv/media") (lit "192.168.0.2")
                            (lit "/audio") (lit "/books")]> (files syncing_world)
        ∧ modes w' = <[sync_script_path := 493%N]> (modes syncing_world)
        ∧ ran w' = ran syncing_world ∧ dirs w' = dirs syncing_world
        ∧ heap w' = heap syncing_world.
Proof.
  apply (apply_sync_config_enabled (VRef 4) syncing_settings syncing_world).
  - exists (Sections 0 1 2 3). split; [by exists 4 | by repeat split].
  - reflexivity.
  - apply not_elem_of_union. split; [apply not_elem_of_empty|]. not_listed.
  - right. apply (bool_decide_unpack _). vm_compute. exact I.
Defined.

(** ** What changes nothing but the dictionaries *)

Lemma only_heap_ret {A} (a : A) : only_heap (ret a).
Proof. intros w. symmetry. apply set_heap_heap. Qed.

Lemma only_heap_raise {A} e : only_heap (@raise A e).
Proof. intros w. symmetry. apply set_heap_heap. Qed.

Lemma only_heap_bind {A B} (m : M A) (k : A → M B) :
  only_heap m → (∀ a, only_heap (k a)) → only_heap (bind m k).
Proof.
  intros Hm Hk w. unfold bind. specialize (Hm w).
  destruct (m w) as [[a|e] w1]; cbn [snd] in *; [|done].
  rewrite (Hk a w1). rewrite Hm at 2. by rewrite set_heap_set_heap.
Qed.

Lemma only_heap_deref v : only_heap (deref v).
Proof.
  intros w. unfold deref. symmetry.
  destruct v; try apply set_heap_heap. destruct (heap w !! _); apply set_heap_heap.
Qed.

Lemma only_heap_getitem v k : only_heap (getitem v k).
Proof.
  apply only_heap_bind; [apply only_heap_deref|]. intros d.
  destruct (d !! k); [apply only_heap_ret | apply only_heap_raise].
Qed.

Lemma only_heap_getitem2 v a b : only_heap (getitem2 v a b).
Proof. apply only_heap_bind; [|intros ?]; apply only_heap_getitem. Qed.

Lemma only_heap_setitem v k x : only_heap (setitem v k x).
Proof.
  apply only_heap_bind; [apply only_heap_deref|]. intros d w.
  destruct v; try (symmetry; apply set_heap_heap). done.
Qed.

Lemma only_heap_assign v a b x : only_heap (assign v a b x).
Proof.
  apply only_heap_bind; [apply only_heap_getitem|]. intros ?.
  apply only_heap_setitem.
Qed.

Lemma only_heap_submitted_or r key stored :
  only_heap stored → only_heap (submitted_or r key stored).
Proof.
  intros Hs. unfold submitted_or.
  destruct (strip _); [done | apply only_heap_ret].
Qed.

Lemma only_heap_setup_merge r cfg : only_heap (setup_merge r cfg).
Proof.
  unfold setup_merge.
  repeat first
    [ apply only_heap_assign
    | apply only_heap_submitted_or, only_heap_getitem2
    | apply only_heap_bind; [|intros ?] ].
Qed.

Section handler_frame.
Context {Y : Yaml} {P : Subprocess}.

Lemma only_heap_load_config : only_heap load_config.
Proof.
  unfold load_config. apply only_heap_bind.
  { intros w. symmetry. apply set_heap_heap. }
  intros [].
  - apply only_heap_bind.
    { intros w. unfold read_text. symmetry.
      destruct (files w !! _); apply set_heap_heap. }
    intros text. destruct (safe_load text) as [t|]; [|apply only_heap_raise].
    intros w. unfold construct. by destruct (construct_in t (heap w)).
  - apply only_heap_bind; [apply only_heap_deref|]. intros d w. done.
Qed.

(** X9. A request to [/setup] that is no POST writes nothing: whatever the
    configuration file holds, and whether the handler returns the page or
    raises, the files, the directories and the file modes are as before and
    no command was started. *)
Theorem setup_get_writes_nothing r w :
  method r ≠ lit "POST" →
  files (setup r w).2 = files w ∧ dirs (setup r w).2 = dirs w
  ∧ modes (setup r w).2 = modes w ∧ ran (setup r w).2 = ran w.
Proof.
  intros Hget.
  assert (only_heap (setup r)) as Hk.
  { unfold setup. apply only_heap_bind; [apply only_heap_load_config|].
    intros cfg. rewrite bool_decide_eq_false_2 by done.
    apply only_heap_bind; [|intros ?; apply only_heap_ret].
    unfold render_template_string.
    destruct (_ || _); [apply only_heap_raise | apply only_heap_ret]. }
  by rewrite (Hk w).
Qed.

(** X10. A configuration file that is not YAML makes every request to
    [/setup], GET or POST, raise the error of the parser; nothing is
    changed, and the defaults are not used in its place. *)
Theorem setup_config_not_yaml r w text :
  files w !! CONFIG_PATH = Some text →
  safe_load (universal_newlines text) = None →
  setup r w = (Raise YAMLError, w).
Proof.
  intros Hfile Hload. unfold setup, load_config, bind at 1, bind at 1, path_exists.
  rewrite bool_decide_eq_true_2.
  2:{ apply elem_of_union. left. by apply elem_of_dom. }
  unfold bind at 1. rewrite (read_text_run _ _ _ Hfile). by rewrite Hload.
Qed.

End handler_frame.

Lemma setup_get_writes_nothing_witness :
  files (setup (Y:=block_yaml) (P:=cannot_start) sample_get partial_world).2
  = files partial_world
  ∧ dirs (setup (Y:=block_yaml) (P:=cannot_start) sample_get partial_world).2
    = dirs partial_world
  ∧ modes (setup (Y:=block_yaml) (P:=cannot_start) sample_get partial_world).2
    = modes partial_world
  ∧ ran (setup (Y:=block_yaml) (P:=cannot_start) sample_get partial_world).2
    = ran partial_world.
Proof.
  apply (setup_get_writes_nothing (Y:=block_yaml) (P:=cannot_start) sample_get
           partial_world).
  intros Heq. apply (f_equal length) in Heq. vm_compute in Heq. discriminate Heq.
Defined.

Lemma setup_config_not_yaml_witness :
  setup (Y:=block_yaml) (P:=cannot_start) sample_post broken_world
  = (Raise YAMLError, broken_world).
Proof.
  apply (setup_config_not_yaml (Y:=block_yaml) (P:=cannot_start) sample_post
           broken_world broken_file).
  - reflexivity.
  - vm_compute. reflexivity.
Defined.

(** ** A POST that cannot go through *)

(** An assignment that returns found its section, and it leaves the other
    keys of the document as they are. *)
Lemma assign_inv cfg a b x w w' :
  assign cfg a b x w = (Ok tt, w') →
  has_key (heap w) cfg a = true
  ∧ ∀ name, name ≠ b → has_key (heap w') cfg name = has_key (heap w) cfg name.
Proof.
  unfold assign, getitem, setitem, bind, deref. intros Hrun.
  destruct cfg as [| | | | |l]; try done.
  destruct (heap w !! l) as [d|] eqn:Hl; [|done].
  destruct (d !! a) as [section|] eqn:Ha; [|done]. cbn [ret] in Hrun.
  destruct section as [| | | | |l']; try done.
  destruct (heap w !! l') as [d'|] eqn:Hl'; [|done].
  injection Hrun as <-. cbn [has_key heap set_heap]. rewrite Hl.
  split; [apply bool_decide_eq_true; by rewrite Ha|].
  intros name Hname. destruct (decide (l = l')) as [<-|Hne].
  - rewrite list_lookup_insert_eq by (by eapply lookup_lt_Some).
    rewrite Hl in Hl'. injection Hl' as <-.
    by rewrite lookup_insert_ne.
  - rewrite list_lookup_insert_ne by done. by rewrite Hl.
Qed.

Lemma submitted_or_inv r key cfg a b x w w' :
  submitted_or r key (getitem2 cfg a b) w = (Ok x, w') → w' = w.
Proof.
  intros Hrun.
  pose proof (only_heap_submitted_or r key _ (only_heap_getitem2 cfg a b) w) as Hw.
  assert (heap (submitted_or r key (getitem2 cfg a b) w).2 = heap w) as Hh.
  { unfold submitted_or. destruct (strip _); [apply keeps_heap_getitem2 | done]. }
  rewrite Hh, Hrun, set_heap_heap in Hw. done.
Qed.

(** The merge returns only for a document that has its four sections. *)
Lemma setup_merge_needs_sections r cfg w w' :
  setup_merge r cfg w = (Ok tt, w') → populated (heap w) cfg = true.
Proof.
  unfold setup_merge. intros H.
  apply bind_inv in H as (x1 & w1 & S1 & H). apply submitted_or_inv in S1 as ->.
  apply bind_inv in H as ([] & w2 & A1 & H). apply assign_inv in A1 as [Hwifi K1].
  apply bind_inv in H as (x2 & w3 & S2 & H). apply submitted_or_inv in S2 as ->.
  apply bind_inv in H as ([] & w4 & A2 & H). apply assign_inv in A2 as [_ K2].
  apply bind_inv in H as (x3 & w5 & S3 & H). apply submitted_or_inv in S3 as ->.
  apply bind_inv in H as ([] & w6 & A3 & H). apply assign_inv in A3 as [_ K3].
  apply bind_inv in H as (x4 & w7 & S4 & H). apply submitted_or_inv in S4 as ->.
  apply bind_inv in H as ([] & w8 & A4 & H). apply assign_inv in A4 as [Hstorage K4].
  apply bind_inv in H as ([] & w9 & A5 & H). apply assign_inv in A5 as [Happs K5].
  apply bind_inv in H as ([] & w10 & A6 & H). apply assign_inv in A6 as [_ K6].
  apply bind_inv in H as ([] & w11 & A7 & _). apply assign_inv in A7 as [Hsync _].
  rewrite K6, K5, K4, K3, K2, K1 in Hsync by done.
  rewrite K4, K3, K2, K1 in Happs by done.
  rewrite K3, K2, K1 in Hstorage by done.
  unfold populated, section_names. cbn [forallb].
  by rewrite Hwifi, Hstorage, Happs, Hsync.
Qed.

Section refused.
Context {Y : Yaml} {P : Subprocess}.

(** X11. A POST needs a document with all four sections: when the document
    that was loaded lacks one of them (the configuration file was written
    by hand, or in part), every POST raises, whatever was submitted; it
    does not redirect, and no file is written, no directory made and no
    command started. *)
Theorem setup_post_needs_sections r w cfg w0 :
  method r = lit "POST" →
  load_config w = (Ok cfg, w0) →
  populated (heap w0) cfg = false →
  ∃ e w', setup r w = (Raise e, w')
          ∧ files w' = files w ∧ dirs w' = dirs w
          ∧ modes w' = modes w ∧ ran w' = ran w.
Proof.
  intros Hpost Hload Hpop. unfold setup.
  rewrite (bind_run _ _ _ _ _ Hload). rewrite bool_decide_eq_true_2 by done.
  pose proof (only_heap_load_config w) as Hw0. rewrite Hload in Hw0. cbn [snd] in Hw0.
  pose proof (only_heap_setup_merge r cfg w0) as Hw1.
  destruct (setup_merge r cfg w0) as [[[]|e] w1] eqn:Hmerge.
  { apply setup_merge_needs_sections in Hmerge. congruence. }
  exists e, w1. unfold bind at 1. rewrite Hmerge. split; [done|].
  cbn [snd] in Hw1. rewrite Hw1, Hw0. done.
Qed.


End refused.

Lemma setup_post_needs_sections_witness :
  ∃ e w', setup (Y:=block_yaml) (P:=cannot_start) sample_post partial_world
          = (Raise e, w')
          ∧ files w' = files partial_world ∧ dirs w' = dirs partial_world
          ∧ modes w' = modes partial_world ∧ ran w' = ran partial_world.
Proof.
  apply (setup_post_needs_sections (Y:=block_yaml) (P:=cannot_start) sample_post
           partial_world (VRef 6) partial_loaded).
  - reflexivity.
  - vm_compute. reflexivity.
  - vm_compute. reflexivity.
Defined.


(** ** The merge *)

Lemma lstrip_starts_bare s : starts_bare (lstrip s).
Proof.
  induction s as [|c s IH]; [done|]. simpl.
  by destruct (is_space c) eqn:Hc.
Qed.

Lemma lstrip_bare s : starts_bare s → lstrip s = s.
Proof. destruct s as [|c s]; [done|]. simpl. by intros ->. Qed.

(** What [lstrip] leaves is the end of the string. *)
Lemma lstrip_suffix s : ∃ blanks, s = blanks ++ lstrip s.
Proof.
  induction s as [|c s [blanks IH]]; [by exists []|]. simpl.
  destruct (is_space c); [|by exists []].
  exists (c :: blanks). simpl. by rewrite <- IH.
Qed.

Lemma rstrip_starts_bare s : starts_bare s → starts_bare (rstrip s).
Proof.
  intros Hs. unfold rstrip.
  destruct (lstrip_suffix (reverse s)) as [blanks Hb].
  apply (f_equal reverse) in Hb. rewrite reverse_involutive, reverse_app in Hb.
  destruct (reverse (lstrip (reverse s))) as [|c t]; [done|].
  by rewrite Hb in Hs.
Qed.

(** Stripping a stripped string changes nothing. *)
Lemma strip_strip s : strip (strip s) = strip s.
Proof.
  unfold strip at 1.
  rewrite lstrip_bare by apply rstrip_starts_bare, lstrip_starts_bare.
  unfold strip, rstrip. rewrite reverse_involutive.
  by rewrite (lstrip_bare (lstrip _)) by apply lstrip_starts_bare.
Qed.

Lemma overlay_text_twice f key stored :
  overlay_text f key (overlay_text f key stored) = overlay_text f key stored.
Proof. unfold overlay_text. by case_bool_decide. Qed.

Lemma merged_twice s f : merged (merged s f) f = merged s f.
Proof. unfold merged. cbn. by rewrite !overlay_text_twice. Qed.

Lemma overlay_text_kept_or_stripped f key stored :
  overlay_text f key stored = stored
  ∨ (overlay_text f key stored ≠ []
     ∧ strip (overlay_text f key stored) = overlay_text f key stored).
Proof.
  unfold overlay_text. case_bool_decide as Hs; [by left|].
  right. split; [done|]. apply strip_strip.
Qed.

Lemma with_sections_hold h l a s s' :
  h !! l = Some (top_dict a) → sections_hold h a s →
  with_sections a s' h !! l = Some (top_dict a)
  ∧ sections_hold (with_sections a s' h) a s'.
Proof.
  intros Hl Hs.
  destruct (settings_distinct _ _ _ _ Hl Hs)
    as ((? & ? & ? & ?) & (? & ? & ?) & (? & ?) & ?).
  destruct Hs as (Hw & Hs & Ha & Hy).
  unfold with_sections. split; [|repeat split]; heap_lookup.
Qed.

Lemma with_sections_same h a s :
  sections_hold h a s → with_sections a s h = h.
Proof.
  intros (Hw & Hs & Ha & Hy). unfold with_sections.
  rewrite (list_insert_id h _ _ Hw), (list_insert_id h _ _ Hs).
  by rewrite (list_insert_id h _ _ Ha), (list_insert_id h _ _ Hy).
Qed.

(** X13. The merge is idempotent: for a Settings Document, laying the
    fields of a request over the document a second time leaves every
    dictionary as the first time left it. *)
Theorem setup_merge_twice r cfg s w :
  settings_at (heap w) cfg s →
  ∃ w', setup_merge r cfg w = (Ok tt, w')
        ∧ (setup_merge r cfg ;; setup_merge r cfg) w = (Ok tt, w').
Proof.
  intros (a & (l & -> & Hl) & Hs).
  destruct (with_sections_hold _ _ _ _ (merged s (form r)) Hl Hs) as [Hl' Hs'].
  eexists. split; [apply setup_merge_run; [by exists l | done]|].
  erewrite bind_run by (apply setup_merge_run; [by exists l | done]).
  rewrite (setup_merge_run r (VRef l) a (merged s (form r))).
  - rewrite heap_set_heap, set_heap_set_heap, merged_twice.
    by rewrite (with_sections_same _ _ _ Hs').
  - exists l. by rewrite heap_set_heap.
  - by rewrite heap_set_heap.
Qed.

Lemma setup_merge_twice_witness :
  ∃ w', setup_merge sample_post DEFAULT_CONFIG fresh_world = (Ok tt, w')
        ∧ (setup_merge sample_post DEFAULT_CONFIG ;;
           setup_merge sample_post DEFAULT_CONFIG) fresh_world = (Ok tt, w').
Proof.
  apply (setup_merge_twice sample_post DEFAULT_CONFIG default_settings fresh_world).
  exists (Sections 0 1 2 3). split; [by exists 4 | by repeat split].
Defined.

(** X14. The form cannot empty a text field: after the merge each of the
    seven text fields either holds the value it held, or a value that is
    not empty and has no white space at its start or its end (stripping it
    changes nothing). *)
Theorem setup_merge_text_fields r cfg s w :
  settings_at (heap w) cfg s →
  ∃ h' s', setup_merge r cfg w = (Ok tt, set_heap h' w)
           ∧ settings_at h' cfg s'
           ∧ Forall2 (λ old new, new = old ∨ (new ≠ [] ∧ strip new = new))
                     (text_fields s) (text_fields s').
Proof.
  intros (a & (l & -> & Hl) & Hs).
  exists (with_sections a (merged s (form r)) (heap w)), (merged s (form r)).
  split; [apply setup_merge_run; [by exists l | done]|].
  split; [by eapply with_sections_settings|].
  unfold text_fields, merged. cbn.
  repeat (apply Forall2_cons; split; [apply overlay_text_kept_or_stripped|]).
  apply Forall2_nil_2.
Qed.

Lemma setup_merge_text_fields_witness :
  ∃ h' s', setup_merge sample_post DEFAULT_CONFIG fresh_world
           = (Ok tt, set_heap h' fresh_world)
           ∧ settings_at h' DEFAULT_CONFIG s'
           ∧ Forall2 (λ old new, new = old ∨ (new ≠ [] ∧ strip new = new))
                     (text_fields default_settings) (text_fields s').
Proof.
  apply (setup_merge_text_fields sample_post DEFAULT_CONFIG default_settings
           fresh_world).
  exists (Sections 0 1 2 3). split; [by exists 4 | by repeat split].
Defined.

(** ** Documents of any shape *)

(** A tree that is the dump of some value is built as a value with the very
    same dump. *)
Lemma construct_of_represent n h v t :
  represent n h v = Some t →
  ∀ h0, ∃ v' ext, construct_in t h0 = (v', h0 ++ ext)
                  ∧ represent n (h0 ++ ext) v' = Some t.
Proof.
  revert v t. induction n as [|n IH]; intros v t Hv h0; [done|].
  destruct v as [| | | | |l];
    try (injection Hv as <-; by apply construct_in_flat).
  apply represent_VRef in Hv as (d & m & Hl & -> & Hm).
  apply construct_in_TMap. intros k t Hk h1. specialize (Hm k).
  rewrite Hk in Hm. destruct (d !! k) as [v|]; [|done].
  apply related_Some in Hm. by eapply IH.
Qed.

Section any_document.
Context {Y : Yaml}.

Lemma dump_tree_run cfg t w w1 :
  dump_tree cfg w = (Ok t, w) → heap w1 = heap w → dump_tree cfg w1 = (Ok t, w1).
Proof.
  unfold dump_tree. intros Hd ->.
  destruct (represent _ _ cfg); [|done]. by injection Hd as ->.
Qed.

(** What [save_config] does for a document that is dumped as [t]. *)
Lemma save_config_run_any cfg t w :
  dump_tree cfg w = (Ok t, w) →
  creatable w (path_parent CONFIG_PATH) → writable w CONFIG_PATH →
  save_config cfg w
  = (Ok tt, set_files (<[CONFIG_PATH := safe_dump t]> (files w))
              (set_dirs (dirs w ∪ list_to_set (path_parent CONFIG_PATH
                                               :: ancestors (path_parent CONFIG_PATH))) w)).
Proof.
  intros Hdump Hdir Hfile. unfold save_config.
  rewrite (bind_run _ _ _ _ _ (mkdir_p_run _ _ Hdir)).
  assert (∀ f, writable (set_files f (set_dirs
            (dirs w ∪ list_to_set (path_parent CONFIG_PATH
                                   :: ancestors (path_parent CONFIG_PATH))) w))
            CONFIG_PATH) as Hopen.
  { intros f. unfold writable in *.
    change (denied (set_files ?f (set_dirs ?d ?w))) with (denied w).
    change (dirs (set_files ?f (set_dirs ?d ?w))) with d.
    rewrite !not_elem_of_union in *. destruct Hfile as [Hden Hdirs].
    split; [exact Hden|]. split; [exact Hdirs|]. not_listed. }
  assert (∀ f, in_place (set_files f (set_dirs
            (dirs w ∪ list_to_set (path_parent CONFIG_PATH
                                   :: ancestors (path_parent CONFIG_PATH))) w))
            CONFIG_PATH) as Hplace.
  { intros f. right. change (dirs (set_files ?f (set_dirs ?d ?w))) with d.
    apply elem_of_union. right. apply elem_of_list_to_set, list_elem_of_here. }
  rewrite (bind_run _ _ _ _ _ (write_text_run _ _ _ (Hopen (files w)) (Hplace (files w)))).
  erewrite bind_run; [|by eapply dump_tree_run].
  rewrite write_text_run; [|apply Hopen|apply Hplace].
  unfold set_files. cbn [files heap dirs modes denied ran].
  by rewrite insert_insert_eq.
Qed.

(** X15. Saving and loading round-trips a document of any shape, not only
    one with the four sections: when the document is dumped as the tree
    [t], the YAML library reads back [t] from what it wrote for it, and the
    file can be written, then [save_config] followed by [load_config]
    returns a document that is dumped as [t] again. *)
Theorem save_then_load_any cfg t w :
  dump_tree cfg w = (Ok t, w) →
  safe_load (universal_newlines (safe_dump t)) = Some t →
  creatable w (path_parent CONFIG_PATH) →
  writable w CONFIG_PATH →
  ∃ cfg' w', (save_config cfg ;; load_config) w = (Ok cfg', w')
             ∧ dump_tree cfg' w' = (Ok t, w').
Proof.
  intros Hdump Hyaml Hdir Hfile.
  rewrite (bind_run _ _ _ _ _ (save_config_run_any cfg t w Hdump Hdir Hfile)).
  erewrite load_config_file; [|apply lookup_insert_eq|exact Hyaml].
  unfold dump_tree in Hdump.
  destruct (represent (S (length (heap w))) (heap w) cfg) as [t'|] eqn:Hr; [|done].
  injection Hdump as ->.
  destruct (construct_of_represent _ _ _ _ Hr (heap w)) as (v' & ext & Hc & Hr').
  eexists _, _. split; [done|].
  change (heap (set_files ?a (set_dirs ?c ?x))) with (heap x).
  rewrite Hc. cbn [fst snd]. unfold dump_tree. rewrite heap_set_heap.
  rewrite (represent_deep _ (S (length (heap w ++ ext))) _ _ _ Hr'); [done|].
  rewrite length_app. lia.
Qed.

End any_document.

Lemma save_then_load_any_witness :
  ∃ cfg' w', (save_config (Y:=block_yaml) (VRef 6) ;;
              load_config (Y:=block_yaml)) partial_loaded = (Ok cfg', w')
             ∧ dump_tree cfg' w' = (Ok partial_tree, w').
Proof.
  apply (save_then_load_any (Y:=block_yaml) (VRef 6) partial_tree partial_loaded).
  - vm_compute. reflexivity.
  - vm_compute. reflexivity.
  - reflexivity.
  - vm_compute. intros Hin. discriminate Hin.
Defined.

(** ** The defaults when there is a configuration file *)

(** The sections of a Settings Document built by [construct_in] are new
    dictionaries. *)
Lemma construct_settings_new (s : settings) (h : list dict) :
  ∃ l ext a,
    construct_in (settings_tree s) h = (VRef l, h ++ ext)
    ∧ (h ++ ext) !! l = Some (top_dict a)
    ∧ sections_hold (h ++ ext) a s
    ∧ length h ≤ at_wifi a ∧ length h ≤ at_storage a
    ∧ length h ≤ at_apps a ∧ length h ≤ at_sync a.
Proof.
  destruct (construct_in_new (settings_tree s) h) as (v & ext & Hc & Hv & Hext).
  destruct (construct_settings s h) as (v' & ext' & Hc' & (a & (l & -> & Hl) & Hs)).
  assert (v = VRef l ∧ ext = ext') as [-> ->].
  { rewrite Hc in Hc'. injection Hc' as Hv' Heq.
    apply app_inv_head in Heq. split; [exact Hv' | exact Heq]. }
  exists l, ext', a. split; [done|]. split; [done|]. split; [done|].
  simpl in Hv. rewrite lookup_app_r in Hl by done.
  apply list_elem_of_lookup_2 in Hl.
  pose proof (proj1 (Forall_forall _ _) Hext _ Hl) as Htop.
  repeat split.
  - by apply (Htop (lit "wifi") (VRef (at_wifi a))).
  - by apply (Htop (lit "storage") (VRef (at_storage a))).
  - by apply (Htop (lit "apps") (VRef (at_apps a))).
  - by apply (Htop (lit "sync") (VRef (at_sync a))).
Qed.

Lemma with_sections_below a s h l :
  l < at_wifi a → l < at_storage a → l < at_apps a → l < at_sync a →
  with_sections a s h !! l = h !! l.
Proof.
  intros. unfold with_sections.
  rewrite !list_lookup_insert_ne by lia. done.
Qed.

Section loaded_from_file.
Context {Y : Yaml} {P : Subprocess}.

(** X16. When the configuration file holds a Settings Document, a request
    to [/setup] changes no dictionary that was there before it: the
    document is built of new dictionaries, and the POST writes into these.
    So the defaults keep their values; they are written into only when
    there is no configuration file. *)
Theorem setup_with_file_keeps_dictionaries r w text s :
  files w !! CONFIG_PATH = Some text →
  safe_load (universal_newlines text) = Some (settings_tree s) →
  ∀ l d, heap w !! l = Some d → heap (setup r w).2 !! l = Some d.
Proof.
  intros Hfile Hyaml l d Hl.
  pose proof (load_config_file w text _ Hfile Hyaml) as Hload.
  destruct (construct_settings_new s (heap w))
    as (l0 & ext & a & Hc & Htop & Hs & Hw & Hst & Ha & Hy).
  rewrite Hc in Hload. cbn [fst snd] in Hload.
  apply lookup_lt_Some in Hl as Hlt.
  destruct (decide (method r = lit "POST")) as [Hpost|Hget].
  - rewrite (setup_post_heap r w _ _ a s Hpost Hload).
    + rewrite heap_set_heap, with_sections_below by lia.
      by apply lookup_app_l_Some.
    + exists l0. split; [reflexivity | exact Htop].
    + exact Hs.
  - unfold setup. rewrite (bind_run _ _ _ _ _ Hload).
    rewrite bool_decide_eq_false_2 by done.
    match goal with |- heap (?m ?w).2 !! _ = _ => assert (keeps_heap m) as Hk end.
    { keeps_heap. }
    rewrite Hk, heap_set_heap. by apply lookup_app_l_Some.
Qed.

End loaded_from_file.

Lemma setup_with_file_keeps_dictionaries_witness :
  heap (setup (Y:=block_yaml) (P:=cannot_start) sample_post configured_world).2
  !! 0 = Some (wifi_dict default_settings).
Proof.
  apply (setup_with_file_keeps_dictionaries (Y:=block_yaml) (P:=cannot_start)
           sample_post configured_world
           (safe_dump (Yaml:=block_yaml) (settings_tree other_settings))
           other_settings).
  - reflexivity.
  - vm_compute. reflexivity.
  - reflexivity.
Defined.

(** ** What a POST leaves in the configuration file *)

Lemma only_heap_keeps_file p {A} (m : M A) : only_heap m → keeps_file p m.
Proof. intros Hm w. by rewrite (Hm w). Qed.

Lemma keeps_file_bind p {A B} (m : M A) (k : A → M B) :
  keeps_file p m → (∀ a, keeps_file p (k a)) → keeps_file p (bind m k).
Proof.
  intros Hm Hk w. unfold bind. specialize (Hm w).
  destruct (m w) as [[a|e] w']; cbn [snd] in *; [|done].
  by rewrite Hk.
Qed.

Lemma keeps_file_ret p {A} (a : A) : keeps_file p (ret a).
Proof. done. Qed.

Lemma keeps_file_raise p {A} e : keeps_file p (@raise A e).
Proof. done. Qed.

Lemma keeps_file_write_text p q s : q ≠ p → keeps_file p (write_text q s).
Proof.
  intros Hq w. unfold write_text. repeat case_match; try done.
  cbn. by rewrite lookup_insert_ne.
Qed.

Lemma keeps_file_path_exists p q : keeps_file p (path_exists q).
Proof. done. Qed.

Lemma keeps_file_read_text p q : keeps_file p (read_text q).
Proof. intros w. unfold read_text. by case_match. Qed.

Lemma keeps_file_mkdir_p p q : keeps_file p (mkdir_p q).
Proof. intros w. unfold mkdir_p. by case_match. Qed.

Lemma keeps_file_chmod p q m : keeps_file p (chmod q m).
Proof. intros w. unfold chmod. by case_match. Qed.

Lemma keeps_file_Path2 p v sub : keeps_file p (Path2 v sub).
Proof. by destruct v. Qed.

Lemma keeps_file_url_for p e : keeps_file p (url_for e).
Proof. unfold url_for. by repeat case_match. Qed.

Lemma keeps_file_truthy p v : keeps_file p (truthy v).
Proof.
  destruct v; try done.
  apply keeps_file_bind; [apply only_heap_keeps_file, only_heap_deref | done].
Qed.

Lemma keeps_file_format_value p v : keeps_file p (format_value v).
Proof. by destruct v as [| [] | | | |]. Qed.

Lemma keeps_file_for_each p {A} (xs : list A) body :
  (∀ x, keeps_file p (body x)) → keeps_file p (for_each xs body).
Proof.
  intros Hb. induction xs as [|x xs IH]; simpl; [done|].
  apply keeps_file_bind; auto.
Qed.

Lemma keeps_file_hostapd_lines p a b lines : keeps_file p (hostapd_lines a b lines).
Proof.
  induction lines as [|l lines IH]; simpl; [done|].
  apply keeps_file_bind.
  - repeat case_match; try done;
      (apply keeps_file_bind; [apply keeps_file_format_value | done]).
  - intros ?. apply keeps_file_bind; [done | done].
Qed.

Lemma keeps_file_best_effort {P : Subprocess} p cmd :
  keeps_file p (try_pass (subprocess_run cmd)).
Proof. intros w. by rewrite best_effort_run. Qed.

(** A path that is not the one of the configuration file. *)
Ltac other_path :=
  let H := fresh in intros H; vm_compute in H; discriminate H.

Ltac keeps_file :=
  repeat first
    [ apply keeps_file_ret | apply keeps_file_raise
    | apply only_heap_keeps_file, only_heap_getitem2
    | apply keeps_file_truthy | apply keeps_file_format_value
    | apply keeps_file_path_exists | apply keeps_file_read_text
    | apply keeps_file_write_text; other_path
    | apply keeps_file_mkdir_p | apply keeps_file_chmod
    | apply keeps_file_Path2 | apply keeps_file_url_for
    | apply keeps_file_hostapd_lines
    | apply keeps_file_best_effort
    | apply keeps_file_for_each; intros ?
    | apply keeps_file_bind; [|intros ?]
    | match goal with
      | |- keeps_file _ (if ?b then _ else _) => destruct b
      end ].

Section persisted.
Context {Y : Yaml} {P : Subprocess}.

Lemma keeps_file_writers cfg :
  keeps_file CONFIG_PATH
    (apply_wifi_config cfg ;;
     compose_path <- generate_docker_compose cfg ;;
     apply_sync_config cfg ;;
     try_pass (subprocess_run [lit "docker"; lit "compose"; lit "-f"; compose_path;
                               lit "up"; lit "-d"; lit "--build"]) ;;
     location <- url_for (lit "setup") ;;
     ret (Redirect location)).
Proof.
  unfold apply_wifi_config, generate_docker_compose, compose_lines,
    apply_sync_config.
  cbv zeta. keeps_file.
Qed.

(** What [save_config] leaves in the file when it returns. *)
Lemma save_config_inv cfg s w w' :
  settings_at (heap w) cfg s →
  save_config cfg w = (Ok tt, w') →
  files w' !! CONFIG_PATH = Some (safe_dump (settings_tree s)).
Proof.
  intros Hs Hsave. unfold save_config in Hsave.
  apply bind_inv in Hsave as ([] & w1 & Hmk & Hsave).
  apply bind_inv in Hsave as ([] & w2 & Hopen & Hsave).
  apply bind_inv in Hsave as (t & w3 & Hdump & Hwrite).
  pose proof (keeps_heap_mkdir_p (path_parent CONFIG_PATH) w) as H1.
  pose proof (keeps_heap_write_text CONFIG_PATH [] w1) as H2.
  rewrite Hmk in H1. rewrite Hopen in H2. cbn [snd] in *.
  rewrite (dump_tree_settings cfg s) in Hdump by (by rewrite H2, H1).
  injection Hdump as <- <-.
  unfold write_text in Hwrite. repeat case_match; try done.
  injection Hwrite as <-. cbn. by rewrite lookup_insert_eq.
Qed.

(** The configuration file after a POST that returned. *)
Lemma setup_post_file r w cfg w0 s resp w' :
  method r = lit "POST" →
  load_config w = (Ok cfg, w0) →
  settings_at (heap w0) cfg s →
  setup r w = (Ok resp, w') →
  files w' !! CONFIG_PATH
  = Some (safe_dump (settings_tree (merged s (form r)))).
Proof.
  intros Hpost Hload (a & Hdoc & Hs) Hrun. unfold setup in Hrun.
  rewrite (bind_run _ _ _ _ _ Hload) in Hrun.
  rewrite bool_decide_eq_true_2 in Hrun by done.
  rewrite (bind_run _ _ _ _ _ (setup_merge_run r cfg a s w0 Hdoc Hs)) in Hrun.
  apply bind_inv in Hrun as ([] & w2 & Hsave & Hrest).
  apply save_config_inv with (s := merged s (form r)) in Hsave.
  2:{ rewrite heap_set_heap. destruct Hdoc as (l & -> & Hl).
      by eapply with_sections_settings. }
  pose proof (keeps_file_writers cfg w2) as Hkeep.
  rewrite Hrest in Hkeep. cbn [snd] in Hkeep. by rewrite Hkeep.
Qed.

(** X17. A POST that returns has persisted the merged document: when the
    document that was loaded is a Settings Document and the handler
    returns, the configuration file holds the YAML dump of the document
    with the merged fields; none of the three writers and no later step
    touches that file. *)
Theorem setup_post_persists r w cfg w0 s resp w' :
  method r = lit "POST" →
  load_config w = (Ok cfg, w0) →
  settings_at (heap w0) cfg s →
  setup r w = (Ok resp, w') →
  files w' !! CONFIG_PATH
  = Some (safe_dump (settings_tree (merged s (form r)))).
Proof. apply setup_post_file. Qed.

(** X18. What a POST stored is what the next request loads: after a POST
    that returned, for a YAML library that reads back what it wrote for the
    merged document, [load_config] returns a Settings Document with the
    merged fields. *)
Theorem setup_post_then_load r w cfg w0 s resp w' :
  method r = lit "POST" →
  load_config w = (Ok cfg, w0) →
  settings_at (heap w0) cfg s →
  setup r w = (Ok resp, w') →
  safe_load (universal_newlines (safe_dump (settings_tree (merged s (form r)))))
  = Some (settings_tree (merged s (form r))) →
  ∃ cfg' w'', load_config w' = (Ok cfg', w'')
              ∧ settings_at (heap w'') cfg' (merged s (form r)).
Proof.
  intros Hpost Hload Hs Hrun Hyaml.
  pose proof (setup_post_file r w cfg w0 s resp w' Hpost Hload Hs Hrun) as Hfile.
  erewrite load_config_file; [|exact Hfile|exact Hyaml].
  destruct (construct_settings (merged s (form r)) (heap w'))
    as (v & ext & Hc & Hs').
  eexists _, _. split; [done|]. rewrite heap_set_heap. by rewrite Hc.
Qed.

End persisted.

Lemma setup_post_persists_witness :
  ∃ w', setup (Y:=block_yaml) (P:=cannot_start) sample_post fresh_world
        = (Ok (Redirect (lit "/setup")), w')
        ∧ files w' !! CONFIG_PATH
          = Some (safe_dump (Yaml:=block_yaml)
                    (settings_tree (merged default_settings sample_form))).
Proof.
  assert (settings_at
            (heap (set_heap (module_heap ++ [top_dict (Sections 0 1 2 3)]) fresh_world))
            (VRef 5) default_settings) as Hs.
  { exists (Sections 0 1 2 3). split; [by exists 5 | by repeat split]. }
  destruct (setup (Y:=block_yaml) (P:=cannot_start) sample_post fresh_world)
    as [res w'] eqn:Hrun.
  assert (res = Ok (Redirect (lit "/setup"))) as Hres.
  { change res with (res, w').1. rewrite <- Hrun. vm_compute. reflexivity. }
  rewrite Hres in Hrun |- *.
  exists w'. split; [reflexivity|].
  exact (setup_post_persists (Y:=block_yaml) (P:=cannot_start) sample_post
           fresh_world (VRef 5)
           (set_heap (module_heap ++ [top_dict (Sections 0 1 2 3)]) fresh_world)
           default_settings (Redirect (lit "/setup")) w'
           eq_refl eq_refl Hs Hrun).
Defined.

Lemma setup_post_then_load_witness :
  ∃ w' cfg' w'',
    setup (Y:=block_yaml) (P:=cannot_start) sample_post fresh_world
    = (Ok (Redirect (lit "/setup")), w')
    ∧ load_config (Y:=block_yaml) w' = (Ok cfg', w'')
    ∧ settings_at (heap w'') cfg' (merged default_settings sample_form).
Proof.
  assert (settings_at
            (heap (set_heap (module_heap ++ [top_dict (Sections 0 1 2 3)]) fresh_world))
            (VRef 5) default_settings) as Hs.
  { exists (Sections 0 1 2 3). split; [by exists 5 | by repeat split]. }
  assert (safe_load (Yaml:=block_yaml)
            (universal_newlines
               (safe_dump (Yaml:=block_yaml)
                  (settings_tree (merged default_settings sample_form))))
          = Some (settings_tree (merged default_settings sample_form))) as Hyaml.
  { vm_compute. reflexivity. }
  destruct (setup (Y:=block_yaml) (P:=cannot_start) sample_post fresh_world)
    as [res w'] eqn:Hrun.
  assert (res = Ok (Redirect (lit "/setup"))) as Hres.
  { change res with (res, w').1. rewrite <- Hrun. vm_compute. reflexivity. }
  rewrite Hres in Hrun |- *.
  destruct (setup_post_then_load (Y:=block_yaml) (P:=cannot_start) sample_post
              fresh_world (VRef 5)
              (set_heap (module_heap ++ [top_dict (Sections 0 1 2 3)]) fresh_world)
              default_settings (Redirect (lit "/setup")) w'
              eq_refl eq_refl Hs Hrun Hyaml) as (cfg' & w'' & Hload & Hs').
  exists w', cfg', w''. split; [reflexivity|]. split; [exact Hload | exact Hs'].
Defined.
